(** * The Boundary [server] command: start-up validation, schema guard,
      signal dispatch and shutdown order.

    A shallow embedding of [internal/cmd/commands/server] (the [Command]
    type with [Run], [ParseFlagsAndConfig], [StartController],
    [StartWorker], [WaitForInterrupt], [Reload], [connectSchemaManager],
    [ensureManagerConnection] and [verifyKmsSetup]).

    The command is imperative Go: it mutates the receiver [c *Command],
    returns early, defers clean-up and calls into many collaborators
    (KMS, listeners, database, controller, worker).  The embedding keeps
    that shape:

    - the receiver is a record threaded through a state monad;
    - [return] inside a function body is an early-return flow;
    - every call to a collaborator is recorded in a trace of events, and
      what the collaborator answers is read from an environment of
      results, so that orderings can be stated on the trace;
    - Go's [net] parsing functions are an interface ([NetLib]), and
      [strings.TrimSpace] and [strings.ToLower], which work on Unicode
      text, are functions of the environment.

    A collaborator is known by the error it answers with.  What it does to
    the receiver besides (the listeners it binds, the public addresses it
    fills in) is not part of the embedding, nor is the readers-writer lock
    that [Reload] holds while it runs. *)

From Stdlib Require Import String Ascii List ZArith Bool Lia DecimalString.
Import ListNotations.
Open Scope Z_scope.
Open Scope string_scope.

Set Implicit Arguments.

(** ** Go values used by the command *)

(** A Go [error] value: [None] is [nil], [Some m] carries [err.Error()]. *)
Definition error := option string.

(** The double-quote character, for the messages that quote a word. *)
Definition dq : string := String (ascii_of_nat 34) EmptyString.

(** [fmt.Sprintf("%q", s)] on text without characters to escape. *)
Definition Sprintf_q (s : string) : string := dq ++ s ++ dq.

(** [fmt.Sprintf("%d", n)]. *)
Definition Sprintf_d (n : Z) : string := NilZero.string_of_int (Z.to_int n).

(** The functions of Go's [strings] package that compare bytes.
    [strings.TrimSpace] and [strings.ToLower] work on Unicode text; they
    are read from the environment of a run (see [Env]). *)
Module strings.

Definition Contains (s substr : string) : bool :=
  match String.index 0 substr s with
  | Some _ => true
  | None => false
  end.

Definition HasPrefix (s pfx : string) : bool := String.prefix pfx s.

End strings.

(** ** The [net] package as an interface

    [Run] calls [net.SplitHostPort], [net.ParseIP], [IP.IsUnspecified] and
    [IP.IsMulticast].  They belong to Go's standard library; the command is
    verified against any implementation of them. *)
Class NetLib : Type := {
  IP : Type;
  (** [host, port, err := net.SplitHostPort(hostport)] *)
  SplitHostPort : string -> string * string * error;
  (** [net.ParseIP(s)], [None] for the nil IP *)
  ParseIP : string -> option IP;
  IsUnspecified : IP -> bool;
  IsMulticast : IP -> bool
}.

(** ** Configuration ([config.Config]) *)

Record Listener : Type := {
  Address : string;
  Purpose : list string
}.

Record DatabaseBlock : Type := {
  Url : string
}.

Record ControllerBlock : Type := {
  Controller_Name : string;
  Database : option DatabaseBlock;
  PublicClusterAddr : string
}.

Record WorkerBlock : Type := {
  Worker_Name : string;
  Controllers : list string;
  PublicAddr : string
}.

Record ConfigT : Type := {
  Controller : option ControllerBlock;
  Worker : option WorkerBlock;
  Listeners : list Listener;
  LogLevel : string;
  LogFormat : string;
  DisableMlock : bool;
  PidFile : string;
  DefaultMaxRequestDuration : Z
}.

Definition set_Controllers (w : WorkerBlock) (l : list string) : WorkerBlock :=
  {| Worker_Name := Worker_Name w; Controllers := l; PublicAddr := PublicAddr w |}.

Definition set_Worker (cfg : ConfigT) (w : option WorkerBlock) : ConfigT :=
  {| Controller := Controller cfg; Worker := w; Listeners := Listeners cfg;
     LogLevel := LogLevel cfg; LogFormat := LogFormat cfg;
     DisableMlock := DisableMlock cfg; PidFile := PidFile cfg;
     DefaultMaxRequestDuration := DefaultMaxRequestDuration cfg |}.

Definition emptyConfig : ConfigT :=
  {| Controller := None; Worker := None; Listeners := [];
     LogLevel := ""; LogFormat := ""; DisableMlock := false; PidFile := "";
     DefaultMaxRequestDuration := 0 |}.

(** [schema.State], as returned by [Manager.CurrentState]. *)
Record State : Type := {
  InitializationStarted : bool;
  Dirty : bool;
  BinarySchemaVersion : Z;
  DatabaseSchemaVersion : Z
}.

(** [hclog.Level], the levels the reload path can select. *)
Inductive Level : Type := Trace | Debug | Info | Warn | Error.

(** ** Events: what the command does to the outside *)

Inductive Event : Type :=
  | UI_Error (msg : string)
  | UI_Warn (msg : string)
  | UI_Output (msg : string)
  | Logger_Error (msg : string) (args : list string)
  | Logger_Info (msg : string) (args : list string)
  | Logger_SetLevel (l : Level)
  | CancelFn
  | flags_Parse
  | GetWrapperFromPath (path : string)
  | wrapper_Init
  | configWrapper_Finalize
  | config_LoadFile (path : string)
  | SetupLogging
  | StartMemProfiler
  | SetupMetrics
  | SetupKMSes
  | SetupListeners
  | SetupWorkerPublicAddress
  | SetupControllerPublicClusterAddress
  | StorePidFile (path : string)
  | config_ParseAddress (url : string)
  | ConnectToDatabase (dialect : string)
  | schema_NewManager (dialect : string)
  | SharedLock
  | CurrentState
  | go_ensureManagerConnection
  | kms_NewRepository
  | ListRootKeys
  | RunShutdownFuncs
  | PrintInfo
  | ReleaseLogGate
  | controller_New
  | controller_Start
  | controller_Shutdown (nilReceiver : bool) (waitForWorker : bool)
  | worker_New
  | worker_Start
  | worker_Shutdown (nilReceiver : bool) (drain : bool)
  | relFunc (key : string) (index : nat)
  | ReloadedCh_send
  | runtime_Stack
  | Ping
  | ticker_Reset.

(** [config.LoadFile]: an error, a nil config, or a config. *)
Inductive LoadResult : Type :=
  | LoadErr (msg : string)
  | LoadNil
  | LoadOk (cfg : ConfigT).

(** [config.ParseAddress]: the sentinel [config.ErrNotAUrl] is compared
    by identity in [Run], so it is a case of its own. *)
Inductive ParseAddressResult : Type :=
  | AddressOk (url : string)
  | AddressNotAUrl (url : string)
  | AddressErr (url : string) (msg : string).

(** A method called through a nil pointer either dereferences it, and
    panics, or returns. *)
Inductive NilCall : Type :=
  | NilPanics
  | NilReturns (e : error).

(** What the dispatch loop's [select] picks, with what a reload reads. *)
Inductive Signal : Type :=
  | ContextDone
  | Sighup (reloaded : LoadResult)
  | SigUSR2 (stack : string).

Record Flags : Type := {
  flagConfig : string;
  flagConfigKms : string;
  flagLogLevel : string;
  flagLogFormat : string;
  flagCombineLogs : bool
}.

(** The environment of one run: the answer of each collaborator. *)
Record Env : Type := {
  (** the error a collaborator answers a call with *)
  answers : Event -> error;
  parsedFlags : Flags;
  (** [wrapper.GetWrapperFromPath]: whether the wrapper is non-nil, and the error *)
  wrapperFromPath : bool * error;
  loadFile : LoadResult;
  RootKms_found : bool;
  WorkerAuthKms_found : bool;
  mlock_Supported : bool;
  parseAddress : ParseAddressResult;
  currentState : State * error;
  (** [kmsRepo.ListRootKeys]: the scope id of each root key, and the error *)
  listRootKeys : list string * error;
  controller_Shutdown_nil : NilCall;
  worker_Shutdown_nil : NilCall;
  (** the text of the aggregated [multierror.Error] *)
  multierror_Error : list string -> string;
  (** [base.WrapAtLength] *)
  WrapAtLength : string -> string;
  (** [strings.TrimSpace] and [strings.ToLower] of Go's standard library,
      on any text *)
  strings_TrimSpace : string -> string;
  strings_ToLower : string -> string;
  (** the choices of [select] in [WaitForInterrupt], in order *)
  signals : list Signal
}.

(** What one iteration of the schema manager's liveness loop meets: the
    answers of [Ping], of [c.Context.Err()], of the recovery's
    [schema.NewManager] and [SharedLock], and whether the [select] at the
    end of the iteration receives from [c.Context.Done()] rather than from
    the ticker. *)
Record Tick : Type := {
  Ping_err : error;
  Context_Err : error;
  NewManager_err : error;
  SharedLock_err : error;
  select_Done : bool
}.

(** A registered reload function: nil, or a function with the error it
    returns. *)
Definition RelFunc := option error.

Inductive ShutdownFunc : Type := SharedUnlockFunc.

Inductive Deferred : Type :=
  | defer_CancelFn
  | defer_Finalize
  | defer_RunShutdownFuncs.

(** ** The receiver, [c *Command] (with the embedded [*base.Server]) *)
Record Command : Type := {
  Config : ConfigT;
  flags : Flags;
  CombineLogs : bool;
  configWrapper : bool;         (* non-nil? *)
  controller : bool;            (* c.controller non-nil? *)
  worker : bool;                (* c.worker non-nil? *)
  SchemaManager : bool;         (* c.SchemaManager non-nil? *)
  ShutdownFuncs : list ShutdownFunc;
  InfoKeys : list string;
  InfoMap : list (string * string);
  DatabaseUrl : string;
  LoggerLevel : option Level;
  ReloadFuncs : list (string * list RelFunc);
  globals_DefaultMaxRequestDuration : Z;
  deferred : list Deferred
}.

Definition initialCommand : Command :=
  {| Config := emptyConfig;
     flags := {| flagConfig := ""; flagConfigKms := ""; flagLogLevel := "";
                 flagLogFormat := ""; flagCombineLogs := false |};
     CombineLogs := false; configWrapper := false; controller := false;
     worker := false; SchemaManager := false; ShutdownFuncs := [];
     InfoKeys := []; InfoMap := []; DatabaseUrl := ""; LoggerLevel := None;
     ReloadFuncs := []; globals_DefaultMaxRequestDuration := 0;
     deferred := [] |}.

Definition set_Config (cfg : ConfigT) (c : Command) : Command :=
  {| Config := cfg; flags := flags c; CombineLogs := CombineLogs c;
     configWrapper := configWrapper c; controller := controller c;
     worker := worker c; SchemaManager := SchemaManager c;
     ShutdownFuncs := ShutdownFuncs c; InfoKeys := InfoKeys c;
     InfoMap := InfoMap c; DatabaseUrl := DatabaseUrl c;
     LoggerLevel := LoggerLevel c; ReloadFuncs := ReloadFuncs c;
     globals_DefaultMaxRequestDuration := globals_DefaultMaxRequestDuration c;
     deferred := deferred c |}.

Definition set_flags (f : Flags) (c : Command) : Command :=
  {| Config := Config c; flags := f; CombineLogs := CombineLogs c;
     configWrapper := configWrapper c; controller := controller c;
     worker := worker c; SchemaManager := SchemaManager c;
     ShutdownFuncs := ShutdownFuncs c; InfoKeys := InfoKeys c;
     InfoMap := InfoMap c; DatabaseUrl := DatabaseUrl c;
     LoggerLevel := LoggerLevel c; ReloadFuncs := ReloadFuncs c;
     globals_DefaultMaxRequestDuration := globals_DefaultMaxRequestDuration c;
     deferred := deferred c |}.

Definition set_CombineLogs (b : bool) (c : Command) : Command :=
  {| Config := Config c; flags := flags c; CombineLogs := b;
     configWrapper := configWrapper c; controller := controller c;
     worker := worker c; SchemaManager := SchemaManager c;
     ShutdownFuncs := ShutdownFuncs c; InfoKeys := InfoKeys c;
     InfoMap := InfoMap c; DatabaseUrl := DatabaseUrl c;
     LoggerLevel := LoggerLevel c; ReloadFuncs := ReloadFuncs c;
     globals_DefaultMaxRequestDuration := globals_DefaultMaxRequestDuration c;
     deferred := deferred c |}.

Definition set_configWrapper (b : bool) (c : Command) : Command :=
  {| Config := Config c; flags := flags c; CombineLogs := CombineLogs c;
     configWrapper := b; controller := controller c;
     worker := worker c; SchemaManager := SchemaManager c;
     ShutdownFuncs := ShutdownFuncs c; InfoKeys := InfoKeys c;
     InfoMap := InfoMap c; DatabaseUrl := DatabaseUrl c;
     LoggerLevel := LoggerLevel c; ReloadFuncs := ReloadFuncs c;
     globals_DefaultMaxRequestDuration := globals_DefaultMaxRequestDuration c;
     deferred := deferred c |}.

Definition set_controller (b : bool) (c : Command) : Command :=
  {| Config := Config c; flags := flags c; CombineLogs := CombineLogs c;
     configWrapper := configWrapper c; controller := b;
     worker := worker c; SchemaManager := SchemaManager c;
     ShutdownFuncs := ShutdownFuncs c; InfoKeys := InfoKeys c;
     InfoMap := InfoMap c; DatabaseUrl := DatabaseUrl c;
     LoggerLevel := LoggerLevel c; ReloadFuncs := ReloadFuncs c;
     globals_DefaultMaxRequestDuration := globals_DefaultMaxRequestDuration c;
     deferred := deferred c |}.

Definition set_worker (b : bool) (c : Command) : Command :=
  {| Config := Config c; flags := flags c; CombineLogs := CombineLogs c;
     configWrapper := configWrapper c; controller := controller c;
     worker := b; SchemaManager := SchemaManager c;
     ShutdownFuncs := ShutdownFuncs c; InfoKeys := InfoKeys c;
     InfoMap := InfoMap c; DatabaseUrl := DatabaseUrl c;
     LoggerLevel := LoggerLevel c; ReloadFuncs := ReloadFuncs c;
     globals_DefaultMaxRequestDuration := globals_DefaultMaxRequestDuration c;
     deferred := deferred c |}.

Definition set_SchemaManager (b : bool) (c : Command) : Command :=
  {| Config := Config c; flags := flags c; CombineLogs := CombineLogs c;
     configWrapper := configWrapper c; controller := controller c;
     worker := worker c; SchemaManager := b;
     ShutdownFuncs := ShutdownFuncs c; InfoKeys := InfoKeys c;
     InfoMap := InfoMap c; DatabaseUrl := DatabaseUrl c;
     LoggerLevel := LoggerLevel c; ReloadFuncs := ReloadFuncs c;
     globals_DefaultMaxRequestDuration := globals_DefaultMaxRequestDuration c;
     deferred := deferred c |}.

Definition set_ShutdownFuncs (l : list ShutdownFunc) (c : Command) : Command :=
  {| Config := Config c; flags := flags c; CombineLogs := CombineLogs c;
     configWrapper := configWrapper c; controller := controller c;
     worker := worker c; SchemaManager := SchemaManager c;
     ShutdownFuncs := l; InfoKeys := InfoKeys c;
     InfoMap := InfoMap c; DatabaseUrl := DatabaseUrl c;
     LoggerLevel := LoggerLevel c; ReloadFuncs := ReloadFuncs c;
     globals_DefaultMaxRequestDuration := globals_DefaultMaxRequestDuration c;
     deferred := deferred c |}.

(** [c.InfoKeys = append(c.InfoKeys, k); c.Info[k] = v] *)
Definition add_Info (k v : string) (c : Command) : Command :=
  {| Config := Config c; flags := flags c; CombineLogs := CombineLogs c;
     configWrapper := configWrapper c; controller := controller c;
     worker := worker c; SchemaManager := SchemaManager c;
     ShutdownFuncs := ShutdownFuncs c; InfoKeys := (InfoKeys c ++ [k])%list;
     InfoMap := (k, v) :: InfoMap c; DatabaseUrl := DatabaseUrl c;
     LoggerLevel := LoggerLevel c; ReloadFuncs := ReloadFuncs c;
     globals_DefaultMaxRequestDuration := globals_DefaultMaxRequestDuration c;
     deferred := deferred c |}.

Definition set_DatabaseUrl (u : string) (c : Command) : Command :=
  {| Config := Config c; flags := flags c; CombineLogs := CombineLogs c;
     configWrapper := configWrapper c; controller := controller c;
     worker := worker c; SchemaManager := SchemaManager c;
     ShutdownFuncs := ShutdownFuncs c; InfoKeys := InfoKeys c;
     InfoMap := InfoMap c; DatabaseUrl := u;
     LoggerLevel := LoggerLevel c; ReloadFuncs := ReloadFuncs c;
     globals_DefaultMaxRequestDuration := globals_DefaultMaxRequestDuration c;
     deferred := deferred c |}.

Definition set_LoggerLevel (l : Level) (c : Command) : Command :=
  {| Config := Config c; flags := flags c; CombineLogs := CombineLogs c;
     configWrapper := configWrapper c; controller := controller c;
     worker := worker c; SchemaManager := SchemaManager c;
     ShutdownFuncs := ShutdownFuncs c; InfoKeys := InfoKeys c;
     InfoMap := InfoMap c; DatabaseUrl := DatabaseUrl c;
     LoggerLevel := Some l; ReloadFuncs := ReloadFuncs c;
     globals_DefaultMaxRequestDuration := globals_DefaultMaxRequestDuration c;
     deferred := deferred c |}.

Definition set_globals_DefaultMaxRequestDuration (d : Z) (c : Command) : Command :=
  {| Config := Config c; flags := flags c; CombineLogs := CombineLogs c;
     configWrapper := configWrapper c; controller := controller c;
     worker := worker c; SchemaManager := SchemaManager c;
     ShutdownFuncs := ShutdownFuncs c; InfoKeys := InfoKeys c;
     InfoMap := InfoMap c; DatabaseUrl := DatabaseUrl c;
     LoggerLevel := LoggerLevel c; ReloadFuncs := ReloadFuncs c;
     globals_DefaultMaxRequestDuration := d;
     deferred := deferred c |}.

Definition push_deferred (d : Deferred) (c : Command) : Command :=
  {| Config := Config c; flags := flags c; CombineLogs := CombineLogs c;
     configWrapper := configWrapper c; controller := controller c;
     worker := worker c; SchemaManager := SchemaManager c;
     ShutdownFuncs := ShutdownFuncs c; InfoKeys := InfoKeys c;
     InfoMap := InfoMap c; DatabaseUrl := DatabaseUrl c;
     LoggerLevel := LoggerLevel c; ReloadFuncs := ReloadFuncs c;
     globals_DefaultMaxRequestDuration := globals_DefaultMaxRequestDuration c;
     deferred := d :: deferred c |}.

(** ** The monad of function bodies

    A body runs on the receiver and yields the events it caused, the
    receiver it leaves, and how control goes on: to the next statement with
    a value, out of the function by [return], into a panic, or nowhere
    (blocked in a [select] with nothing left to receive). *)
Inductive Flow (R A : Type) : Type :=
  | Next (a : A)
  | Return (r : R)
  | Panic
  | Blocked.

Arguments Next {R A} a.
Arguments Return {R A} r.
Arguments Panic {R A}.
Arguments Blocked {R A}.

Definition Prog (R A : Type) : Type :=
  Command -> list Event * Command * Flow R A.

Definition ret {R A : Type} (a : A) : Prog R A :=
  fun c => ([], c, Next a).

Definition bind {R A B : Type} (m : Prog R A) (k : A -> Prog R B) : Prog R B :=
  fun c =>
    match m c with
    | (t, c1, Next a) => let '(t2, c2, f) := k a c1 in ((t ++ t2)%list, c2, f)
    | (t, c1, Return r) => (t, c1, Return r)
    | (t, c1, Panic) => (t, c1, Panic)
    | (t, c1, Blocked) => (t, c1, Blocked)
    end.

Declare Scope prog_scope.
Delimit Scope prog_scope with prog.
Notation "x <- m ;; k" := (bind m (fun x => k))
  (at level 100, m at next level, right associativity) : prog_scope.
Notation "m ;; k" := (bind m (fun _ => k))
  (at level 100, right associativity) : prog_scope.
Open Scope prog_scope.

Definition emit {R : Type} (e : Event) : Prog R unit :=
  fun c => ([e], c, Next tt).

Definition get {R : Type} : Prog R Command :=
  fun c => ([], c, Next c).

Definition modify {R : Type} (f : Command -> Command) : Prog R unit :=
  fun c => ([], f c, Next tt).

(** [return r] *)
Definition return_ {R A : Type} (r : R) : Prog R A :=
  fun c => ([], c, Return r).

Definition panic {R A : Type} : Prog R A :=
  fun c => ([], c, Panic).

Definition blocked {R A : Type} : Prog R A :=
  fun c => ([], c, Blocked).

(** [defer f()] *)
Definition defer {R : Type} (d : Deferred) : Prog R unit :=
  modify (push_deferred d).

(** A call [r := f()]: the callee's [return r], or the value its body ends
    with, is the value of the call. *)
Definition call {R R' : Type} (body : Prog R R) : Prog R' R :=
  fun c =>
    match body c with
    | (t, c1, Next r) => (t, c1, Next r)
    | (t, c1, Return r) => (t, c1, Next r)
    | (t, c1, Panic) => (t, c1, Panic)
    | (t, c1, Blocked) => (t, c1, Blocked)
    end.

Definition isNil {A : Type} (o : option A) : bool :=
  match o with
  | None => true
  | Some _ => false
  end.

(** ** The command *)

Section Server.

Context {net : NetLib}.
Variable env : Env.

(** A call to a collaborator that answers with an error. *)
Definition ask {R : Type} (e : Event) : Prog R error :=
  emit e ;; ret (answers env e).

(** [if err != nil { c.UI.Error(msg); return 1 }] *)
Definition failWith1 (err : error) (msg : string -> string) : Prog Z unit :=
  match err with
  | Some m => emit (UI_Error (msg m)) ;; return_ 1
  | None => ret tt
  end.

(** [c.UI.Error(msg); return 1] *)
Definition fail1 {A : Type} (msg : string) : Prog Z A :=
  emit (UI_Error msg) ;; return_ 1.

Definition same (m : string) : string := m.

(** [c.Config.Worker], dereferenced: a nil block panics. *)
Definition Config_Worker {R : Type} : Prog R WorkerBlock :=
  c <- get ;;
  match Worker (Config c) with
  | Some w => ret w
  | None => panic
  end.

(** [c.Config.Controller], dereferenced. *)
Definition Config_Controller {R : Type} : Prog R ControllerBlock :=
  c <- get ;;
  match Controller (Config c) with
  | Some k => ret k
  | None => panic
  end.

(** [c.controller.Shutdown(waitForWorker)] *)
Definition c_controller_Shutdown {R : Type} (waitForWorker : bool) : Prog R error :=
  c <- get ;;
  if controller c then ask (controller_Shutdown false waitForWorker)
  else
    emit (controller_Shutdown true waitForWorker) ;;
    match controller_Shutdown_nil env with
    | NilPanics => panic
    | NilReturns e => ret e
    end.

(** [c.worker.Shutdown(drain)] *)
Definition c_worker_Shutdown {R : Type} (drain : bool) : Prog R error :=
  c <- get ;;
  if worker c then ask (worker_Shutdown false drain)
  else
    emit (worker_Shutdown true drain) ;;
    match worker_Shutdown_nil env with
    | NilPanics => panic
    | NilReturns e => ret e
    end.

(** *** [ParseFlagsAndConfig] *)
Definition ParseFlagsAndConfig : Prog Z Z :=
  err <- ask flags_Parse ;;
  modify (set_flags (parsedFlags env)) ;;
  failWith1 err same ;;
  c <- get ;;
  let wrapperPath :=
    if flagConfigKms (flags c) =? "" then flagConfig (flags c)
    else flagConfigKms (flags c) in
  emit (GetWrapperFromPath wrapperPath) ;;
  let '(wrapper, err) := wrapperFromPath env in
  failWith1 err same ;;
  (if wrapper then
     modify (set_configWrapper true) ;;
     err <- ask wrapper_Init ;;
     failWith1 err (fun m => "Could not initialize kms: " ++ m)
   else ret tt) ;;
  (if (String.length (flagConfig (flags c)) =? 0)%nat
   then fail1 "Must specify a config file using -config"
   else ret tt) ;;
  emit (config_LoadFile (flagConfig (flags c))) ;;
  match loadFile env with
  | LoadErr m => fail1 ("Error parsing config: " ++ m)
  | LoadNil => panic
  | LoadOk cfg =>
      modify (set_Config cfg) ;;
      if isNil (Controller cfg) && isNil (Worker cfg) then
        fail1 "Neither worker nor controller specified in configuration file."
      else if match Controller cfg with
              | Some k => Controller_Name k =? ""
              | None => false
              end then
        fail1 "Controller has no name set. It must be the unique name of this instance."
      else if match Worker cfg with
              | Some w => Worker_Name w =? ""
              | None => false
              end then
        fail1 "Worker has no name set. It must be the unique name of this instance."
      else ret 0
  end.

(** *** [Run], start-up and KMS (up to the mlock warning) *)
Definition Run_setup : Prog Z unit :=
  defer defer_CancelFn ;;
  c <- get ;;
  modify (set_CombineLogs (flagCombineLogs (flags c))) ;;
  result <- call ParseFlagsAndConfig ;;
  (if (result >? 0)%Z then return_ result else ret tt) ;;
  c <- get ;;
  (if configWrapper c then defer defer_Finalize else ret tt) ;;
  err <- ask SetupLogging ;;
  failWith1 err same ;;
  emit StartMemProfiler ;;
  err <- ask SetupMetrics ;;
  failWith1 err same ;;
  err <- ask SetupKMSes ;;
  failWith1 err same ;;
  (if negb (isNil (Controller (Config c))) && negb (RootKms_found env)
   then fail1 "Root KMS not found after parsing KMS blocks"
   else ret tt) ;;
  (if negb (WorkerAuthKms_found env)
   then fail1 "Worker Auth KMS not found after parsing KMS blocks"
   else ret tt) ;;
  (if negb (DefaultMaxRequestDuration (Config c) =? 0)%Z
   then modify (set_globals_DefaultMaxRequestDuration
                  (DefaultMaxRequestDuration (Config c)))
   else ret tt) ;;
  (if negb (DisableMlock (Config c)) && negb (mlock_Supported env)
   then emit (UI_Warn
                (WrapAtLength env
                   ("WARNING! mlock is not supported on this system! An mlockall(2)-like "
                    ++ "syscall to prevent memory from being swapped to disk is not "
                    ++ "supported on this system. For better security, only run Boundary on "
                    ++ "systems where this call is supported. If you are running Boundary"
                    ++ "in a Docker container, provide the IPC_LOCK cap to the container.")))
   else ret tt).

(** *** [Run], the loop over [c.Config.Listeners]

    The loop's variables [clusterAddr], [foundApi] and [foundProxy] are
    the accumulator. *)
Fixpoint Run_listeners (lns : list Listener)
    (clusterAddr : string) (foundApi foundProxy : bool)
    : Prog Z (string * bool * bool) :=
  match lns with
  | [] => ret (clusterAddr, foundApi, foundProxy)
  | lnConfig :: rest =>
      match Purpose lnConfig with
      | [] => fail1 "Listener specified without a purpose"
      | [purpose] =>
          if purpose =? "cluster" then
            let clusterAddr := Address lnConfig in
            let clusterAddr :=
              if clusterAddr =? "" then "127.0.0.1:9201" else clusterAddr in
            Run_listeners rest clusterAddr foundApi foundProxy
          else if purpose =? "api" then
            Run_listeners rest clusterAddr true foundProxy
          else if purpose =? "proxy" then
            Run_listeners rest clusterAddr foundApi true
          else
            fail1 ("Unknown listener purpose " ++ Sprintf_q purpose)
      | _ =>
          fail1 "Specifying a listener with more than one purpose is not supported"
      end
  end.

(** [if c.Config.Controller != nil { ... }] after the loop. *)
Definition Run_controllerListeners (clusterAddr : string) (foundApi : bool)
    : Prog Z unit :=
  c <- get ;;
  if negb (isNil (Controller (Config c))) then
    (if negb foundApi then
       fail1 ("Config activates controller but no listener with "
                ++ Sprintf_q "api" ++ " purpose found")
     else ret tt) ;;
    (if clusterAddr =? "" then
       fail1 ("Config activates controller but no listener with "
                ++ Sprintf_q "cluster" ++ " purpose found")
     else ret tt)
  else ret tt.

Definition combinedMsg : string :=
  "When running a combined controller and worker, it's invalid to specify a "
    ++ Sprintf_q "controllers"
    ++ " key in the worker block with any value other than the controller cluster address/port when using IPs rather than DNS names".

(** [switch len(c.Config.Worker.Controllers)], in a combined config. *)
Definition Run_combined (clusterAddr : string) : Prog Z unit :=
  w <- Config_Worker ;;
  k <- Config_Controller ;;
  match Controllers w with
  | [] =>
      let clusterAddr :=
        if negb (PublicClusterAddr k =? "") then PublicClusterAddr k
        else clusterAddr in
      modify (fun c =>
                set_Config (set_Worker (Config c)
                              (Some (set_Controllers w [clusterAddr]))) c)
  | [controllers0] =>
      if controllers0 =? clusterAddr then ret tt
      else if negb (PublicClusterAddr k =? "")
              && (controllers0 =? PublicClusterAddr k) then ret tt
      else
        (* Best effort see if it's a domain name and if not assume it
           must match *)
        let '(host, _, err) := SplitHostPort controllers0 in
        let '(host, err) :=
          match err with
          | Some m =>
              if strings.Contains m "missing port in address"
              then (controllers0, None) else (host, err)
          | None => (host, err)
          end in
        match err with
        | None =>
            match ParseIP host with
            | None => ret tt          (* Assume it's a domain name *)
            | Some _ => fail1 combinedMsg
            end
        | Some _ => fail1 combinedMsg
        end
  | _ => fail1 combinedMsg
  end.

(** [for _, controller := range c.Config.Worker.Controllers] *)
Fixpoint Run_controllers (l : list string) : Prog Z unit :=
  match l with
  | [] => ret tt
  | controller :: rest =>
      let '(host, _, err) := SplitHostPort controller in
      host <- match err with
              | Some m =>
                  if strings.Contains m "missing port in address"
                  then ret controller
                  else fail1 ("Invalid controller address "
                                ++ Sprintf_q controller ++ ": " ++ m)
              | None => ret host
              end ;;
      match ParseIP host with
      | Some ip =>
          let errMsg :=
            if IsUnspecified ip then "an unspecified"
            else if IsMulticast ip then "a multicast"
            else "" in
          if negb (errMsg =? "") then
            fail1 ("Controller address " ++ Sprintf_q controller
                     ++ " is invalid: cannot be " ++ errMsg ++ " address")
          else ret tt
      | None => ret tt
      end ;;
      Run_controllers rest
  end.

(** [if c.Config.Worker != nil { ... }] after the listener loop. *)
Definition Run_worker (clusterAddr : string) (foundProxy : bool) : Prog Z unit :=
  c <- get ;;
  if negb (isNil (Worker (Config c))) then
    (if negb foundProxy then
       fail1 ("Config activates worker but no listener with "
                ++ Sprintf_q "proxy" ++ " purpose found")
     else ret tt) ;;
    (if negb (isNil (Controller (Config c))) then Run_combined clusterAddr
     else ret tt) ;;
    w <- Config_Worker ;;
    Run_controllers (Controllers w)
  else ret tt.

(** The listener and upstream validation of [Run], before any listener
    is set up. *)
Definition Run_validate : Prog Z unit :=
  c <- get ;;
  r <- Run_listeners (Listeners (Config c)) "" false false ;;
  let '(clusterAddr, foundApi, foundProxy) := r in
  Run_controllerListeners clusterAddr foundApi ;;
  Run_worker clusterAddr foundProxy.

(** *** [Run], listeners set up and public addresses *)

(** [for _, purpose := range ln.Purpose] inside the loop over the
    listeners of a controller. *)
Fixpoint Run_clusterPurposes (k : ControllerBlock) (ln : Listener)
    (purposes : list string) : Prog Z unit :=
  match purposes with
  | [] => ret tt
  | purpose :: rest =>
      (if negb (purpose =? "cluster") then ret tt     (* continue *)
       else
         let '(host, _, err) := SplitHostPort (Address ln) in
         host <- match err with
                 | Some m =>
                     if strings.Contains m "missing port in address"
                     then ret (Address ln)
                     else fail1 ("Invalid cluster listener address "
                                   ++ Sprintf_q (Address ln) ++ ": " ++ m)
                 | None => ret host
                 end ;;
         match ParseIP host with
         | Some ip =>
             if IsUnspecified ip && (PublicClusterAddr k =? "") then
               fail1 ("When " ++ Sprintf_q "cluster"
                        ++ " listener has an unspecified address, "
                        ++ Sprintf_q "public_cluster_addr" ++ " must be set")
             else ret tt
         | None => ret tt
         end) ;;
      Run_clusterPurposes k ln rest
  end.

Fixpoint Run_clusterListeners (k : ControllerBlock) (lns : list Listener)
    : Prog Z unit :=
  match lns with
  | [] => ret tt
  | ln :: rest =>
      Run_clusterPurposes k ln (Purpose ln) ;;
      Run_clusterListeners k rest
  end.

Definition Run_bind : Prog Z unit :=
  err <- ask SetupListeners ;;
  failWith1 err same ;;
  c <- get ;;
  match Worker (Config c) with
  | Some w =>
      err <- ask SetupWorkerPublicAddress ;;
      failWith1 err same ;;
      modify (add_Info "public proxy addr" (PublicAddr w))
  | None => ret tt
  end ;;
  match Controller (Config c) with
  | Some k =>
      Run_clusterListeners k (Listeners (Config c)) ;;
      err <- ask SetupControllerPublicClusterAddress ;;
      failWith1 err same ;;
      modify (add_Info "public cluster addr" (PublicClusterAddr k))
  | None => ret tt
  end.

(** *** [Run], the PID file *)
Definition Run_pid : Prog Z unit :=
  (* Write out the PID to the file now that server has successfully
     started *)
  c <- get ;;
  err <- ask (StorePidFile (PidFile (Config c))) ;;
  failWith1 err (fun m => "Error storing PID: " ++ m).

(** *** [connectSchemaManager] *)
Definition connectSchemaManager (dialect : string) : Prog error error :=
  err <- ask (schema_NewManager dialect) ;;
  match err with
  | Some m => return_ (Some ("Can't get schema manager: " ++ m ++ "."))
  | None => ret tt
  end ;;
  modify (set_SchemaManager true) ;;
  (* This is an advisory locks on the DB which is released when the db
     session ends. *)
  err <- ask SharedLock ;;
  match err with
  | Some m =>
      return_ (Some ("Unable to gain shared access to the database: " ++ m))
  | None => ret tt
  end ;;
  c <- get ;;
  modify (set_ShutdownFuncs (ShutdownFuncs c ++ [SharedUnlockFunc])%list) ;;
  emit CurrentState ;;
  let '(ckState, err) := currentState env in
  match err with
  | Some m => return_ (Some ("Error checking schema state: " ++ m))
  | None => ret tt
  end ;;
  if negb (InitializationStarted ckState) then
    return_ (Some "The database has not been initialized. Please run 'boundary database init'.")
  else if Dirty ckState then
    return_ (Some "Database is in a bad state. Please revert the database into the last known good state.")
  else if (BinarySchemaVersion ckState >? DatabaseSchemaVersion ckState)%Z then
    return_ (Some "Database schema must be updated to use this version. Run 'boundary database migrate' to update the database.")
  else if (BinarySchemaVersion ckState <? DatabaseSchemaVersion ckState)%Z then
    return_ (Some ("Newer schema version ("
                     ++ Sprintf_d (DatabaseSchemaVersion ckState)
                     ++ ") than this binary expects. Please use a newer version of the boundary binary."))
  else
    emit go_ensureManagerConnection ;;
    ret None.

(** *** [verifyKmsSetup] *)
Definition verifyKmsSetup : Prog error error :=
  err <- ask kms_NewRepository ;;
  match err with
  | Some m => return_ (Some ("error creating kms repository: " ++ m))
  | None => ret tt
  end ;;
  emit ListRootKeys ;;
  let '(rks, err) := listRootKeys env in
  match err with
  | Some m => return_ (Some m)
  | None => ret tt
  end ;;
  if existsb (fun rk => rk =? "global") rks then ret None
  else ret (Some "server.(Command).verifyKmsExists: can't find global scoped root key").

(** *** [Run], the database of a controller *)
Definition Run_database : Prog Z unit :=
  c <- get ;;
  match Controller (Config c) with
  | Some k =>
      url <- match Database k with
             | Some d =>
                 if Url d =? "" then
                   fail1 (Sprintf_q "url" ++ " not specified in "
                            ++ Sprintf_q "controller.database"
                            ++ " config block" ++ dq)
                 else ret (Url d)
             | None =>
                 fail1 (Sprintf_q "url" ++ " not specified in "
                          ++ Sprintf_q "controller.database"
                          ++ " config block" ++ dq)
             end ;;
      emit (config_ParseAddress url) ;;
      match parseAddress env with
      | AddressOk u => modify (set_DatabaseUrl u)
      | AddressNotAUrl u => modify (set_DatabaseUrl u)
      | AddressErr u m =>
          modify (set_DatabaseUrl u) ;;
          fail1 ("Error parsing database url: " ++ m)
      end ;;
      err <- ask (ConnectToDatabase "postgres") ;;
      failWith1 err (fun m => "Error connecting to database: " ++ m) ;;
      err <- call (connectSchemaManager "postgres") ;;
      failWith1 err same ;;
      err <- call verifyKmsSetup ;;
      failWith1 err
        (fun _ => WrapAtLength env
                    "Database is in a bad state. Please revert the database into the last known good state.")
  | None => ret tt
  end.

(** *** [StartController] and [StartWorker] *)
Definition StartController : Prog error error :=
  err <- ask controller_New ;;
  modify (set_controller (isNil err)) ;;
  match err with
  | Some m => return_ (Some ("Error initializing controller: " ++ m))
  | None => ret tt
  end ;;
  err <- ask controller_Start ;;
  match err with
  | Some m =>
      let retErr := "Error starting controller: " ++ m in
      err <- c_controller_Shutdown false ;;
      match err with
      | Some m' =>
          emit (UI_Error retErr) ;;
          return_ (Some ("Error shutting down controller: " ++ m'))
      | None => return_ (Some retErr)
      end
  | None => ret None
  end.

Definition StartWorker : Prog error error :=
  err <- ask worker_New ;;
  modify (set_worker (isNil err)) ;;
  match err with
  | Some m => return_ (Some ("Error initializing worker: " ++ m))
  | None => ret tt
  end ;;
  err <- ask worker_Start ;;
  match err with
  | Some m =>
      let retErr := "Error starting worker: " ++ m in
      err <- c_worker_Shutdown false ;;
      match err with
      | Some m' =>
          emit (UI_Error retErr) ;;
          return_ (Some ("Error shutting down worker: " ++ m'))
      | None => return_ (Some retErr)
      end
  | None => ret None
  end.

(** *** [Reload]

    [c.ReloadFuncs] is a Go map; the association list is the map in the
    order the [range] visits it. *)
Fixpoint Reload_relFuncs (k : string) (i : nat) (relFuncs : list RelFunc)
    (reloadErrors : list string) : Prog error (list string) :=
  match relFuncs with
  | [] => ret reloadErrors
  | None :: rest => Reload_relFuncs k (S i) rest reloadErrors
  | Some err :: rest =>
      emit (relFunc k i) ;;
      match err with
      | Some m =>
          Reload_relFuncs k (S i) rest
            (reloadErrors
               ++ [("error encountered reloading listener: " ++ m)%string])%list
      | None => Reload_relFuncs k (S i) rest reloadErrors
      end
  end.

Fixpoint Reload_range (m : list (string * list RelFunc))
    (reloadErrors : list string) : Prog error (list string) :=
  match m with
  | [] => ret reloadErrors
  | (k, relFuncs) :: rest =>
      reloadErrors <-
        (if strings.HasPrefix k "listener|"
         then Reload_relFuncs k 0 relFuncs reloadErrors
         else ret reloadErrors) ;;
      Reload_range rest reloadErrors
  end.

(** [reloadErrors.ErrorOrNil()] *)
Definition ErrorOrNil (reloadErrors : list string) : error :=
  match reloadErrors with
  | [] => None
  | _ => Some (multierror_Error env reloadErrors)
  end.

Definition Reload : Prog error error :=
  c <- get ;;
  reloadErrors <- Reload_range (ReloadFuncs c) [] ;;
  (* Send a message that we reloaded. *)
  emit ReloadedCh_send ;;
  ret (ErrorOrNil reloadErrors).

(** *** [WaitForInterrupt] *)

(** The [switch configLogLevel] of the reload path; [None] is its
    [default] case. *)
Definition logLevelOf (configLogLevel : string) : option Level :=
  if configLogLevel =? "trace" then Some Trace
  else if configLogLevel =? "debug" then Some Debug
  else if (configLogLevel =? "notice") || (configLogLevel =? "info")
          || (configLogLevel =? "") then Some Info
  else if (configLogLevel =? "warn") || (configLogLevel =? "warning")
  then Some Warn
  else if (configLogLevel =? "err") || (configLogLevel =? "error")
  then Some Error
  else None.

(** The part of the [SighupCh] case above the label [RUNRELOADFUNCS];
    each [goto RUNRELOADFUNCS] ends it. *)
Definition WaitForInterrupt_logLevel (reloaded : LoadResult) : Prog Z unit :=
  c <- get ;;
  if flagConfig (flags c) =? "" then ret tt
  else
    emit (config_LoadFile (flagConfig (flags c))) ;;
    match reloaded with
    | LoadErr m =>
        emit (Logger_Error "could not reload config"
                ["path"; flagConfig (flags c); "error"; m])
    | LoadNil =>
        (* Ensure at least one config was found. *)
        emit (Logger_Error "no config found at reload time" [])
    | LoadOk newConf =>
        if negb (LogLevel newConf =? "") then
          let configLogLevel :=
            strings_ToLower env (strings_TrimSpace env (LogLevel newConf)) in
          match logLevelOf configLogLevel with
          | Some level =>
              emit (Logger_SetLevel level) ;;
              modify (set_LoggerLevel level)
          | None =>
              emit (Logger_Error "unknown log level found on reload"
                      ["level"; LogLevel newConf])
          end
        else ret tt
    end.

(** [case <-c.SighupCh] *)
Definition WaitForInterrupt_sighup (reloaded : LoadResult) : Prog Z unit :=
  emit (UI_Output "==> Boundary server reload triggered") ;;
  WaitForInterrupt_logLevel reloaded ;;
  err <- call Reload ;;
  match err with
  | Some m =>
      emit (UI_Error ("Error(s) were encountered during server reload: " ++ m))
  | None => ret tt
  end.

(** [case <-c.Context.Done()] *)
Definition WaitForInterrupt_done : Prog Z unit :=
  emit (UI_Output "==> Boundary server shutdown triggered") ;;
  c <- get ;;
  (if negb (isNil (Worker (Config c))) then
     err <- c_worker_Shutdown false ;;
     match err with
     | Some m => emit (UI_Error ("Error shutting down worker: " ++ m))
     | None => ret tt
     end
   else ret tt) ;;
  (if negb (isNil (Controller (Config c))) then
     err <- c_controller_Shutdown (negb (isNil (Worker (Config c)))) ;;
     match err with
     | Some m => emit (UI_Error ("Error shutting down controller: " ++ m))
     | None => ret tt
     end
   else ret tt).

(** [for !shutdownTriggered { select { ... } }] on the choices the
    [select] makes; with none left the loop waits. *)
Fixpoint WaitForInterrupt_loop (sigs : list Signal) : Prog Z unit :=
  match sigs with
  | [] => blocked
  | ContextDone :: _ => WaitForInterrupt_done      (* shutdownTriggered = true *)
  | Sighup reloaded :: rest =>
      WaitForInterrupt_sighup reloaded ;;
      WaitForInterrupt_loop rest
  | SigUSR2 stack :: rest =>
      emit runtime_Stack ;;
      emit (Logger_Info "goroutine trace" ["stack"; stack]) ;;
      WaitForInterrupt_loop rest
  end.

Definition WaitForInterrupt_on (sigs : list Signal) : Prog Z Z :=
  WaitForInterrupt_loop sigs ;;
  ret 0.

Definition WaitForInterrupt : Prog Z Z := WaitForInterrupt_on (signals env).

(** *** [Run], starting the servers *)
Definition Run_start : Prog Z Z :=
  defer defer_RunShutdownFuncs ;;
  emit PrintInfo ;;
  emit ReleaseLogGate ;;
  c <- get ;;
  (if negb (isNil (Controller (Config c))) then
     err <- call StartController ;;
     failWith1 err same
   else ret tt) ;;
  (if negb (isNil (Worker (Config c))) then
     err <- call StartWorker ;;
     match err with
     | Some m =>
         emit (UI_Error m) ;;
         err <- c_controller_Shutdown false ;;
         match err with
         | Some m' => emit (UI_Error ("Error with controller shutdown: " ++ m'))
         | None => ret tt
         end ;;
         return_ 1
     | None => ret tt
     end
   else ret tt) ;;
  call WaitForInterrupt.

(** *** [Run] *)
Definition Run_body : Prog Z Z :=
  Run_setup ;;
  Run_validate ;;
  Run_bind ;;
  Run_pid ;;
  Run_database ;;
  Run_start.

Definition run_deferred (d : Deferred) : Prog Z unit :=
  match d with
  | defer_CancelFn => emit CancelFn
  | defer_Finalize =>
      err <- ask configWrapper_Finalize ;;
      match err with
      | Some m => emit (UI_Warn ("Error finalizing config kms: " ++ m))
      | None => ret tt
      end
  | defer_RunShutdownFuncs =>
      err <- ask RunShutdownFuncs ;;
      match err with
      | Some m => emit (UI_Error ("Error running shutdown tasks: " ++ m))
      | None => ret tt
      end
  end.

Fixpoint run_all_deferred (ds : list Deferred) : Prog Z unit :=
  match ds with
  | [] => ret tt
  | d :: rest => run_deferred d ;; run_all_deferred rest
  end.

(** [Run]: the body, then the deferred calls, last registered first. A
    body that is blocked in the dispatch loop has not returned and runs
    no deferred call. *)
Definition Run : Prog Z Z :=
  fun c =>
    match Run_body c with
    | (t, c1, Blocked) => (t, c1, Blocked)
    | (t, c1, f) =>
        let '(t2, c2, _) := run_all_deferred (deferred c1) c1 in
        ((t ++ t2)%list, c2,
          match f with
          | Next r => Next r
          | Return r => Next r
          | Panic => Panic
          | Blocked => Blocked
          end)
    end.

(** *** [ensureManagerConnection]

    The goroutine started by [connectSchemaManager].  The ticker's
    period is random and plays no part below. *)
Definition lostConnection : string :=
  "The Schema Manager lost connection with the DB and cannot ensure it's integrity.".

Fixpoint ensureManagerConnection (ticks : list Tick) : Prog unit unit :=
  match ticks with
  | [] => blocked
  | k :: rest =>
      (* If the context isn't done but the ping fails, try to recover. *)
      emit Ping ;;
      if negb (isNil (Ping_err k)) && isNil (Context_Err k) then
        emit (schema_NewManager "postgres") ;;
        modify (set_SchemaManager (isNil (NewManager_err k))) ;;
        match NewManager_err k with
        | Some _ =>
            emit (UI_Error lostConnection) ;;
            emit CancelFn ;;
            return_ tt
        | None =>
            emit SharedLock ;;
            match SharedLock_err k with
            | None => ensureManagerConnection rest       (* continue *)
            | Some _ =>
                emit (UI_Error lostConnection) ;;
                emit CancelFn ;;
                return_ tt
            end
        end
      else if select_Done k then
        (* The command is shutting down so stop checking. *)
        return_ tt
      else
        emit ticker_Reset ;;
        ensureManagerConnection rest
  end.

End Server.

(** The trace, the receiver and the flow of a run. *)
Definition trace {R A : Type} (r : list Event * Command * Flow R A) : list Event :=
  fst (fst r).

Definition final {R A : Type} (r : list Event * Command * Flow R A) : Command :=
  snd (fst r).

Definition flow {R A : Type} (r : list Event * Command * Flow R A) : Flow R A :=
  snd r.

(** ** An implementation of the [net] interface for examples

    [SplitHostPort] follows Go's function; [ParseIP] reads IPv4 literals
    in dotted decimal only (four fields, no leading zero), which is all the
    examples below use. *)
Module SampleNet.

Fixpoint IndexByte (s : string) (b : ascii) : option nat :=
  match s with
  | EmptyString => None
  | String a rest =>
      if Ascii.eqb a b then Some O
      else option_map S (IndexByte rest b)
  end.

Fixpoint LastIndexByte (s : string) (b : ascii) : option nat :=
  match s with
  | EmptyString => None
  | String a rest =>
      match LastIndexByte rest b with
      | Some i => Some (S i)
      | None => if Ascii.eqb a b then Some O else None
      end
  end.

(** [s[i:]] *)
Definition from (i : nat) (s : string) : string :=
  String.substring i (String.length s - i) s.

(** [(&AddrError{Err: why, Addr: addr}).Error()] *)
Definition addrErr (addr why : string) : string * string * error :=
  ("", "", Some (if addr =? "" then why else "address " ++ addr ++ ": " ++ why)).

Definition missingPort : string := "missing port in address".
Definition tooManyColons : string := "too many colons in address".

Definition SplitHostPort (hostport : string) : string * string * error :=
  match LastIndexByte hostport ":" with
  | None => addrErr hostport missingPort
  | Some i =>
      let bracketed :=
        match hostport with
        | String "[" _ => true
        | _ => false
        end in
      let checked : (string * nat * nat) + (string * string * error) :=
        if bracketed then
          match IndexByte hostport "]" with
          | None => inr (addrErr hostport "missing ']' in address")
          | Some e =>
              if Nat.eqb (e + 1) (String.length hostport) then
                inr (addrErr hostport missingPort)
              else if Nat.eqb (e + 1) i then
                inl (String.substring 1 (e - 1) hostport, 1%nat, (e + 1)%nat)
              else if match String.get (e + 1) hostport with
                      | Some a => Ascii.eqb a ":"
                      | None => false
                      end then
                inr (addrErr hostport tooManyColons)
              else inr (addrErr hostport missingPort)
          end
        else
          let host := String.substring 0 i hostport in
          match IndexByte host ":" with
          | Some _ => inr (addrErr hostport tooManyColons)
          | None => inl (host, 0%nat, 0%nat)
          end in
      match checked with
      | inr e => e
      | inl (host, j, k) =>
          match IndexByte (from j hostport) "[" with
          | Some _ => addrErr hostport "unexpected '[' in address"
          | None =>
              match IndexByte (from k hostport) "]" with
              | Some _ => addrErr hostport "unexpected ']' in address"
              | None => (host, from (i + 1) hostport, None)
              end
          end
      end
  end.

Fixpoint splitDots (s : string) (cur : string) : list string :=
  match s with
  | EmptyString => [cur]
  | String a rest =>
      if Ascii.eqb a "." then cur :: splitDots rest ""
      else splitDots rest (cur ++ String a "")
  end.

Definition digit (a : ascii) : option nat :=
  let n := nat_of_ascii a in
  if (Nat.leb 48 n && Nat.leb n 57)%bool then Some (n - 48)%nat else None.

Fixpoint decimal (s : string) (acc : nat) : option nat :=
  match s with
  | EmptyString => Some acc
  | String a rest =>
      match digit a with
      | Some d => decimal rest (10 * acc + d)
      | None => None
      end
  end.

Definition field (s : string) : option nat :=
  match s with
  | EmptyString => None
  | String "0" (String _ _) => None
  | _ =>
      if Nat.ltb 3 (String.length s) then None
      else match decimal s 0 with
           | Some n => if Nat.leb n 255 then Some n else None
           | None => None
           end
  end.

Definition ParseIP (s : string) : option (list nat) :=
  match map field (splitDots s "") with
  | [Some a; Some b; Some c; Some d] => Some [a; b; c; d]
  | _ => None
  end.

Definition IsUnspecified (ip : list nat) : bool :=
  forallb (Nat.eqb 0) ip.

Definition IsMulticast (ip : list nat) : bool :=
  match ip with
  | a :: _ => (Nat.leb 224 a && Nat.leb a 239)%bool
  | [] => false
  end.

#[export] Instance net : NetLib :=
  @Build_NetLib (list nat) SplitHostPort ParseIP IsUnspecified IsMulticast.

End SampleNet.

(** [strings.TrimSpace] and [strings.ToLower] on ASCII text, where they
    do what Go's do: the white space is tab, line feed, vertical tab, form
    feed, carriage return and space, and the upper case is A to Z.  The
    examples run on them, on ASCII levels only. *)
Module SampleStrings.

Definition lower (a : ascii) : ascii :=
  let n := nat_of_ascii a in
  if (Nat.leb 65 n && Nat.leb n 90)%bool then ascii_of_nat (n + 32) else a.

Fixpoint ToLower (s : string) : string :=
  match s with
  | EmptyString => EmptyString
  | String a rest => String (lower a) (ToLower rest)
  end.

Definition isSpace (a : ascii) : bool :=
  let n := nat_of_ascii a in
  ((Nat.leb 9 n && Nat.leb n 13) || Nat.eqb n 32)%bool.

Fixpoint TrimLeft (s : string) : string :=
  match s with
  | EmptyString => EmptyString
  | String a rest => if isSpace a then TrimLeft rest else s
  end.

Fixpoint TrimRight (s : string) : string :=
  match s with
  | EmptyString => EmptyString
  | String a rest =>
      match TrimRight rest with
      | EmptyString => if isSpace a then EmptyString else String a EmptyString
      | r => String a r
      end
  end.

Definition TrimSpace (s : string) : string := TrimRight (TrimLeft s).

End SampleStrings.

(** ** Example configurations and environments *)
Module Examples.

Definition listener (purpose address : string) : Listener :=
  {| Address := address; Purpose := [purpose] |}.

Definition controllerBlock (public : string) : ControllerBlock :=
  {| Controller_Name := "c1";
     Database := Some {| Url := "postgresql://boundary@db/boundary" |};
     PublicClusterAddr := public |}.

Definition workerBlock (upstreams : list string) : WorkerBlock :=
  {| Worker_Name := "w1"; Controllers := upstreams; PublicAddr := "" |}.

Definition config (k : option ControllerBlock) (w : option WorkerBlock)
    (lns : list Listener) : ConfigT :=
  {| Controller := k; Worker := w; Listeners := lns;
     LogLevel := "info"; LogFormat := ""; DisableMlock := true;
     PidFile := "/run/boundary.pid"; DefaultMaxRequestDuration := 0 |}.

Definition threeListeners : list Listener :=
  [listener "api" "127.0.0.1:9200";
   listener "cluster" "127.0.0.1:9201";
   listener "proxy" "127.0.0.1:9202"].

(** The combined start-up of the specification's first scenario. *)
Definition combined : ConfigT :=
  config (Some (controllerBlock "")) (Some (workerBlock ["127.0.0.1:9201"]))
         threeListeners.

Definition goodState : State :=
  {| InitializationStarted := true; Dirty := false;
     BinarySchemaVersion := 5; DatabaseSchemaVersion := 5 |}.

(** Every collaborator succeeds; the config file holds [cfg]; the
    dispatch loop receives [sigs]. *)
Definition env (cfg : ConfigT) (sigs : list Signal) : Env :=
  {| answers := fun _ => None;
     parsedFlags := {| flagConfig := "/etc/boundary/server.hcl";
                       flagConfigKms := ""; flagLogLevel := "";
                       flagLogFormat := ""; flagCombineLogs := false |};
     wrapperFromPath := (false, None);
     loadFile := LoadOk cfg;
     RootKms_found := true;
     WorkerAuthKms_found := true;
     mlock_Supported := true;
     parseAddress := AddressOk "postgresql://boundary@db/boundary";
     currentState := (goodState, None);
     listRootKeys := (["global"], None);
     controller_Shutdown_nil := NilPanics;
     worker_Shutdown_nil := NilPanics;
     multierror_Error := fun es => String.concat "; " es;
     WrapAtLength := fun s => s;
     strings_TrimSpace := SampleStrings.TrimSpace;
     strings_ToLower := SampleStrings.ToLower;
     signals := sigs |}.

End Examples.

(** ** A program logic for the monad *)

(** [wp m Q c]: running [m] on [c] yields a trace, a receiver and a flow
    that satisfy [Q]. *)
Definition wp {R A : Type} (m : Prog R A)
    (Q : list Event -> Command -> Flow R A -> Prop) (c : Command) : Prop :=
  Q (trace (m c)) (final (m c)) (flow (m c)).

(** The postcondition of a step of [Run] that neither panics nor blocks:
    every event it causes is of the class [E]; it goes on with a value and
    a receiver that satisfy [P], or it returns the exit code 1. *)
Definition post {A : Type} (E : Event -> bool) (P : A -> Command -> Prop)
    : list Event -> Command -> Flow Z A -> Prop :=
  fun t c f =>
    Forall (fun e => E e = true) t /\
    match f with
    | Next a => P a c
    | Return r => r = 1
    | Panic => False
    | Blocked => False
    end.

(** ** More example configurations *)
Module Inputs.

Import Examples.

(** A controller with two api listeners and two cluster listeners. *)
Definition doubledListeners : ConfigT :=
  config (Some (controllerBlock "")) None
         [listener "api" "127.0.0.1:9200";
          listener "api" "127.0.0.1:9210";
          listener "cluster" "127.0.0.1:9201";
          listener "cluster" "127.0.0.1:9211"].

(** A combined config whose worker names the local cluster address
    twice. *)
Definition twoUpstreams : ConfigT :=
  config (Some (controllerBlock ""))
         (Some (workerBlock ["127.0.0.1:9201"; "127.0.0.1:9201"]))
         threeListeners.

(** The fourth scenario of the specification: a combined config whose
    upstream is another IP than the cluster address. *)
Definition mismatched : ConfigT :=
  config (Some (controllerBlock "")) (Some (workerBlock ["10.0.0.2:9201"]))
         [listener "api" "10.0.0.1:9200";
          listener "cluster" "10.0.0.1:9201";
          listener "proxy" "10.0.0.1:9202"].

(** A combined config whose one upstream is the address of its cluster
    listener, which binds the unspecified address; the public cluster
    address is set. *)
Definition unspecifiedUpstream : ConfigT :=
  config (Some (controllerBlock "10.0.0.1:9201"))
         (Some (workerBlock ["0.0.0.0:9201"]))
         [listener "api" "10.0.0.1:9200";
          listener "cluster" "0.0.0.0:9201";
          listener "proxy" "10.0.0.1:9202"].

(** A listener without a purpose. *)
Definition noPurpose : ConfigT :=
  config (Some (controllerBlock "")) None
         [{| Address := "127.0.0.1:9200"; Purpose := [] |}].

(** A controller whose cluster listener binds the unspecified address
    and that sets no public cluster address. *)
Definition unspecifiedCluster : ConfigT :=
  config (Some (controllerBlock "")) None
         [listener "api" "127.0.0.1:9200";
          listener "cluster" "0.0.0.0:9201"].

(** A worker whose upstream is a multicast address. *)
Definition multicastUpstream : ConfigT :=
  config None (Some (workerBlock ["224.0.0.1:9201"]))
         [listener "proxy" "127.0.0.1:9202"].

(** A worker alone, with a DNS upstream. *)
Definition workerOnly : ConfigT :=
  config None (Some (workerBlock ["boundary.example.com:9201"]))
         [listener "proxy" "127.0.0.1:9202"].

(** The third scenario of the specification: the database is at
    version 3, the binary at version 5. *)
Definition oldDatabase : State :=
  {| InitializationStarted := true; Dirty := false;
     BinarySchemaVersion := 5; DatabaseSchemaVersion := 3 |}.

Definition withState (e : Env) (st : State) : Env :=
  {| answers := answers e; parsedFlags := parsedFlags e;
     wrapperFromPath := wrapperFromPath e; loadFile := loadFile e;
     RootKms_found := RootKms_found e;
     WorkerAuthKms_found := WorkerAuthKms_found e;
     mlock_Supported := mlock_Supported e; parseAddress := parseAddress e;
     currentState := (st, None); listRootKeys := listRootKeys e;
     controller_Shutdown_nil := controller_Shutdown_nil e;
     worker_Shutdown_nil := worker_Shutdown_nil e;
     multierror_Error := multierror_Error e;
     WrapAtLength := WrapAtLength e;
     strings_TrimSpace := strings_TrimSpace e;
     strings_ToLower := strings_ToLower e; signals := signals e |}.

(** The worker fails to start with [msg]; everything else succeeds. *)
Definition workerStartFails (e : Env) (msg : string) (nil : NilCall) : Env :=
  {| answers := fun ev => match ev with
                          | worker_Start => Some msg
                          | _ => answers e ev
                          end;
     parsedFlags := parsedFlags e;
     wrapperFromPath := wrapperFromPath e; loadFile := loadFile e;
     RootKms_found := RootKms_found e;
     WorkerAuthKms_found := WorkerAuthKms_found e;
     mlock_Supported := mlock_Supported e; parseAddress := parseAddress e;
     currentState := currentState e; listRootKeys := listRootKeys e;
     controller_Shutdown_nil := nil;
     worker_Shutdown_nil := worker_Shutdown_nil e;
     multierror_Error := multierror_Error e;
     WrapAtLength := WrapAtLength e;
     strings_TrimSpace := strings_TrimSpace e;
     strings_ToLower := strings_ToLower e; signals := signals e |}.

End Inputs.

(** ** The classes of events of the stages of [Run] *)

(** What [Run] can cause before it sets up the listeners. *)
Definition beforeListeners (e : Event) : bool :=
  match e with
  | UI_Error _ | UI_Warn _ | flags_Parse | GetWrapperFromPath _
  | wrapper_Init | config_LoadFile _ | SetupLogging | StartMemProfiler
  | SetupMetrics | SetupKMSes => true
  | _ => false
  end.

(** What [Run] can cause before it turns to the PID file. *)
Definition beforePid (e : Event) : bool :=
  match e with
  | SetupListeners | SetupWorkerPublicAddress
  | SetupControllerPublicClusterAddress => true
  | _ => beforeListeners e
  end.

(** What [Run] can cause before it turns to the database. *)
Definition beforeDatabase (e : Event) : bool :=
  match e with
  | StorePidFile _ => true
  | _ => beforePid e
  end.

Definition anyEvent (e : Event) : bool := true.

(** What the deferred calls of [Run] can cause. *)
Definition deferredEvent (e : Event) : bool :=
  match e with
  | CancelFn | configWrapper_Finalize | RunShutdownFuncs
  | UI_Warn _ | UI_Error _ => true
  | _ => false
  end.

(** The steps of [Run] on the database of a controller: parsing the URL,
    connecting, attaching the schema manager (shared lock and state), and
    looking for the root key of the global scope. *)
Definition isDatabaseStep (e : Event) : bool :=
  match e with
  | config_ParseAddress _ | ConnectToDatabase _ | schema_NewManager _
  | SharedLock | CurrentState | go_ensureManagerConnection
  | kms_NewRepository | ListRootKeys => true
  | _ => false
  end.

(** ** The conditions of the validation, as predicates on the config *)

(** The listener declares the single purpose [p]. *)
Definition purposeIs (p : string) (ln : Listener) : bool :=
  match Purpose ln with
  | [q] => q =? p
  | _ => false
  end.

(** The listener declares one purpose, and it is a known one. *)
Definition listenerCheck (ln : Listener) : bool :=
  purposeIs "cluster" ln || purposeIs "api" ln || purposeIs "proxy" ln.

Definition hasPurpose (p : string) (lns : list Listener) : bool :=
  existsb (purposeIs p) lns.

(** The number of listeners that declare the purpose [p]. *)
Definition countPurpose (p : string) (lns : list Listener) : nat :=
  List.length (filter (fun ln => existsb (String.eqb p) (Purpose ln)) lns).

(** The address of a cluster listener as [Run] takes it. *)
Definition clusterAddress (ln : Listener) : string :=
  if Address ln =? "" then "127.0.0.1:9201" else Address ln.

(** The local cluster address [Run] computes: the address of the last
    listener of purpose cluster, [start] when there is none. *)
Definition scanCluster (lns : list Listener) (start : string) : string :=
  fold_left (fun acc ln => if purposeIs "cluster" ln then clusterAddress ln else acc)
            lns start.

Definition clusterAddrOf (lns : list Listener) : string := scanCluster lns "".

Section Conditions.

Context {net : NetLib}.

(** The host of [hostport], an optional port stripped, the way [Run]
    does it at each of its three address checks; [None] when
    [net.SplitHostPort] fails otherwise than for a missing port. *)
Definition stripPort (hostport : string) : option string :=
  match SplitHostPort hostport with
  | (host, _, None) => Some host
  | (_, _, Some m) =>
      if strings.Contains m "missing port in address" then Some hostport
      else None
  end.

(** The entry is not an IP literal: its host does not parse as an IP. *)
Definition isDomainName (e : string) : bool :=
  match stripPort e with
  | Some host => isNil (ParseIP host)
  | None => false
  end.

(** One upstream of a combined config is acceptable: it is the local
    cluster address, or the public cluster address when one is set, or a
    DNS name. *)
Definition upstreamOk (k : ControllerBlock) (clusterAddr e : string) : bool :=
  (e =? clusterAddr)
  || (negb (PublicClusterAddr k =? "") && (e =? PublicClusterAddr k))
  || isDomainName e.

(** What the switch of [Run] accepts: no upstream, or one acceptable
    upstream. *)
Definition upstreamsOk (k : ControllerBlock) (clusterAddr : string)
    (l : list string) : bool :=
  match l with
  | [] => true
  | [e] => upstreamOk k clusterAddr e
  | _ => false
  end.

(** The condition as the specification words it, for a list of any
    length: every entry is acceptable. *)
Definition upstreamsClaimed (k : ControllerBlock) (clusterAddr : string)
    (l : list string) : bool :=
  forallb (upstreamOk k clusterAddr) l.

(** The entry passes the check of the loop over the upstreams: its port
    strips, and its host is not an unspecified or multicast IP. *)
Definition upstreamCheck (e : string) : bool :=
  match stripPort e with
  | Some host =>
      match ParseIP host with
      | Some ip => negb (IsUnspecified ip) && negb (IsMulticast ip)
      | None => true
      end
  | None => false
  end.

(** The address of a cluster listener passes the check of a controller
    [k]: its port strips, and its host is not an unspecified IP while
    [public_cluster_addr] is empty. *)
Definition clusterAddrCheck (k : ControllerBlock) (addr : string) : bool :=
  match stripPort addr with
  | Some host =>
      match ParseIP host with
      | Some ip => negb (IsUnspecified ip && (PublicClusterAddr k =? ""))
      | None => true
      end
  | None => false
  end.

Definition clusterListenerCheck (k : ControllerBlock) (ln : Listener) : bool :=
  if existsb (String.eqb "cluster") (Purpose ln)
  then clusterAddrCheck k (Address ln)
  else true.

(** What holds of the loaded config [cfg] and of the receiver once the
    validation of [Run] has passed. *)
Definition validated (cfg : ConfigT) (c : Command) : Prop :=
  Controller (Config c) = Controller cfg /\
  Listeners (Config c) = Listeners cfg /\
  isNil (Worker (Config c)) = isNil (Worker cfg) /\
  forallb listenerCheck (Listeners cfg) = true /\
  (isNil (Controller cfg) = false ->
     hasPurpose "api" (Listeners cfg) = true /\
     hasPurpose "cluster" (Listeners cfg) = true) /\
  (forall w, Worker cfg = Some w ->
     hasPurpose "proxy" (Listeners cfg) = true /\
     forallb upstreamCheck (Controllers w) = true /\
     forall k, Controller cfg = Some k ->
       upstreamsOk k (clusterAddrOf (Listeners cfg)) (Controllers w) = true).

End Conditions.

(** The verdict of [connectSchemaManager] on the schema state, in the
    words of the specification: not initialized, else dirty, else the
    database must be migrated, else the binary is too old; [None] lets the
    start-up go on. *)
Definition schemaCheck (st : State) : error :=
  if negb (InitializationStarted st) then
    Some "The database has not been initialized. Please run 'boundary database init'."
  else if Dirty st then
    Some "Database is in a bad state. Please revert the database into the last known good state."
  else if (BinarySchemaVersion st >? DatabaseSchemaVersion st)%Z then
    Some "Database schema must be updated to use this version. Run 'boundary database migrate' to update the database."
  else if (BinarySchemaVersion st <? DatabaseSchemaVersion st)%Z then
    Some ("Newer schema version (" ++ Sprintf_d (DatabaseSchemaVersion st)
            ++ ") than this binary expects. Please use a newer version of the boundary binary.")
  else None.

(** The stages of [Run_body], for stating what holds between them. *)
Section Stages.

Context {net : NetLib}.
Variable env : Env.

Definition Run_upto_validate : Prog Z unit :=
  Run_setup env ;; Run_validate.

Definition Run_upto_bind : Prog Z unit :=
  Run_upto_validate ;; Run_bind env.

Definition Run_upto_pid : Prog Z unit :=
  Run_upto_bind ;; Run_pid env.

Definition Run_upto_database : Prog Z unit :=
  Run_upto_pid ;; Run_database env.

(** The cluster listeners of a controller passed their check. *)
Definition clusterChecked (cfg : ConfigT) : Prop :=
  forall k, Controller cfg = Some k ->
    forallb (clusterListenerCheck k) (Listeners cfg) = true.

(** The schema manager of a controller, when it attached and read the
    state, found it fit. *)
Definition schemaChecked (cfg : ConfigT) : Prop :=
  isNil (Controller cfg) = false ->
  answers env (schema_NewManager "postgres") = None ->
  answers env SharedLock = None ->
  forall st, currentState env = (st, None) -> schemaCheck st = None.

End Stages.

(** ** The dispatch loop, in terms of what it causes *)

(** [c.UI.Error(prefix + err.Error())] when [err] is not nil. *)
Definition reported (prefix : string) (err : error) : list Event :=
  match err with
  | Some m => [UI_Error (prefix ++ m)]
  | None => []
  end.

Definition isShutdown (e : Event) : bool :=
  match e with
  | worker_Shutdown _ _ | controller_Shutdown _ _ => true
  | _ => false
  end.

(** The receiver keeps its config, its flags, its servers and its reload
    functions. *)
Definition steady (c c' : Command) : Prop :=
  Config c' = Config c /\ flags c' = flags c /\
  worker c' = worker c /\ controller c' = controller c /\
  ReloadFuncs c' = ReloadFuncs c.

(** What the dispatch loop causes when the context is done, for a config
    [cfg]: the banner, the worker's shutdown when a worker is configured,
    then the controller's when a controller is configured. *)
Definition shutdownEvents (env : Env) (cfg : ConfigT) : list Event :=
  ([UI_Output "==> Boundary server shutdown triggered"]
   ++ (if isNil (Worker cfg) then []
       else worker_Shutdown false false
              :: reported "Error shutting down worker: "
                   (answers env (worker_Shutdown false false)))
   ++ (if isNil (Controller cfg) then []
       else
         let waitForWorker := negb (isNil (Worker cfg)) in
         controller_Shutdown false waitForWorker
           :: reported "Error shutting down controller: "
                (answers env (controller_Shutdown false waitForWorker))))%list.

(** The calls a reload makes to the functions registered under one key,
    nil functions skipped, and the errors it collects from them. *)
Fixpoint relFuncCalls (k : string) (i : nat) (relFuncs : list RelFunc)
    : list Event :=
  match relFuncs with
  | [] => []
  | None :: rest => relFuncCalls k (S i) rest
  | Some _ :: rest => relFunc k i :: relFuncCalls k (S i) rest
  end.

Fixpoint relFuncErrors (relFuncs : list RelFunc) : list string :=
  match relFuncs with
  | [] => []
  | Some (Some m) :: rest =>
      ("error encountered reloading listener: " ++ m) :: relFuncErrors rest
  | _ :: rest => relFuncErrors rest
  end.

(** The entries of [c.ReloadFuncs] whose key starts with [listener|]. *)
Definition listenerKeyed (m : list (string * list RelFunc))
    : list (string * list RelFunc) :=
  filter (fun kv => strings.HasPrefix (fst kv) "listener|") m.

Definition reloadCalls (m : list (string * list RelFunc)) : list Event :=
  flat_map (fun kv => relFuncCalls (fst kv) 0 (snd kv)) (listenerKeyed m).

Definition reloadErrors (m : list (string * list RelFunc)) : list string :=
  flat_map (fun kv => relFuncErrors (snd kv)) (listenerKeyed m).


(** ** The liveness loop, in terms of what it meets *)

(** The ping fails while the context is not cancelled. *)
Definition pingFails (k : Tick) : bool :=
  negb (isNil (Ping_err k)) && isNil (Context_Err k).

(** The recovery succeeds: a new manager is built and takes the lock. *)
Definition recovers (k : Tick) : bool :=
  isNil (NewManager_err k) && isNil (SharedLock_err k).

(** The one recovery attempt: a new manager, then, when that succeeded,
    a fresh shared lock. *)
Definition recoveryEvents (k : Tick) : list Event :=
  schema_NewManager "postgres"
    :: (if isNil (NewManager_err k) then [SharedLock] else []).

(** ** What a run has behind it, stage by stage *)

(** The config declares a controller or a worker, and every block it
    declares has a name. *)
Definition configNamed (cfg : ConfigT) : bool :=
  negb (isNil (Controller cfg) && isNil (Worker cfg))
  && match Controller cfg with
     | Some k => negb (Controller_Name k =? "")
     | None => true
     end
  && match Worker cfg with
     | Some w => negb (Worker_Name w =? "")
     | None => true
     end.

(** The flags parsed, the config wrapper was found (and initialised when
    there is one), and a config file is named. *)
Definition flagsParsed (env : Env) : Prop :=
  answers env flags_Parse = None /\
  snd (wrapperFromPath env) = None /\
  (fst (wrapperFromPath env) = true -> answers env wrapper_Init = None) /\
  flagConfig (parsedFlags env) <> "".

(** Logging, metrics and the KMSes are set up, the root KMS is there for a
    controller and the worker-auth KMS for every role. *)
Definition setUp (env : Env) (cfg : ConfigT) : Prop :=
  flagsParsed env /\
  configNamed cfg = true /\
  answers env SetupLogging = None /\
  answers env SetupMetrics = None /\
  answers env SetupKMSes = None /\
  (isNil (Controller cfg) = false -> RootKms_found env = true) /\
  WorkerAuthKms_found env = true.

(** The listeners are bound and the public addresses are set. *)
Definition listenersBound (env : Env) (cfg : ConfigT) : Prop :=
  answers env SetupListeners = None /\
  (isNil (Worker cfg) = false ->
   answers env SetupWorkerPublicAddress = None) /\
  (isNil (Controller cfg) = false ->
   answers env SetupControllerPublicClusterAddress = None).

(** The upstream a combined config without upstreams is given: the public
    cluster address when one is set, else the local cluster address. *)
Definition defaultUpstream (k : ControllerBlock) (clusterAddr : string) : string :=
  if negb (PublicClusterAddr k =? "") then PublicClusterAddr k else clusterAddr.

(** The config [Run] goes on with once the validation has passed: the
    loaded config, but for the upstreams of a combined config that names
    none. *)
Definition validatedConfig (cfg : ConfigT) : ConfigT :=
  match Controller cfg, Worker cfg with
  | Some k, Some w =>
      match Controllers w with
      | [] =>
          set_Worker cfg
            (Some (set_Controllers w
                     [defaultUpstream k (clusterAddrOf (Listeners cfg))]))
      | _ => cfg
      end
  | _, _ => cfg
  end.

(** The upstreams the loop of [Run] over [c.Config.Worker.Controllers]
    checks: those of the worker block, after the switch has given a
    combined config that names none its default. *)
Definition checkedUpstreams (cfg : ConfigT) : list string :=
  match Worker (validatedConfig cfg) with
  | Some w => Controllers w
  | None => []
  end.

Section Acceptance.

Context {net : NetLib}.

(** The validation of [Run] passes on the config [cfg]: every listener
    has one known purpose; a controller has an api and a cluster listener;
    a worker has a proxy listener, upstreams that the switch of a combined
    config accepts, and upstreams that the loop accepts. *)
Definition passesValidation (cfg : ConfigT) : bool :=
  forallb listenerCheck (Listeners cfg)
  && match Controller cfg with
     | Some _ =>
         hasPurpose "api" (Listeners cfg)
         && hasPurpose "cluster" (Listeners cfg)
     | None => true
     end
  && match Worker cfg with
     | Some w =>
         hasPurpose "proxy" (Listeners cfg)
         && match Controller cfg with
            | Some k =>
                upstreamsOk k (clusterAddrOf (Listeners cfg)) (Controllers w)
            | None => true
            end
         && forallb upstreamCheck (checkedUpstreams cfg)
     | None => true
     end.

End Acceptance.

(** The database of the controller [k] is verified: a URL is configured
    and parses, the connection is made, the schema manager is attached
    under the shared lock and finds the schema fit, and a root key of the
    global scope exists. *)
Definition databaseVerified (env : Env) (k : ControllerBlock) : Prop :=
  (exists d, Database k = Some d /\ Url d <> "") /\
  (forall u m, parseAddress env <> AddressErr u m) /\
  answers env (ConnectToDatabase "postgres") = None /\
  answers env (schema_NewManager "postgres") = None /\
  answers env SharedLock = None /\
  (exists st, currentState env = (st, None) /\ schemaCheck st = None) /\
  answers env kms_NewRepository = None /\
  (exists rks, listRootKeys env = (rks, None) /\ In "global" rks).

(** What [Run] can cause before it starts a server. *)
Definition beforeStart (e : Event) : bool :=
  beforeDatabase e || isDatabaseStep e.

(** All that [Run] has behind it when it prints the server information
    and starts the servers. *)
Definition readyToStart (env : Env) (cfg : ConfigT) : Prop :=
  setUp env cfg /\
  listenersBound env cfg /\
  answers env (StorePidFile (PidFile cfg)) = None /\
  (forall k, Controller cfg = Some k -> databaseVerified env k).

(** The receiver with the reload functions [m] registered. *)
Definition set_ReloadFuncs (m : list (string * list RelFunc)) (c : Command)
    : Command :=
  {| Config := Config c; flags := flags c; CombineLogs := CombineLogs c;
     configWrapper := configWrapper c; controller := controller c;
     worker := worker c; SchemaManager := SchemaManager c;
     ShutdownFuncs := ShutdownFuncs c; InfoKeys := InfoKeys c;
     InfoMap := InfoMap c; DatabaseUrl := DatabaseUrl c;
     LoggerLevel := LoggerLevel c; ReloadFuncs := m;
     globals_DefaultMaxRequestDuration := globals_DefaultMaxRequestDuration c;
     deferred := deferred c |}.

(** ** What a body does on every path *)

(** [sound E f m]: however [m] ends, every event it causes is of the class
    [E], and it leaves the part [f] of the receiver as it was. *)
Definition sound {X R A : Type} (E : Event -> bool) (f : Command -> X)
    (m : Prog R A) : Prop :=
  forall c,
    Forall (fun e => E e = true) (trace (m c)) /\ f (final (m c)) = f c.

(** Every event but the two that mark the progress of [Run]: the set-up
    of logging, and the banner printed before the servers start. *)
Definition quiet (e : Event) : bool :=
  match e with
  | SetupLogging | PrintInfo => false
  | _ => true
  end.

(** What the dispatch loop can cause. *)
Definition dispatchEvent (e : Event) : bool :=
  match e with
  | UI_Output _ | UI_Error _ | config_LoadFile _ | Logger_Error _ _
  | Logger_SetLevel _ | Logger_Info _ _ | relFunc _ _ | ReloadedCh_send
  | runtime_Stack | worker_Shutdown _ _ | controller_Shutdown _ _ => true
  | _ => false
  end.

(** The receiver but for the level of its logger. *)
Definition butLoggerLevel (c : Command) : Command :=
  {| Config := Config c; flags := flags c; CombineLogs := CombineLogs c;
     configWrapper := configWrapper c; controller := controller c;
     worker := worker c; SchemaManager := SchemaManager c;
     ShutdownFuncs := ShutdownFuncs c; InfoKeys := InfoKeys c;
     InfoMap := InfoMap c; DatabaseUrl := DatabaseUrl c;
     LoggerLevel := None; ReloadFuncs := ReloadFuncs c;
     globals_DefaultMaxRequestDuration := globals_DefaultMaxRequestDuration c;
     deferred := deferred c |}.

(** [c.UI.Warn(prefix + err.Error())] when [err] is not nil. *)
Definition warned (prefix : string) (err : error) : list Event :=
  match err with
  | Some m => [UI_Warn (prefix ++ m)]
  | None => []
  end.

(** [exits Pr m]: [m] never waits for ever, and when it returns from the
    function, it returns a value that satisfies [Pr]. *)
Definition exits {R A : Type} (Pr : R -> Prop) (m : Prog R A) : Prop :=
  forall c,
    match flow (m c) with
    | Return r => Pr r
    | Blocked => False
    | _ => True
    end.

(** How a run of the server ends, on the choices [sigs] of the dispatch
    loop: it goes on with 0 only when the context is done, after the banner
    of the shutdown; it returns only 1; it waits for ever only when the
    context is never done. *)
Definition runExit (sigs : list Signal)
    (r : list Event * Command * Flow Z Z) : Prop :=
  match flow r with
  | Next v =>
      v = 0 /\ In ContextDone sigs /\
      In (UI_Output "==> Boundary server shutdown triggered") (trace r)
  | Return v => v = 1
  | Panic => True
  | Blocked => ~ In ContextDone sigs
  end.

(** What a deferred call of [Run] causes when it runs. *)
Definition deferredEvents (env : Env) (d : Deferred) : list Event :=
  match d with
  | defer_CancelFn => [CancelFn]
  | defer_Finalize =>
      configWrapper_Finalize
        :: warned "Error finalizing config kms: "
             (answers env configWrapper_Finalize)
  | defer_RunShutdownFuncs =>
      RunShutdownFuncs
        :: reported "Error running shutdown tasks: "
             (answers env RunShutdownFuncs)
  end.

(** The run [r] of a part of [Run] that starts on the receiver [c] after
    the set-up: it does not set up logging again, and it has registered
    the shutdown functions as a deferred call exactly when it has printed
    the banner of the start. *)
Definition registersShutdown (c : Command)
    (r : list Event * Command * Flow Z Z) : Prop :=
  ~ In SetupLogging (trace r) /\
  ((In PrintInfo (trace r) /\
    deferred (final r) = defer_RunShutdownFuncs :: deferred c) \/
   (~ In PrintInfo (trace r) /\ deferred (final r) = deferred c)).

(** [loud m]: when [m] returns from the function, it has reported an
    error on the UI. *)
Definition loud {A : Type} (m : Prog Z A) : Prop :=
  forall c,
    match flow (m c) with
    | Return _ => exists msg, In (UI_Error msg) (trace (m c))
    | _ => True
    end.

(** What a run may cause by the roles of the config [cfg]: the steps on
    the database, the public cluster address and the creation and start of
    the controller need a controller block; the public address and the
    creation and start of the worker need a worker block. *)
Definition roleEvent (cfg : ConfigT) (e : Event) : bool :=
  match e with
  | controller_New | controller_Start
  | SetupControllerPublicClusterAddress => negb (isNil (Controller cfg))
  | worker_New | worker_Start
  | SetupWorkerPublicAddress => negb (isNil (Worker cfg))
  | _ => if isDatabaseStep e then negb (isNil (Controller cfg)) else true
  end.

(** [roleSound cfg m]: on a receiver whose config is [cfg], [m] causes
    only what the roles of [cfg] allow, however it ends, and leaves the
    config as it is. *)
Definition roleSound {R A : Type} (cfg : ConfigT) (m : Prog R A) : Prop :=
  forall c,
    Config c = cfg ->
    Forall (fun e => roleEvent cfg e = true) (trace (m c)) /\
    Config (final (m c)) = cfg.

(** * The health service of the controller ([health.go]) *)
Module health.

(** [http.StatusServiceUnavailable] *)
Definition StatusServiceUnavailable : Z := 503.

(** [type Service struct]; the embedded unimplemented server has no
    state. *)
Record Service : Type := {
  replyWithServiceUnavailable : bool
}.

(** [&pbs.GetHealthResponse{}] *)
Inductive GetHealthResponse : Type := EmptyResponse.

(** [handlers.SetStatusCode(ctx, code)] *)
Inductive Event : Type := SetStatusCode (code : Z).

(** [startServiceUnavailableReplies]: when invoked, every health query
    is answered with a 503. *)
Definition startServiceUnavailableReplies (s : Service) : Service :=
  {| replyWithServiceUnavailable := true |}.

(** [NewService]: the service, and the method value
    [s.startServiceUnavailableReplies], which is bound to the address of
    that same service: the function acts on the one [Service] there
    is. *)
Definition NewService : Service * (Service -> Service) :=
  ({| replyWithServiceUnavailable := false |}, startServiceUnavailableReplies).

(** [GetHealth]; [setStatusCode] is what [handlers.SetStatusCode]
    answers.  The result is what the call caused, the response (nil is
    [None]) and the error. *)
Definition GetHealth (setStatusCode : error) (s : Service)
    : list Event * (option GetHealthResponse * error) :=
  if replyWithServiceUnavailable s then
    match setStatusCode with
    | Some m => ([SetStatusCode StatusServiceUnavailable], (None, Some m))
    | None =>
        ([SetStatusCode StatusServiceUnavailable], (Some EmptyResponse, None))
    end
  else ([], (Some EmptyResponse, None)).

(** What the callers of a service do with it: a health query, with the
    answer of [handlers.SetStatusCode], or a call of the function that
    [NewService] returned. *)
Inductive Call : Type :=
  | Query (setStatusCode : error)
  | StartUnavailable.

(** The calls [calls] on the service [s], one after the other: the
    service in the end, and the result of each query. *)
Fixpoint serve (start : Service -> Service) (calls : list Call) (s : Service)
    : Service * list (list Event * (option GetHealthResponse * error)) :=
  match calls with
  | [] => (s, [])
  | Query setStatusCode :: rest =>
      let '(s', rs) := serve start rest s in
      (s', GetHealth setStatusCode s :: rs)
  | StartUnavailable :: rest => serve start rest (start s)
  end.

End health.

(** * The generated command of the managed groups
      ([managedgroups.gen.go]) *)
Module managedgroupscmd.

(** The exit codes [Run] returns: [cli.RunResultHelp] and the codes of
    the package [base], defined outside this file. *)
Record ExitCodes : Type := {
  RunResultHelp : Z;
  CommandSuccess : Z;
  CommandApiError : Z;
  CommandCliError : Z;
  CommandUserError : Z
}.

(** [managedgroups.Option], as far as [Run] builds them. *)
Inductive Option : Type :=
  | DefaultName
  | WithName (name : string)
  | DefaultDescription
  | WithDescription (description : string)
  | WithFilter (filter : string).

(** An error of an API call: [api.AsServerError] finds an error of the
    server in it, or not. *)
Inductive ApiError : Type :=
  | ServerError (msg : string)
  | OtherError (msg : string).

Definition AsServerError (e : ApiError) : option string :=
  match e with
  | ServerError m => Some m
  | OtherError _ => None
  end.

Definition Error_ (e : ApiError) : string :=
  match e with
  | ServerError m => m
  | OtherError m => m
  end.

Inductive Event : Type :=
  | PrintCliError (msg : string)
  | PrintApiError (err : string) (msg : string)
  | Client
  | WrapperCleanupFunc
  | Read (id : string) (opts : list Option)
  | Delete (id : string) (opts : list Option)
  | List (authMethodId : string) (opts : list Option)
  | PrintJsonItem
  | PrintJsonItems
  | printItemTable
  | printListTable
  | UI_Output (msg : string).

(** What one run meets: the receiver's [Func], what parsing the arguments
    answers and leaves in the flags, and what the collaborators answer. *)
Record Inputs : Type := {
  Func : string;
  Parse : error;
  FlagId : string;
  FlagAuthMethodId : string;
  FlagName : string;
  FlagDescription : string;
  FlagFilter : string;
  Client_err : error;
  (** [c.WrapperCleanupFunc] after [c.Client()]: nil, or a function with
      the error it returns *)
  WrapperCleanup : option error;
  (** the error of the API call *)
  api_err : option ApiError;
  (** whether the list result of a call of [List] is not nil *)
  listResult_found : bool;
  (** [base.Format(c.UI)] *)
  Format : string;
  (** whether [PrintJsonItem] or [PrintJsonItems] succeeds *)
  PrintJson_ok : bool;
  (** the texts of [printItemTable] and of [printListTable], which are
      defined outside this file; [None] when the call panics *)
  itemTable : option string;
  listTable : option string
}.

(** The variables of the package: [flagsOnce], done or not, and
    [flagsMap]; a key that is not in the map has the nil list. *)
Record Package : Type := {
  flagsOnce : bool;
  flagsMap : string -> list string
}.

(** [var flagsMap = map[string][]string{...}] *)
Definition flagsMap_initial : string -> list string :=
  fun k =>
    if k =? "read" then ["id"]
    else if k =? "delete" then ["id"]
    else if k =? "list" then ["auth-method-id"; "filter"]
    else [].

Definition package_initial : Package :=
  {| flagsOnce := false; flagsMap := flagsMap_initial |}.

(** The hooks, as this file defines them. *)
Definition extraActionsFlagsMapFunc : list (string * list string) := [].

Definition extraFlagsHandlingFunc (opts : list Option) : bool * list Option :=
  (true, opts).

Definition executeExtraActions (inErr : option ApiError) : option ApiError :=
  inErr.

Definition printCustomActionOutput : bool * error := (false, None).

(** [for k, v := range extraFlags { flagsMap[k] = append(flagsMap[k], v...) }] *)
Fixpoint appendFlags (extraFlags : list (string * list string))
    (m : string -> list string) : string -> list string :=
  match extraFlags with
  | [] => m
  | (k, v) :: rest =>
      appendFlags rest (fun k' => if k' =? k then (m k ++ v)%list else m k')
  end.

(** [initFlags]: [flagsOnce.Do] runs the function the first time only. *)
Definition initFlags_with (extraFlags : list (string * list string))
    (p : Package) : Package :=
  if flagsOnce p then p
  else {| flagsOnce := true; flagsMap := appendFlags extraFlags (flagsMap p) |}.

Definition initFlags (p : Package) : Package :=
  initFlags_with extraActionsFlagsMapFunc p.

(** [strutil.StrListContains] *)
Definition StrListContains (haystack : list string) (needle : string) : bool :=
  existsb (fun s => s =? needle) haystack.

(** A part of the body of [Run]: what it caused, and how it goes on. *)
Definition Step (A : Type) : Type := list Event * Flow Z A.

Definition andThen {A B : Type} (m : Step A) (k : A -> Step B) : Step B :=
  match m with
  | (t, Next a) => let '(t2, f) := k a in ((t ++ t2)%list, f)
  | (t, Return r) => (t, Return r)
  | (t, Panic) => (t, Panic)
  | (t, Blocked) => (t, Blocked)
  end.

Definition done {A : Type} (a : A) : Step A := ([], Next a).

Definition does (e : Event) : Step unit := ([e], Next tt).

Definition returns {A : Type} (r : Z) : Step A := ([], Return r).

Declare Scope step_scope.
Delimit Scope step_scope with step.
Notation "x <- m ;; k" := (andThen m (fun x => k))
  (at level 100, m at next level, right associativity) : step_scope.
Notation "m ;; k" := (andThen m (fun _ => k))
  (at level 100, right associativity) : step_scope.

(** The options [Run] builds from the flags. *)
Definition nameOptions (a : Inputs) : list Option :=
  if FlagName a =? "" then []
  else if FlagName a =? "null" then [DefaultName]
  else [WithName (FlagName a)].

Definition descriptionOptions (a : Inputs) : list Option :=
  if FlagDescription a =? "" then []
  else if FlagDescription a =? "null" then [DefaultDescription]
  else [WithDescription (FlagDescription a)].

Definition filterOptions (a : Inputs) : list Option :=
  if negb (FlagFilter a =? "") then [WithFilter (FlagFilter a)] else [].

(** [switch c.Func] over the API calls: the error of the call made, nil
    when none is made. *)
Definition Run_call (a : Inputs) (opts : list Option)
    : Step (option ApiError) :=
  (if Func a =? "read" then
     does (Read (FlagId a) opts) ;; done (api_err a)
   else if Func a =? "delete" then
     does (Delete (FlagId a) opts) ;; done (api_err a)
   else if Func a =? "list" then
     does (List (FlagAuthMethodId a) opts) ;; done (api_err a)
   else done None)%step.

(** The output of [Run], after the call succeeded. *)
Definition Run_output (codes : ExitCodes) (a : Inputs) : Step Z :=
  (let '(output, err) := printCustomActionOutput in
   match err with
   | Some m => does (PrintCliError m) ;; returns (CommandUserError codes)
   | None => done tt
   end ;;
   (if output then returns (CommandSuccess codes) else done tt) ;;
   (if Func a =? "delete" then
      (if Format a =? "json" then
         does PrintJsonItem ;;
         if negb (PrintJson_ok a) then returns (CommandCliError codes)
         else done tt
       else if Format a =? "table" then
         does (UI_Output "The delete operation completed successfully.")
       else done tt) ;;
      returns (CommandSuccess codes)
    else if Func a =? "list" then
      (if Format a =? "json" then
         does PrintJsonItems ;;
         if negb (PrintJson_ok a) then returns (CommandCliError codes)
         else done tt
       else if Format a =? "table" then
         (* listResult.GetItems(): a nil list result panics *)
         (if listResult_found a then done tt else ([], Panic)) ;;
         does printListTable ;;
         match listTable a with
         | Some text => does (UI_Output text)
         | None => ([], Panic)
         end
       else done tt) ;;
      returns (CommandSuccess codes)
    else done tt) ;;
   (if Format a =? "table" then
      does printItemTable ;;
      match itemTable a with
      | Some text => does (UI_Output text)
      | None => ([], Panic)
      end
    else if Format a =? "json" then
      does PrintJsonItem ;;
      if negb (PrintJson_ok a) then returns (CommandCliError codes)
      else done tt
    else done tt) ;;
   done (CommandSuccess codes))%step.

(** [Run], from [c.Client()] on, without the deferred call. *)
Definition Run_client (codes : ExitCodes) (a : Inputs) (plural : string)
    : Step Z :=
  (does Client ;;
   match Client_err a with
   | Some m =>
       does (PrintCliError ("Error creating API client: " ++ m)) ;;
       returns (CommandCliError codes)
   | None => done tt
   end ;;
   let opts := (nameOptions a ++ descriptionOptions a ++ filterOptions a)%list in
   let '(ok, opts) := extraFlagsHandlingFunc opts in
   (if negb ok then returns (CommandUserError codes) else done tt) ;;
   err <- Run_call a opts ;;
   let err := executeExtraActions err in
   match err with
   | Some e =>
       match AsServerError e with
       | Some apiErr =>
           does (PrintApiError apiErr
                   ("Error from controller when performing " ++ Func a
                      ++ " on " ++ plural)) ;;
           returns (CommandApiError codes)
       | None =>
           does (PrintCliError
                   ("Error trying to " ++ Func a ++ " " ++ plural ++ ": "
                      ++ Error_ e)) ;;
           returns (CommandCliError codes)
       end
   | None => done tt
   end ;;
   Run_output codes a)%step.

(** The deferred call of [Run]. *)
Definition Run_deferred (a : Inputs) : list Event :=
  match WrapperCleanup a with
  | Some err =>
      WrapperCleanupFunc
        :: match err with
           | Some m => [PrintCliError ("Error cleaning kms wrapper: " ++ m)]
           | None => []
           end
  | None => []
  end.

(** [Run], before [c.Client()]. *)
Definition Run_checks (codes : ExitCodes) (a : Inputs) (p : Package)
    : Step string :=
  ((if Func a =? "" then returns (RunResultHelp codes)
    else if (Func a =? "create") || (Func a =? "update")
    then returns (RunResultHelp codes)
    else done tt) ;;
   let plural := if Func a =? "list" then "managed groups" else "managed group" in
   match Parse a with
   | Some m => does (PrintCliError m) ;; returns (CommandUserError codes)
   | None => done tt
   end ;;
   (if StrListContains (flagsMap p (Func a)) "id" && (FlagId a =? "") then
      does (PrintCliError "ID is required but not passed in via -id") ;;
      returns (CommandUserError codes)
    else done tt) ;;
   (if StrListContains (flagsMap p (Func a)) "auth-method-id" then
      if Func a =? "list" then
        if FlagAuthMethodId a =? "" then
          does (PrintCliError
                  "AuthMethod ID must be passed in via -auth-method-id or BOUNDARY_AUTH_METHOD_ID") ;;
          returns (CommandUserError codes)
        else done tt
      else done tt
    else done tt) ;;
   done plural)%step.

(** [Run]: the package it leaves, what it caused, and its exit: the
    value of [Next] or of [Return] is the exit code. *)
Definition Run (codes : ExitCodes) (a : Inputs) (p : Package)
    : Package * Step Z :=
  let p := initFlags p in
  (p,
   match Run_checks codes a p with
   | (t, Next plural) =>
       let '(t2, f) := Run_client codes a plural in
       ((t ++ t2 ++ Run_deferred a)%list, f)
   | (t, Return r) => (t, Return r)
   | (t, Panic) => (t, Panic)
   | (t, Blocked) => (t, Blocked)
   end).

(** The exit code of a run. *)
Definition exitCode (r : Package * Step Z) : option Z :=
  match snd (snd r) with
  | Next v => Some v
  | Return v => Some v
  | _ => None
  end.

Definition events (r : Package * Step Z) : list Event := fst (snd r).

(** The API calls. *)
Definition isApiCall (e : Event) : bool :=
  match e with
  | Read _ _ | Delete _ _ | List _ _ => true
  | _ => false
  end.

End managedgroupscmd.

(** The number of health queries among [calls]. *)
Definition queries (calls : list health.Call) : nat :=
  List.length
    (filter (fun call => match call with
                         | health.Query _ => true
                         | health.StartUnavailable => false
                         end) calls).

(** What [Run] prints of a result: tables and JSON. *)
Definition isOutput (e : managedgroupscmd.Event) : bool :=
  match e with
  | managedgroupscmd.PrintJsonItem | managedgroupscmd.PrintJsonItems
  | managedgroupscmd.printItemTable | managedgroupscmd.printListTable
  | managedgroupscmd.UI_Output _ => true
  | _ => false
  end.

Unset Implicit Arguments.

(** ** The laws of the monad and the rules of the logic *)

Lemma bind_assoc {R A B C : Type} (m : Prog R A) (k : A -> Prog R B)
    (h : B -> Prog R C) (c : Command) :
  bind (bind m k) h c = bind m (fun a => bind (k a) h) c.
Proof.
  unfold bind.
  destruct (m c) as [[t c1] [a | r | | ]]; trivial.
  destruct (k a c1) as [[t2 c2] [b | r | | ]]; trivial.
  destruct (h b c2) as [[t3 c3] f].
  now rewrite app_assoc.
Qed.

Lemma wp_assoc {R A B C : Type} (m : Prog R A) (k : A -> Prog R B)
    (h : B -> Prog R C) Q (c : Command) :
  wp (bind m (fun a => bind (k a) h)) Q c -> wp (bind (bind m k) h) Q c.
Proof. unfold wp. now rewrite bind_assoc. Qed.

Lemma wp_conseq {R A : Type} (m : Prog R A)
    (Q Q' : list Event -> Command -> Flow R A -> Prop) (c : Command) :
  wp m Q c -> (forall t c' f, Q t c' f -> Q' t c' f) -> wp m Q' c.
Proof. unfold wp. auto. Qed.

Section PostRules.

Context {A B : Type}.
Variable E : Event -> bool.

Lemma post_bind (m : Prog Z A) (k : A -> Prog Z B) P1 P (c : Command) :
  wp m (post E P1) c ->
  (forall a c', P1 a c' -> wp (k a) (post E P) c') ->
  wp (bind m k) (post E P) c.
Proof.
  unfold wp, post, bind, trace, final, flow.
  destruct (m c) as [[t c1] [a | r | | ]]; simpl; intros [Ht Hf] Hk;
    try (split; assumption); try contradiction.
  specialize (Hk a c1 Hf).
  destruct (k a c1) as [[t2 c2] f2]; simpl in *.
  destruct Hk as [Ht2 Hf2]. split; [apply Forall_app; split|]; assumption.
Qed.

Lemma post_ret (a : A) (P : A -> Command -> Prop) (c : Command) :
  P a c -> wp (ret a) (post E P) c.
Proof. intros H. split; [constructor | exact H]. Qed.

Lemma post_return1 (P : A -> Command -> Prop) (c : Command) :
  wp (return_ 1) (post E P) c.
Proof. split; [constructor | reflexivity]. Qed.

Lemma post_fail1 (msg : string) (P : A -> Command -> Prop) (c : Command) :
  E (UI_Error msg) = true -> wp (fail1 msg) (post E P) c.
Proof. intros H. split; [repeat constructor; exact H | reflexivity]. Qed.

Lemma post_emit (e : Event) (P : unit -> Command -> Prop) (c : Command) :
  E e = true -> P tt c -> wp (emit e) (post E P) c.
Proof. intros He H. split; [repeat constructor; exact He | exact H]. Qed.

Lemma post_modify (g : Command -> Command) (P : unit -> Command -> Prop)
    (c : Command) :
  P tt (g c) -> wp (modify g) (post E P) c.
Proof. intros H. split; [constructor | exact H]. Qed.

Lemma post_weaken (m : Prog Z A) (P P' : A -> Command -> Prop) (c : Command) :
  wp m (post E P) c -> (forall a c', P a c' -> P' a c') ->
  wp m (post E P') c.
Proof.
  intros H HP. eapply wp_conseq; [exact H |]. intros t c' f [Ht Hf]. split; trivial.
  destruct f; auto.
Qed.

End PostRules.

Section PostSteps.

Context {B : Type}.
Variable E : Event -> bool.
Variable P : B -> Command -> Prop.

Lemma post_ret_bind {A : Type} (a : A) (k : A -> Prog Z B) (c : Command) :
  wp (k a) (post E P) c -> wp (bind (ret a) k) (post E P) c.
Proof.
  intros H. apply post_bind with (P1 := fun x c' => x = a /\ c' = c).
  - now apply post_ret.
  - now intros ? ? [-> ->].
Qed.

Lemma post_emit_bind (e : Event) (k : unit -> Prog Z B) (c : Command) :
  E e = true -> wp (k tt) (post E P) c -> wp (bind (emit e) k) (post E P) c.
Proof.
  intros He H. apply post_bind with (P1 := fun _ c' => c' = c).
  - split; [repeat constructor; exact He | reflexivity].
  - now intros [] ? ->.
Qed.

Lemma post_get_bind (k : Command -> Prog Z B) (c : Command) :
  wp (k c) (post E P) c -> wp (bind get k) (post E P) c.
Proof.
  intros H. apply post_bind with (P1 := fun x c' => x = c /\ c' = c).
  - split; [constructor | now split].
  - now intros ? ? [-> ->].
Qed.

Lemma post_modify_bind (g : Command -> Command) (k : unit -> Prog Z B)
    (c : Command) :
  wp (k tt) (post E P) (g c) -> wp (bind (modify g) k) (post E P) c.
Proof.
  intros H. apply post_bind with (P1 := fun _ c' => c' = g c).
  - split; [constructor | reflexivity].
  - now intros [] ? ->.
Qed.

Lemma post_fail1_bind {A : Type} (msg : string) (k : A -> Prog Z B)
    (c : Command) :
  E (UI_Error msg) = true -> wp (bind (fail1 msg) k) (post E P) c.
Proof.
  intros He. apply post_bind with (P1 := fun _ _ => False).
  - now apply post_fail1.
  - contradiction.
Qed.

Lemma post_return1_bind {A : Type} (k : A -> Prog Z B) (c : Command) :
  wp (bind (return_ 1) k) (post E P) c.
Proof.
  apply post_bind with (P1 := fun _ _ => False).
  - apply post_return1.
  - contradiction.
Qed.

Lemma post_ask_bind (env : Env) (e : Event) (k : error -> Prog Z B)
    (c : Command) :
  E e = true -> wp (k (answers env e)) (post E P) c ->
  wp (bind (ask env e) k) (post E P) c.
Proof.
  intros He H. unfold ask. apply wp_assoc. apply post_emit_bind; trivial.
  now apply post_ret_bind.
Qed.

Lemma post_failWith1_bind (err : error) (msg : string -> string)
    (k : unit -> Prog Z B) (c : Command) :
  (forall m, E (UI_Error (msg m)) = true) ->
  (err = None -> wp (k tt) (post E P) c) ->
  wp (bind (failWith1 err msg) k) (post E P) c.
Proof.
  intros He H. destruct err as [m |]; simpl.
  - now apply post_fail1_bind.
  - apply post_ret_bind. now apply H.
Qed.

End PostSteps.

Lemma post_failWith1 (E : Event -> bool) (err : error) (msg : string -> string)
    (P : unit -> Command -> Prop) (c : Command) :
  (forall m, E (UI_Error (msg m)) = true) ->
  (err = None -> P tt c) ->
  wp (failWith1 err msg) (post E P) c.
Proof.
  intros He H. destruct err as [m |]; simpl.
  - now apply post_fail1.
  - apply post_ret. now apply H.
Qed.

(** A call whose callee neither panics nor blocks, followed by the rest
    of the body. *)
Lemma post_callee_bind {R B : Type} (E : Event -> bool) (body : Prog R R)
    (k : R -> Prog Z B) (P1 : R -> Command -> Prop)
    (P : B -> Command -> Prop) (c : Command) :
  Forall (fun e => E e = true) (trace (body c)) ->
  (exists v, (flow (body c) = Next v \/ flow (body c) = Return v) /\
             P1 v (final (body c))) ->
  (forall v c', P1 v c' -> wp (k v) (post E P) c') ->
  wp (bind (call body) k) (post E P) c.
Proof.
  intros Ht (v & Hf & HP) Hk.
  apply post_bind with (P1 := P1); [| exact Hk].
  unfold wp, post, call, trace, final, flow in *.
  destruct (body c) as [[t c1] f]; simpl in *.
  destruct Hf as [-> | ->]; (split; [exact Ht | exact HP]).
Qed.

(** What a step that satisfies [post] makes of a sequence: it returns 1,
    and so does the sequence with the same trace, or it goes on, and the
    sequence is the rest after it. *)
Lemma post_bind_inv {A B : Type} (E : Event -> bool) (m : Prog Z A)
    (k : A -> Prog Z B) (P1 : A -> Command -> Prop) (c : Command) :
  wp m (post E P1) c ->
  Forall (fun e => E e = true) (trace (m c)) /\
  ((flow (m c) = Return 1 /\
    bind m k c = (trace (m c), final (m c), Return 1)) \/
   (exists a, flow (m c) = Next a /\ P1 a (final (m c)) /\
      bind m k c =
        ((trace (m c) ++ trace (k a (final (m c))))%list,
         final (k a (final (m c))), flow (k a (final (m c)))))).
Proof.
  unfold wp, post, bind, trace, final, flow.
  destruct (m c) as [[t c1] [a | r | | ]]; simpl; intros [Ht Hf];
    try contradiction; (split; [exact Ht |]).
  - right. exists a. split; [reflexivity |]. split; [exact Hf |].
    now destruct (k a c1) as [[t2 c2] f2].
  - left. subst r. now split.
Qed.

Lemma post_class {A : Type} (E E' : Event -> bool) (m : Prog Z A)
    (P : A -> Command -> Prop) (c : Command) :
  (forall e, E e = true -> E' e = true) ->
  wp m (post E P) c -> wp m (post E' P) c.
Proof.
  intros HE H. eapply wp_conseq; [exact H |].
  intros t c' f [Ht Hf]. split; trivial.
  eapply Forall_impl; [| exact Ht]. exact HE.
Qed.

Lemma post_call (E : Event -> bool) (body : Prog Z Z)
    (P : Z -> Command -> Prop) (c : Command) :
  wp body (post E P) c ->
  wp (call (R' := Z) body) (post E (fun r c' => r = 1 \/ P r c')) c.
Proof.
  unfold wp, post, call, trace, final, flow.
  destruct (body c) as [[t c1] [a | r | | ]]; simpl; intros [Ht Hf];
    (split; [assumption | auto]).
Qed.

Ltac pstep :=
  cbv beta iota zeta;
  lazymatch goal with
  | |- wp (bind (bind _ _) _) _ _ => apply wp_assoc
  | |- wp (bind (ret _) _) _ _ => apply post_ret_bind
  | |- wp (bind (emit _) _) _ _ => apply post_emit_bind; [reflexivity |]
  | |- wp (bind get _) _ _ => apply post_get_bind
  | |- wp (bind (modify _) _) _ _ => apply post_modify_bind
  | |- wp (bind (defer _) _) _ _ => unfold defer; apply post_modify_bind
  | |- wp (bind (ask _ _) _) _ _ => apply post_ask_bind; [reflexivity |]
  | |- wp (bind (failWith1 _ _) _) _ _ =>
      apply post_failWith1_bind; [intros; reflexivity | intros ?]
  | |- wp (bind (fail1 _) _) _ _ => apply post_fail1_bind; reflexivity
  | |- wp (bind (return_ 1) _) _ _ => apply post_return1_bind
  | |- wp (bind (if ?b then _ else _) _) _ _ =>
      first [ let v := eval cbv in b in
              lazymatch v with
              | true => change b with true
              | false => change b with false
              end
            | destruct b eqn:? ]
  | |- wp (bind (match ?x with _ => _ end) _) _ _ =>
      destruct x eqn:?; try congruence
  | |- wp (fail1 _) _ _ => apply post_fail1; reflexivity
  | |- wp (failWith1 _ _) _ _ =>
      apply post_failWith1; [intros; reflexivity | intros ?]
  | |- wp (return_ 1) _ _ => apply post_return1
  | |- wp (ret _) _ _ => apply post_ret
  | |- wp (emit _) _ _ => apply post_emit; [reflexivity |]
  | |- wp (modify _) _ _ => apply post_modify
  | |- wp (if ?b then _ else _) _ _ => destruct b eqn:?
  | |- wp (match ?x with _ => _ end) _ _ => destruct x eqn:?; try congruence
  end.

Lemma scanCluster_cons (ln : Listener) (rest : list Listener) (a : string) :
  scanCluster (ln :: rest) a
  = scanCluster rest (if purposeIs "cluster" ln then clusterAddress ln else a).
Proof. reflexivity. Qed.

Lemma hasPurpose_cons (p : string) (ln : Listener) (rest : list Listener) :
  hasPurpose p (ln :: rest) = purposeIs p ln || hasPurpose p rest.
Proof. reflexivity. Qed.

Lemma scanCluster_none (lns : list Listener) (a : string) :
  hasPurpose "cluster" lns = false -> scanCluster lns a = a.
Proof.
  revert a. induction lns as [| ln rest IH]; intros a; trivial.
  rewrite hasPurpose_cons, scanCluster_cons. intros H.
  apply orb_false_iff in H. destruct H as [H1 H2].
  rewrite H1. now apply IH.
Qed.

Section RunStages.

Context {net : NetLib}.
Variable env : Env.
Variable cfg : ConfigT.
Hypothesis Hload : loadFile env = LoadOk cfg.

Lemma ParseFlagsAndConfig_post (c : Command) :
  wp (ParseFlagsAndConfig env)
     (post beforeListeners (fun r c' => r = 0 /\ Config c' = cfg)) c.
Proof.
  unfold ParseFlagsAndConfig.
  do 4 pstep.
  destruct (wrapperFromPath env) as [wrapper err].
  rewrite Hload.
  repeat pstep; auto.
Qed.

Lemma Run_setup_post (c : Command) :
  wp (Run_setup env) (post beforeListeners (fun _ c' => Config c' = cfg)) c.
Proof.
  unfold Run_setup.
  do 3 pstep.
  eapply post_bind; [apply post_call, ParseFlagsAndConfig_post |].
  intros r c1 [-> | [-> Hc]]; [repeat pstep |].
  repeat pstep; simpl; auto.
Qed.


Lemma Run_listeners_post (lns : list Listener) :
  forall (clusterAddr : string) (foundApi foundProxy : bool) (c : Command),
    wp (Run_listeners lns clusterAddr foundApi foundProxy)
       (post beforeListeners
          (fun r c' =>
             c' = c /\
             r = (scanCluster lns clusterAddr,
                  foundApi || hasPurpose "api" lns,
                  foundProxy || hasPurpose "proxy" lns) /\
             forallb listenerCheck lns = true)) c.
Proof.
  induction lns as [| ln rest IH]; intros clusterAddr foundApi foundProxy c;
    cbn [Run_listeners].
  - pstep. simpl. now rewrite !orb_false_r.
  - destruct (Purpose ln) as [| purpose [| q l]] eqn:HP; [pstep | | pstep].
    assert (Hq : forall p, purposeIs p ln = (purpose =? p))
      by (intros p; unfold purposeIs; now rewrite HP).
    rewrite scanCluster_cons, !hasPurpose_cons. cbn [forallb].
    unfold listenerCheck at 1. rewrite !Hq.
    destruct (purpose =? "cluster") eqn:Hc; cbv beta iota zeta.
    { eapply post_weaken; [apply IH |]. cbv beta.
      intros r c' (-> & -> & Hl). repeat split; trivial.
      apply String.eqb_eq in Hc. subst purpose. reflexivity. }
    destruct (purpose =? "api") eqn:Ha.
    { eapply post_weaken; [apply IH |]. cbv beta.
      intros r c' (-> & -> & Hl). repeat split; trivial.
      apply String.eqb_eq in Ha. subst purpose.
      now rewrite orb_true_r. }
    destruct (purpose =? "proxy") eqn:Hp.
    { eapply post_weaken; [apply IH |]. cbv beta.
      intros r c' (-> & -> & Hl). repeat split; trivial.
      now rewrite orb_true_r. }
    pstep.
Qed.

(** The switch over the upstreams of a combined config, as an equation. *)
Lemma Run_combined_eq (clusterAddr : string) (c : Command)
    (k : ControllerBlock) (w : WorkerBlock) :
  Controller (Config c) = Some k ->
  Worker (Config c) = Some w ->
  Run_combined clusterAddr c =
    if upstreamsOk k clusterAddr (Controllers w) then
      ([],
       match Controllers w with
       | [] =>
           set_Config
             (set_Worker (Config c)
                (Some (set_Controllers w
                         [if negb (PublicClusterAddr k =? "")
                          then PublicClusterAddr k else clusterAddr]))) c
       | _ => c
       end, Next tt)
    else ([UI_Error combinedMsg], c, Return 1).
Proof.
  intros Hk Hw.
  unfold Run_combined, Config_Worker, Config_Controller, bind, get.
  rewrite Hw. cbn beta iota delta [ret app]. rewrite Hk.
  cbn beta iota delta [ret app].
  destruct (Controllers w) as [| e [| e' l]]; cbn [upstreamsOk]; trivial.
  unfold upstreamOk, isDomainName, stripPort.
  destruct (e =? clusterAddr); trivial.
  destruct (negb (PublicClusterAddr k =? "") && (e =? PublicClusterAddr k));
    trivial.
  cbn [orb].
  destruct (SplitHostPort e) as [[host port] [m |]].
  - destruct (strings.Contains m "missing port in address").
    + destruct (ParseIP e); reflexivity.
    + reflexivity.
  - destruct (ParseIP host); reflexivity.
Qed.

Lemma Run_combined_post (clusterAddr : string) (c : Command)
    (k : ControllerBlock) (w : WorkerBlock) :
  Controller (Config c) = Some k ->
  Worker (Config c) = Some w ->
  wp (Run_combined clusterAddr)
     (post beforeListeners
        (fun _ c' =>
           upstreamsOk k clusterAddr (Controllers w) = true /\
           Controller (Config c') = Some k /\
           Listeners (Config c') = Listeners (Config c) /\
           exists w', Worker (Config c') = Some w' /\
                      (Controllers w = [] \/ Controllers w' = Controllers w)))
     c.
Proof.
  intros Hk Hw. unfold wp. rewrite (Run_combined_eq clusterAddr c k w Hk Hw).
  destruct (upstreamsOk k clusterAddr (Controllers w)) eqn:Hok;
    unfold post, trace, final, flow; cbn [fst snd].
  - split; [constructor |]. split; [reflexivity |].
    destruct (Controllers w) eqn:Hl; cbn.
    + repeat split; trivial. eexists. split; [reflexivity | now left].
    + repeat split; trivial. exists w. split; [assumption | right; congruence].
  - split; [repeat constructor | reflexivity].
Qed.

Lemma Run_controllers_post (l : list string) (c : Command) :
  wp (Run_controllers l)
     (post beforeListeners
        (fun _ c' => c' = c /\ forallb upstreamCheck l = true)) c.
Proof.
  induction l as [| e rest IH]; cbn [Run_controllers forallb].
  - pstep. now split.
  - assert (Hrest : forall b, b = true ->
              wp (Run_controllers rest)
                 (post beforeListeners
                    (fun _ c' => c' = c /\ b && forallb upstreamCheck rest = true))
                 c)
      by (intros b ->; exact IH).
    unfold upstreamCheck at 1, stripPort.
    destruct (SplitHostPort e) as [[host port] [m |]].
    + destruct (strings.Contains m "missing port in address");
        [| repeat pstep].
      pstep. destruct (ParseIP e) as [ip |].
      * destruct (IsUnspecified ip); [repeat pstep |].
        destruct (IsMulticast ip); [repeat pstep |].
        repeat pstep. now apply Hrest.
      * repeat pstep. now apply Hrest.
    + pstep. destruct (ParseIP host) as [ip |].
      * destruct (IsUnspecified ip); [repeat pstep |].
        destruct (IsMulticast ip); [repeat pstep |].
        repeat pstep. now apply Hrest.
      * repeat pstep. now apply Hrest.
Qed.

Lemma Run_controllerListeners_post (clusterAddr : string) (foundApi : bool)
    (c : Command) :
  wp (Run_controllerListeners clusterAddr foundApi)
     (post beforeListeners
        (fun _ c' =>
           c' = c /\
           (isNil (Controller (Config c)) = false ->
            foundApi = true /\ (clusterAddr =? "") = false))) c.
Proof.
  unfold Run_controllerListeners.
  pstep. destruct (isNil (Controller (Config c))); cbn [negb].
  - pstep. split; [reflexivity | discriminate].
  - destruct foundApi; cbn [negb]; [| repeat pstep].
    pstep. destruct (clusterAddr =? ""); pstep. now split.
Qed.

Lemma Run_worker_post (clusterAddr : string) (foundProxy : bool)
    (c : Command) :
  wp (Run_worker clusterAddr foundProxy)
     (post beforeListeners
        (fun _ c' =>
           Controller (Config c') = Controller (Config c) /\
           Listeners (Config c') = Listeners (Config c) /\
           isNil (Worker (Config c')) = isNil (Worker (Config c)) /\
           forall w, Worker (Config c) = Some w ->
             foundProxy = true /\
             forallb upstreamCheck (Controllers w) = true /\
             forall k, Controller (Config c) = Some k ->
               upstreamsOk k clusterAddr (Controllers w) = true)) c.
Proof.
  unfold Run_worker. pstep.
  destruct (Worker (Config c)) as [w |] eqn:Hw; cbn [isNil negb].
  2:{ pstep. rewrite Hw. repeat split; trivial; discriminate. }
  destruct foundProxy; cbn [negb]; [| repeat pstep].
  pstep.
  destruct (Controller (Config c)) as [k |] eqn:Hk; cbn [isNil negb].
  - eapply post_bind; [apply (Run_combined_post clusterAddr c k w Hk Hw) |].
    cbv beta. intros _ c1 (Hok & Hk1 & Hl1 & w' & Hw1 & Hcs).
    unfold Config_Worker. do 2 pstep. rewrite Hw1. pstep.
    eapply post_weaken; [apply Run_controllers_post |]. cbv beta.
    intros _ c2 [-> Hchk]. rewrite Hw1, Hk1, Hl1.
    split; [reflexivity |]. split; [reflexivity |]. split; [reflexivity |].
    intros wx Ex. injection Ex as <-. split; [reflexivity |]. split.
    + destruct Hcs as [-> | <-]; trivial.
    + intros kx Ey. injection Ey as <-. exact Hok.
  - pstep. unfold Config_Worker. do 2 pstep. rewrite Hw. pstep.
    eapply post_weaken; [apply Run_controllers_post |]. cbv beta.
    intros _ c2 [-> Hchk]. rewrite Hw, Hk.
    split; [reflexivity |]. split; [reflexivity |]. split; [reflexivity |].
    intros wx Ex. injection Ex as <-. split; [reflexivity |]. split.
    + exact Hchk.
    + discriminate.
Qed.

Lemma Run_validate_post (c : Command) :
  Config c = cfg ->
  wp Run_validate (post beforeListeners (fun _ c' => validated cfg c')) c.
Proof.
  intros Hc. unfold Run_validate. pstep.
  eapply post_bind; [apply Run_listeners_post |]. cbv beta.
  intros r c1 (-> & -> & Hlns). cbv beta iota zeta.
  eapply post_bind; [apply Run_controllerListeners_post |]. cbv beta.
  intros _ c1 (-> & Hctl). rewrite Hc in *. cbn [orb] in Hctl.
  eapply post_weaken; [apply Run_worker_post |]. cbv beta.
  intros _ c2 (Hk2 & Hl2 & Hw2 & Hwork). rewrite Hc in *.
  unfold validated.
  split; [exact Hk2 |]. split; [exact Hl2 |]. split; [exact Hw2 |].
  split; [exact Hlns |]. split.
  - intros Hnil. destruct (Hctl Hnil) as [Hapi Hca]. split; [exact Hapi |].
    destruct (hasPurpose "cluster" (Listeners cfg)) eqn:Hcl; trivial.
    rewrite (scanCluster_none _ _ Hcl) in Hca. discriminate.
  - intros w Hw. destruct (Hwork w Hw) as (Hp & Hu & Hok).
    split; [exact Hp |]. split; [exact Hu |]. exact Hok.
Qed.

Lemma Run_clusterPurposes_post (k : ControllerBlock) (ln : Listener)
    (purposes : list string) (c : Command) :
  wp (Run_clusterPurposes k ln purposes)
     (post beforePid
        (fun _ c' =>
           c' = c /\
           (existsb (String.eqb "cluster") purposes = true ->
            clusterAddrCheck k (Address ln) = true))) c.
Proof.
  induction purposes as [| purpose rest IH];
    cbn [Run_clusterPurposes existsb].
  - pstep. split; [reflexivity | discriminate].
  - rewrite (String.eqb_sym "cluster" purpose).
    destruct (purpose =? "cluster"); cbn [negb orb].
    + assert (Hrest : clusterAddrCheck k (Address ln) = true ->
                wp (Run_clusterPurposes k ln rest)
                   (post beforePid
                      (fun _ c' =>
                         c' = c /\
                         (true = true ->
                          clusterAddrCheck k (Address ln) = true))) c).
      { intros Hok. eapply post_weaken; [exact IH |]. cbv beta.
        intros _ c' [-> _]. now split. }
      revert Hrest. unfold clusterAddrCheck, stripPort.
      destruct (SplitHostPort (Address ln)) as [[host port] [m |]].
      * destruct (strings.Contains m "missing port in address");
          intros Hrest; [| repeat pstep].
        do 2 pstep. destruct (ParseIP (Address ln)) as [ip |].
        -- destruct (IsUnspecified ip && (PublicClusterAddr k =? ""));
             [repeat pstep |].
           pstep. now apply Hrest.
        -- pstep. now apply Hrest.
      * intros Hrest. do 2 pstep. destruct (ParseIP host) as [ip |].
        -- destruct (IsUnspecified ip && (PublicClusterAddr k =? ""));
             [repeat pstep |].
           pstep. now apply Hrest.
        -- pstep. now apply Hrest.
    + pstep. exact IH.
Qed.

Lemma Run_clusterListeners_post (k : ControllerBlock) (lns : list Listener)
    (c : Command) :
  wp (Run_clusterListeners k lns)
     (post beforePid
        (fun _ c' => c' = c /\ forallb (clusterListenerCheck k) lns = true))
     c.
Proof.
  induction lns as [| ln rest IH]; cbn [Run_clusterListeners forallb].
  - pstep. now split.
  - eapply post_bind; [apply Run_clusterPurposes_post |]. cbv beta.
    intros _ c' [-> Hln]. eapply post_weaken; [exact IH |]. cbv beta.
    intros _ c' [-> Hrest]. split; [reflexivity |].
    rewrite Hrest, andb_true_r. unfold clusterListenerCheck.
    destruct (existsb (String.eqb "cluster") (Purpose ln)); auto.
Qed.

Lemma Run_bind_post (c : Command) :
  wp (Run_bind env)
     (post beforePid
        (fun _ c' =>
           Config c' = Config c /\
           forall k, Controller (Config c) = Some k ->
             forallb (clusterListenerCheck k) (Listeners (Config c)) = true))
     c.
Proof.
  unfold Run_bind. do 3 pstep.
  apply post_bind with (P1 := fun _ c' => Config c' = Config c /\ c' = c' ).
  { destruct (Worker (Config c)); repeat pstep; now split. }
  intros _ c1 [Hc1 _].
  destruct (Controller (Config c)) as [k |].
  - eapply post_bind; [apply Run_clusterListeners_post |]. cbv beta.
    intros _ c2 [-> Hchk]. repeat pstep. cbn. split; [exact Hc1 |].
    intros kx Ex. now injection Ex as <-.
  - pstep. split; [exact Hc1 | discriminate].
Qed.

Lemma Run_pid_post (c : Command) :
  wp (Run_pid env) (post beforeDatabase (fun _ c' => c' = c)) c.
Proof. unfold Run_pid. repeat pstep. reflexivity. Qed.

(** [connectSchemaManager] once the manager is attached and the state
    is read: the verdict is [schemaCheck]. *)
Lemma connectSchemaManager_attached (dialect : string) (c : Command)
    (st : State) :
  answers env (schema_NewManager dialect) = None ->
  answers env SharedLock = None ->
  currentState env = (st, None) ->
  connectSchemaManager env dialect c =
    (([schema_NewManager dialect; SharedLock; CurrentState]
        ++ match schemaCheck st with
           | Some _ => []
           | None => [go_ensureManagerConnection]
           end)%list,
     set_ShutdownFuncs (ShutdownFuncs c ++ [SharedUnlockFunc])%list
       (set_SchemaManager true c),
     match schemaCheck st with
     | Some m => Return (Some m)
     | None => Next None
     end).
Proof.
  intros Hm Hl Hs.
  unfold connectSchemaManager, schemaCheck, bind, ask, emit, ret, modify,
    get, return_.
  rewrite Hm, Hl, Hs. cbn.
  destruct (InitializationStarted st); cbn; trivial.
  destruct (Dirty st); cbn; trivial.
  destruct (BinarySchemaVersion st >? DatabaseSchemaVersion st)%Z; cbn;
    trivial.
  destruct (BinarySchemaVersion st <? DatabaseSchemaVersion st)%Z; cbn;
    trivial.
Qed.

Lemma connectSchemaManager_total (dialect : string) (c : Command) :
  exists v,
    (flow (connectSchemaManager env dialect c) = Next v \/
     flow (connectSchemaManager env dialect c) = Return v) /\
    (answers env (schema_NewManager dialect) = None ->
     answers env SharedLock = None ->
     forall st, currentState env = (st, None) -> v = schemaCheck st).
Proof.
  destruct (answers env (schema_NewManager dialect)) as [m |] eqn:Hm.
  { eexists. split; [right |].
    - unfold connectSchemaManager, bind, ask, emit, ret, return_, flow.
      rewrite Hm. reflexivity.
    - discriminate. }
  destruct (answers env SharedLock) as [m |] eqn:Hl.
  { eexists. split; [right |].
    - unfold connectSchemaManager, bind, ask, emit, ret, return_, modify,
        flow.
      rewrite Hm, Hl. reflexivity.
    - discriminate. }
  destruct (currentState env) as [st [m |]] eqn:Hs.
  { eexists. split; [right |].
    - unfold connectSchemaManager, bind, ask, emit, ret, return_, modify,
        get, flow.
      rewrite Hm, Hl, Hs. reflexivity.
    - intros _ _ st' E'. discriminate. }
  rewrite (connectSchemaManager_attached dialect c st Hm Hl Hs).
  exists (schemaCheck st). split.
  - unfold flow; cbn. destruct (schemaCheck st); auto.
  - intros _ _ st' E'. now injection E' as <-.
Qed.

Lemma verifyKmsSetup_total (c : Command) :
  exists v,
    flow (verifyKmsSetup env c) = Next v \/
    flow (verifyKmsSetup env c) = Return v.
Proof.
  unfold verifyKmsSetup, bind, ask, emit, ret, return_, flow.
  destruct (answers env kms_NewRepository); cbn; [eauto |].
  destruct (listRootKeys env) as [rks [m |]]; cbn; [eauto |].
  destruct (existsb _ rks); cbn; eauto.
Qed.

Lemma all_anyEvent (t : list Event) :
  Forall (fun e => anyEvent e = true) t.
Proof. induction t; constructor; trivial. Qed.

Lemma Run_database_post (c : Command) :
  wp (Run_database env)
     (post anyEvent
        (fun _ c' =>
           isNil (Controller (Config c)) = false ->
           answers env (schema_NewManager "postgres") = None ->
           answers env SharedLock = None ->
           forall st, currentState env = (st, None) ->
                      schemaCheck st = None)) c.
Proof.
  unfold Run_database. pstep.
  destruct (Controller (Config c)) as [k |]; [| pstep; discriminate].
  apply post_bind with (P1 := fun _ c' => True).
  { destruct (Database k) as [d |]; repeat pstep; trivial. }
  intros url c1 _. pstep.
  apply post_bind with (P1 := fun _ c' => True).
  { destruct (parseAddress env); repeat pstep; trivial. }
  intros _ c2 _. do 2 pstep.
  destruct (connectSchemaManager_total "postgres" c2) as (v & Hf & Hv).
  eapply post_callee_bind with (P1 := fun r _ => r = v);
    [apply all_anyEvent | exists v; split; [exact Hf | reflexivity] |].
  intros r c3 ->. pstep.
  destruct (verifyKmsSetup_total c3) as (v' & Hf').
  eapply post_callee_bind with (P1 := fun _ _ => True);
    [apply all_anyEvent | exists v'; split; [exact Hf' | exact I] |].
  intros r c4 _. pstep. cbv beta.
  intros _ Hm Hl st Hs. rewrite <- (Hv Hm Hl st Hs). assumption.
Qed.

Lemma anyEvent_class (E : Event -> bool) (e : Event) :
  E e = true -> anyEvent e = true.
Proof. reflexivity. Qed.

Lemma beforeListeners_beforePid (e : Event) :
  beforeListeners e = true -> beforePid e = true.
Proof. destruct e; simpl; trivial. Qed.

Lemma beforePid_beforeDatabase (e : Event) :
  beforePid e = true -> beforeDatabase e = true.
Proof. destruct e; simpl; trivial. Qed.

Lemma validated_Config (c c' : Command) :
  Config c' = Config c -> validated cfg c -> validated cfg c'.
Proof. unfold validated. intros ->. trivial. Qed.

Lemma Run_upto_validate_post (c : Command) :
  wp (Run_upto_validate env)
     (post beforeListeners (fun _ c' => validated cfg c')) c.
Proof.
  unfold Run_upto_validate.
  eapply post_bind; [apply Run_setup_post |]. cbv beta.
  intros _ c1 Hc. now apply Run_validate_post.
Qed.

Lemma Run_upto_bind_post (c : Command) :
  wp (Run_upto_bind env)
     (post beforePid
        (fun _ c' => validated cfg c' /\ clusterChecked cfg)) c.
Proof.
  unfold Run_upto_bind.
  eapply post_bind;
    [eapply post_class;
       [exact beforeListeners_beforePid | apply Run_upto_validate_post] |].
  cbv beta. intros _ c1 Hv.
  eapply post_weaken; [apply Run_bind_post |]. cbv beta.
  intros _ c2 [Hc Hcl]. split; [eapply validated_Config; eassumption |].
  destruct Hv as (Hk & Hl & _). intros k Ek.
  rewrite <- Hl. apply Hcl. now rewrite Hk.
Qed.

Lemma Run_upto_pid_post (c : Command) :
  wp (Run_upto_pid env)
     (post beforeDatabase
        (fun _ c' => validated cfg c' /\ clusterChecked cfg)) c.
Proof.
  unfold Run_upto_pid.
  eapply post_bind;
    [eapply post_class;
       [exact beforePid_beforeDatabase | apply Run_upto_bind_post] |].
  cbv beta. intros _ c1 Hv.
  eapply post_weaken; [apply Run_pid_post |]. cbv beta.
  now intros _ c2 ->.
Qed.

Lemma Run_upto_database_post (c : Command) :
  wp (Run_upto_database env)
     (post anyEvent
        (fun _ c' =>
           (exists c1, validated cfg c1) /\ clusterChecked cfg /\
           schemaChecked env cfg)) c.
Proof.
  unfold Run_upto_database.
  eapply post_bind;
    [eapply post_class;
       [exact (anyEvent_class beforeDatabase) | apply Run_upto_pid_post] |].
  cbv beta. intros _ c1 [Hv Hcl].
  eapply post_weaken; [apply Run_database_post |]. cbv beta.
  intros _ c2 Hs. split; [now exists c1 |]. split; [exact Hcl |].
  destruct Hv as (Hk & _). unfold schemaChecked. rewrite <- Hk. exact Hs.
Qed.

(** [Run_body] is each of its stages followed by the rest. *)
Lemma Run_body_validate (c : Command) :
  Run_body env c =
    bind (Run_upto_validate env)
      (fun _ => Run_bind env ;; Run_pid env ;; Run_database env ;;
                Run_start env) c.
Proof. unfold Run_body, Run_upto_validate. now rewrite bind_assoc. Qed.

Lemma Run_body_pid (c : Command) :
  Run_body env c =
    bind (Run_upto_bind env)
      (fun _ => Run_pid env ;; Run_database env ;; Run_start env) c.
Proof.
  unfold Run_upto_bind. rewrite bind_assoc. apply Run_body_validate.
Qed.

Lemma Run_body_start (c : Command) :
  Run_body env c = bind (Run_upto_database env) (fun _ => Run_start env) c.
Proof.
  unfold Run_upto_database, Run_upto_pid. rewrite !bind_assoc.
  apply Run_body_pid.
Qed.

(** A run passes the three checks, or its body returns 1. *)
Lemma Run_body_checked (c : Command) :
  flow (Run_body env c) = Return 1 \/
  ((exists c1, validated cfg c1) /\ clusterChecked cfg /\
   schemaChecked env cfg).
Proof.
  rewrite Run_body_start.
  destruct (post_bind_inv _ _ (fun _ => Run_start env) _ _
              (Run_upto_database_post c))
    as [_ [[_ ->] | (a & _ & H & _)]]; [now left | now right].
Qed.

End RunStages.

Section RunLevel.

Context {net : NetLib}.
Variable env : Env.

Lemma run_all_deferred_post (ds : list Deferred) (c : Command) :
  wp (run_all_deferred env ds) (post deferredEvent (fun _ _ => True)) c.
Proof.
  revert c. induction ds as [| d rest IH]; intros c;
    cbn [run_all_deferred].
  - now pstep.
  - destruct d; unfold run_deferred; repeat pstep; apply IH.
Qed.

(** The trace of [Run] is the trace of its body, then what the deferred
    calls cause; its flow is the body's, a [return] being the value. *)
Lemma Run_inv (c : Command) :
  exists td,
    Forall (fun e => deferredEvent e = true) td /\
    trace (Run env c) = (trace (Run_body env c) ++ td)%list /\
    flow (Run env c) =
      match flow (Run_body env c) with
      | Next r => Next r
      | Return r => Next r
      | Panic => Panic
      | Blocked => Blocked
      end.
Proof.
  unfold Run, trace, flow.
  destruct (Run_body env c) as [[t c1] f]; cbn [fst snd].
  pose proof (run_all_deferred_post (deferred c1) c1) as [Hd _].
  unfold trace in Hd.
  destruct (run_all_deferred env (deferred c1) c1) as [[t2 c2] f2];
    cbn [fst snd] in *.
  destruct f; cbn [fst snd]; try (exists t2; now repeat split).
  exists []. rewrite app_nil_r. now repeat split.
Qed.

Lemma Run_exit1 (c : Command) :
  flow (Run_body env c) = Return 1 -> flow (Run env c) = Next 1.
Proof.
  intros H. destruct (Run_inv c) as (td & _ & _ & Hf). now rewrite Hf, H.
Qed.

End RunLevel.

(** ** The listener topology (C5) *)

Lemma listenerCheck_one (ln : Listener) :
  listenerCheck ln = true -> List.length (Purpose ln) = 1%nat.
Proof.
  unfold listenerCheck, purposeIs.
  destruct (Purpose ln) as [| p [| q l]]; simpl; trivial; discriminate.
Qed.

Lemma beforeListeners_not_SetupListeners (t : list Event) :
  Forall (fun e => beforeListeners e = true) t -> ~ In SetupListeners t.
Proof.
  intros H Hin. rewrite Forall_forall in H. apply H in Hin. discriminate.
Qed.

Lemma deferred_not_SetupListeners (t : list Event) :
  Forall (fun e => deferredEvent e = true) t -> ~ In SetupListeners t.
Proof.
  intros H Hin. rewrite Forall_forall in H. apply H in Hin. discriminate.
Qed.

(** A run that sets up the listeners has passed the validation. *)
Lemma Run_SetupListeners_validated {net : NetLib} (env : Env) (cfg : ConfigT)
    (c0 : Command) :
  loadFile env = LoadOk cfg ->
  In SetupListeners (trace (Run env c0)) ->
  exists c1, validated cfg c1.
Proof.
  intros Hload Hin.
  destruct (Run_inv env c0) as (td & Htd & Ht & _).
  rewrite Ht in Hin. apply in_app_or in Hin.
  destruct Hin as [Hin | Hin];
    [| now apply deferred_not_SetupListeners in Htd].
  rewrite (Run_body_validate env) in Hin.
  destruct (post_bind_inv _ _
              (fun _ => Run_bind env ;; Run_pid env ;; Run_database env ;;
                        Run_start env) _ _
              (Run_upto_validate_post env cfg Hload c0))
    as [Hpre [[_ Heq] | (a & _ & Hv & _)]].
  - rewrite Heq in Hin. cbn in Hin.
    now apply beforeListeners_not_SetupListeners in Hpre.
  - eauto.
Qed.

(** C5, in the form the code satisfies: [Run] returns 1 when a listener
    declares no purpose or more than one; a run with a controller block
    sets up its listeners only if at least one listener has the purpose api
    and at least one the purpose cluster; a run with a worker block only if
    at least one listener has the purpose proxy. *)
Theorem C5_listener_topology {net : NetLib} (env : Env) (cfg : ConfigT)
    (c0 : Command) :
  loadFile env = LoadOk cfg ->
  ((exists ln, In ln (Listeners cfg) /\ List.length (Purpose ln) <> 1%nat) ->
   flow (Run env c0) = Next 1) /\
  (In SetupListeners (trace (Run env c0)) ->
   (Controller cfg <> None ->
    hasPurpose "api" (Listeners cfg) = true /\
    hasPurpose "cluster" (Listeners cfg) = true) /\
   (Worker cfg <> None -> hasPurpose "proxy" (Listeners cfg) = true)).
Proof.
  intros Hload. split.
  - intros (ln & Hin & Hlen).
    destruct (Run_body_checked env cfg Hload c0) as [H | [[c1 Hv] _]];
      [now apply Run_exit1 |].
    destruct Hv as (_ & _ & _ & Hl & _).
    rewrite forallb_forall in Hl. apply Hl in Hin.
    now apply listenerCheck_one in Hin.
  - intros Hin.
    destruct (Run_SetupListeners_validated env cfg c0 Hload Hin) as [c1 Hv].
    destruct Hv as (_ & _ & _ & _ & Hctl & Hwork). split.
    + intros Hk. apply Hctl. now destruct (Controller cfg).
    + intros Hw. destruct (Worker cfg) as [w |]; [| contradiction].
      now apply (Hwork w).
Qed.

Lemma C5_listener_topology_witness :
  flow (Run (net := SampleNet.net) (Examples.env Inputs.noPurpose [])
          initialCommand) = Next 1.
Proof.
  refine (proj1 (C5_listener_topology (net := SampleNet.net)
                   (Examples.env Inputs.noPurpose []) Inputs.noPurpose
                   initialCommand eq_refl) _).
  eexists. split; [left; reflexivity | discriminate].
Defined.

(** With two api listeners and two cluster listeners the listeners are
    set up all the same: the validation does not ask for exactly one. *)
Lemma C5_doubled_listeners :
  In SetupListeners
    (trace (Run (net := SampleNet.net)
              (Examples.env Inputs.doubledListeners [ContextDone])
              initialCommand)) /\
  countPurpose "api" (Listeners Inputs.doubledListeners) = 2%nat /\
  countPurpose "cluster" (Listeners Inputs.doubledListeners) = 2%nat.
Proof.
  split; [| split; reflexivity].
  vm_compute. do 7 right. left. reflexivity.
Qed.

(** ** The cluster listener of a controller (C9) *)

Lemma In_cluster (purposes : list string) :
  In "cluster" purposes -> existsb (String.eqb "cluster") purposes = true.
Proof.
  intros H. apply existsb_exists. exists "cluster". split; trivial.
Qed.

(** C9: with a controller block, a cluster listener whose address, the
    port stripped, parses as an unspecified IP makes [Run] return 1 when
    [public_cluster_addr] is empty. *)
Theorem C9_unspecified_cluster_listener {net : NetLib} (env : Env)
    (cfg : ConfigT) (k : ControllerBlock) (c0 : Command) (ln : Listener)
    (host : string) (ip : IP) :
  loadFile env = LoadOk cfg ->
  Controller cfg = Some k ->
  PublicClusterAddr k = "" ->
  In ln (Listeners cfg) ->
  In "cluster" (Purpose ln) ->
  stripPort (Address ln) = Some host ->
  ParseIP host = Some ip ->
  IsUnspecified ip = true ->
  flow (Run env c0) = Next 1.
Proof.
  intros Hload Hk Hpub Hln Hp Hs Hip Hu.
  destruct (Run_body_checked env cfg Hload c0) as [H | (_ & Hcl & _)];
    [now apply Run_exit1 |].
  specialize (Hcl k Hk). rewrite forallb_forall in Hcl. apply Hcl in Hln.
  unfold clusterListenerCheck, clusterAddrCheck in Hln.
  rewrite (In_cluster _ Hp), Hs, Hip, Hu, Hpub in Hln. discriminate.
Qed.

Lemma C9_unspecified_cluster_listener_witness :
  flow (Run (net := SampleNet.net)
          (Examples.env Inputs.unspecifiedCluster []) initialCommand) = Next 1.
Proof.
  apply (C9_unspecified_cluster_listener (net := SampleNet.net)
           (Examples.env Inputs.unspecifiedCluster [])
           Inputs.unspecifiedCluster (Examples.controllerBlock "")
           initialCommand (Examples.listener "cluster" "0.0.0.0:9201")
           "0.0.0.0" [0; 0; 0; 0]%nat);
    try reflexivity.
  - right. left. reflexivity.
  - left. reflexivity.
Defined.

(** ** The upstreams of a worker (C10) *)

(** C10: with a worker block, an upstream whose host, the port stripped,
    parses as an unspecified or a multicast IP makes [Run] return 1; an
    upstream whose host is no IP, or is another IP, passes the check of the
    loop, which goes on to the next entry. *)
Theorem C10_upstream_addresses {net : NetLib} (env : Env) (cfg : ConfigT)
    (w : WorkerBlock) (c0 : Command) (e host : string) :
  loadFile env = LoadOk cfg ->
  Worker cfg = Some w ->
  stripPort e = Some host ->
  (In e (Controllers w) ->
   (exists ip, ParseIP host = Some ip /\
               (IsUnspecified ip = true \/ IsMulticast ip = true)) ->
   flow (Run env c0) = Next 1) /\
  ((ParseIP host = None \/
    exists ip, ParseIP host = Some ip /\
               IsUnspecified ip = false /\ IsMulticast ip = false) ->
   forall rest c, Run_controllers (e :: rest) c = Run_controllers rest c).
Proof.
  intros Hload Hw Hs. split.
  - intros Hin (ip & Hip & Hbad).
    destruct (Run_body_checked env cfg Hload c0) as [H | [[c1 Hv] _]];
      [now apply Run_exit1 |].
    destruct Hv as (_ & _ & _ & _ & _ & Hwork).
    destruct (Hwork w Hw) as (_ & Hchk & _).
    rewrite forallb_forall in Hchk. apply Hchk in Hin.
    unfold upstreamCheck in Hin. rewrite Hs, Hip in Hin.
    destruct Hbad as [Hb | Hb]; rewrite Hb in Hin;
      [| rewrite andb_false_r in Hin]; discriminate.
  - intros Hgood rest c. cbn [Run_controllers].
    unfold stripPort in Hs.
    destruct (SplitHostPort e) as [[h p] [m |]].
    + destruct (strings.Contains m "missing port in address");
        [| discriminate].
      injection Hs as <-.
      destruct Hgood as [Hn | (ip & Hip & Hu & Hm)].
      * unfold bind, ret. cbn beta iota zeta. rewrite Hn. cbn.
        now destruct (Run_controllers rest c) as [[t c'] f].
      * unfold bind, ret. cbn beta iota zeta. rewrite Hip, Hu, Hm. cbn.
        now destruct (Run_controllers rest c) as [[t c'] f].
    + injection Hs as <-.
      destruct Hgood as [Hn | (ip & Hip & Hu & Hm)].
      * unfold bind, ret. cbn beta iota zeta. rewrite Hn. cbn.
        now destruct (Run_controllers rest c) as [[t c'] f].
      * unfold bind, ret. cbn beta iota zeta. rewrite Hip, Hu, Hm. cbn.
        now destruct (Run_controllers rest c) as [[t c'] f].
Qed.

Lemma C10_upstream_addresses_witness :
  flow (Run (net := SampleNet.net)
          (Examples.env Inputs.multicastUpstream []) initialCommand) = Next 1
  /\
  forall rest c,
    Run_controllers (net := SampleNet.net)
      ("boundary.example.com:9201" :: rest) c
    = Run_controllers (net := SampleNet.net) rest c.
Proof.
  split.
  - refine (proj1 (C10_upstream_addresses (net := SampleNet.net)
                     (Examples.env Inputs.multicastUpstream [])
                     Inputs.multicastUpstream
                     (Examples.workerBlock ["224.0.0.1:9201"])
                     initialCommand "224.0.0.1:9201" "224.0.0.1"
                     eq_refl eq_refl eq_refl) _ _).
    + left. reflexivity.
    + exists [224; 0; 0; 1]%nat. split; [reflexivity | right; reflexivity].
  - refine (proj2 (C10_upstream_addresses (net := SampleNet.net)
                     (Examples.env Inputs.workerOnly [])
                     Inputs.workerOnly
                     (Examples.workerBlock ["boundary.example.com:9201"])
                     initialCommand "boundary.example.com:9201"
                     "boundary.example.com"
                     eq_refl eq_refl eq_refl) _).
    left. reflexivity.
Defined.

(** ** The schema state (C4) *)

Lemma schemaCheck_None (st : State) :
  schemaCheck st = None <->
  InitializationStarted st = true /\ Dirty st = false /\
  BinarySchemaVersion st = DatabaseSchemaVersion st.
Proof.
  unfold schemaCheck.
  destruct (InitializationStarted st), (Dirty st); cbn;
    try (split; [discriminate | intros (? & ? & ?); discriminate]).
  destruct (Z.gtb_spec (BinarySchemaVersion st) (DatabaseSchemaVersion st));
    [split; [discriminate | intros (_ & _ & ?); lia] |].
  destruct (Z.ltb_spec (BinarySchemaVersion st) (DatabaseSchemaVersion st));
    [split; [discriminate | intros (_ & _ & ?); lia] |].
  split; [intros _; repeat split; lia | reflexivity].
Qed.

(** C4: once the manager is attached under the shared lock and the state is
    read, [connectSchemaManager] answers with the not-initialized error when
    the initialization has not started, else with the dirty error, else
    with the error that asks for a migration when the binary is ahead of the
    database, else with the error that names the newer database version
    when the binary is behind; it answers nil exactly when the state is
    initialized, clean and at the binary's version; and with a controller
    block every other answer makes [Run] return 1. *)
Theorem C4_schema_state {net : NetLib} (env : Env) (cfg : ConfigT)
    (k : ControllerBlock) (c c0 : Command) (st : State) :
  answers env (schema_NewManager "postgres") = None ->
  answers env SharedLock = None ->
  currentState env = (st, None) ->
  let r := call (R' := Z) (connectSchemaManager env "postgres") c in
  (exists t,
     trace r = ([schema_NewManager "postgres"; SharedLock; CurrentState] ++ t)%list) /\
  (InitializationStarted st = false ->
   flow r = Next (Some "The database has not been initialized. Please run 'boundary database init'.")) /\
  (InitializationStarted st = true -> Dirty st = true ->
   flow r = Next (Some "Database is in a bad state. Please revert the database into the last known good state.")) /\
  (InitializationStarted st = true -> Dirty st = false ->
   (BinarySchemaVersion st > DatabaseSchemaVersion st)%Z ->
   flow r = Next (Some "Database schema must be updated to use this version. Run 'boundary database migrate' to update the database.")) /\
  (InitializationStarted st = true -> Dirty st = false ->
   (BinarySchemaVersion st < DatabaseSchemaVersion st)%Z ->
   flow r = Next (Some ("Newer schema version ("
                          ++ Sprintf_d (DatabaseSchemaVersion st)
                          ++ ") than this binary expects. Please use a newer version of the boundary binary."))) /\
  (flow r = Next None <->
   InitializationStarted st = true /\ Dirty st = false /\
   BinarySchemaVersion st = DatabaseSchemaVersion st) /\
  (loadFile env = LoadOk cfg -> Controller cfg = Some k ->
   flow r <> Next None -> flow (Run env c0) = Next 1).
Proof.
  intros Hm Hl Hs r.
  assert (Hr : r = (([schema_NewManager "postgres"; SharedLock; CurrentState]
                       ++ match schemaCheck st with
                          | Some _ => []
                          | None => [go_ensureManagerConnection]
                          end)%list,
                    set_ShutdownFuncs (ShutdownFuncs c ++ [SharedUnlockFunc])%list
                      (set_SchemaManager true c),
                    Next (schemaCheck st))).
  { unfold r, call.
    rewrite (connectSchemaManager_attached env "postgres" c st Hm Hl Hs).
    now destruct (schemaCheck st). }
  assert (Hf : flow r = Next (schemaCheck st)) by now rewrite Hr.
  split; [rewrite Hr; eexists; reflexivity |].
  rewrite Hf. unfold schemaCheck.
  split; [now intros -> |].
  split; [now intros -> -> |].
  split.
  { intros -> -> Hgt. cbn.
    destruct (Z.gtb_spec (BinarySchemaVersion st) (DatabaseSchemaVersion st));
      [reflexivity | lia]. }
  split.
  { intros -> -> Hlt. cbn.
    destruct (Z.gtb_spec (BinarySchemaVersion st) (DatabaseSchemaVersion st));
      [lia |].
    destruct (Z.ltb_spec (BinarySchemaVersion st) (DatabaseSchemaVersion st));
      [reflexivity | lia]. }
  fold (schemaCheck st). split.
  { rewrite <- schemaCheck_None. split; [now intros [= ->] | now intros ->]. }
  intros Hload Hk Hbad.
  destruct (Run_body_checked env cfg Hload c0) as [H | (_ & _ & Hsc)];
    [now apply Run_exit1 |].
  exfalso. apply Hbad. f_equal. apply Hsc; trivial. now rewrite Hk.
Qed.

Lemma C4_schema_state_witness :
  let env := Inputs.withState (Examples.env Examples.combined []) Inputs.oldDatabase in
  flow (call (R' := Z) (connectSchemaManager env "postgres") initialCommand)
  = Next (Some "Database schema must be updated to use this version. Run 'boundary database migrate' to update the database.")
  /\ flow (Run (net := SampleNet.net) env initialCommand) = Next 1.
Proof.
  intros env.
  destruct (C4_schema_state (net := SampleNet.net) env Examples.combined
              (Examples.controllerBlock "") initialCommand initialCommand
              Inputs.oldDatabase eq_refl eq_refl eq_refl)
    as (_ & _ & _ & Hmig & _ & _ & Hrun).
  split.
  - apply Hmig; reflexivity.
  - apply Hrun; try reflexivity. rewrite Hmig; [discriminate | | |];
      reflexivity.
Defined.

(** ** The PID file and the database (C7) *)

Lemma beforePid_not_database (e : Event) :
  beforePid e = true -> isDatabaseStep e = false.
Proof. destruct e; simpl; trivial; discriminate. Qed.

Lemma deferred_not_database (e : Event) :
  deferredEvent e = true -> isDatabaseStep e = false.
Proof. destruct e; simpl; trivial; discriminate. Qed.

Lemma Run_pid_first {net : NetLib} (env : Env) (A : Type)
    (rest : Prog Z A) (c : Command) :
  exists t,
    trace ((Run_pid env ;; rest) c) = StorePidFile (PidFile (Config c)) :: t.
Proof.
  unfold Run_pid, bind, get, ask, emit, ret, failWith1, return_, trace.
  cbn.
  destruct (answers env (StorePidFile (PidFile (Config c)))); cbn;
    [eexists; reflexivity |].
  destruct (rest c) as [[t c'] f]. cbn. eexists; reflexivity.
Qed.

Lemma trace_triple {R A : Type} (t : list Event) (c : Command)
    (f : Flow R A) :
  trace (t, c, f) = t.
Proof. reflexivity. Qed.

Lemma final_triple {R A : Type} (t : list Event) (c : Command)
    (f : Flow R A) :
  final (t, c, f) = c.
Proof. reflexivity. Qed.

Lemma flow_triple {R A : Type} (t : list Event) (c : Command)
    (f : Flow R A) :
  flow (t, c, f) = f.
Proof. reflexivity. Qed.

(** The trace of a run: events from before the PID file, then either the
    deferred calls alone, or the storing of the PID file and the rest. *)
Lemma Run_trace_pid {net : NetLib} (env : Env) (cfg : ConfigT)
    (c0 : Command) :
  loadFile env = LoadOk cfg ->
  exists tp td,
    Forall (fun e => beforePid e = true) tp /\
    Forall (fun e => deferredEvent e = true) td /\
    (trace (Run env c0) = (tp ++ td)%list \/
     exists p t, trace (Run env c0) = (tp ++ StorePidFile p :: t)%list).
Proof.
  intros Hload.
  destruct (Run_inv env c0) as (td & Htd & Ht & _).
  rewrite (Run_body_pid env) in Ht.
  destruct (post_bind_inv _ _
              (fun _ => Run_pid env ;; Run_database env ;; Run_start env) _ _
              (Run_upto_bind_post env cfg Hload c0))
    as [Hpre [[_ Heq] | (a & _ & _ & Heq)]];
    rewrite Heq, trace_triple in Ht;
    exists (trace (Run_upto_bind env c0)), td;
    (split; [exact Hpre |]); (split; [exact Htd |]).
  - now left.
  - right.
    destruct (Run_pid_first env _ (Run_database env ;; Run_start env)
                (final (Run_upto_bind env c0))) as [t Hpid].
    rewrite Hpid, <- app_assoc in Ht. cbn [app] in Ht. eauto.
Qed.

(** C7, what the code does: whenever a run takes a step on the database
    (parsing the URL, connecting, attaching the schema manager, looking for
    the root key), it has asked for the PID file to be stored before, and
    no step on the database comes before that. *)
Theorem C7_pid_file_before_database {net : NetLib} (env : Env)
    (cfg : ConfigT) (c0 : Command) (e : Event) :
  loadFile env = LoadOk cfg ->
  isDatabaseStep e = true ->
  In e (trace (Run env c0)) ->
  exists t1 p t2,
    trace (Run env c0) = (t1 ++ StorePidFile p :: t2)%list /\
    Forall (fun e' => isDatabaseStep e' = false) t1.
Proof.
  intros Hload He Hin.
  destruct (Run_trace_pid env cfg c0 Hload)
    as (tp & td & Hpre & Htd & [Ht | (p & t & Ht)]).
  - exfalso. rewrite Ht in Hin. apply in_app_or in Hin.
    rewrite Forall_forall in Hpre, Htd.
    destruct Hin as [Hin | Hin].
    + apply Hpre, beforePid_not_database in Hin. congruence.
    + apply Htd, deferred_not_database in Hin. congruence.
  - exists tp, p, t. split; [exact Ht |].
    eapply Forall_impl; [| exact Hpre]. exact beforePid_not_database.
Qed.

Lemma C7_pid_file_before_database_witness :
  exists t1 p t2,
    trace (Run (net := SampleNet.net)
             (Examples.env Examples.combined [ContextDone]) initialCommand)
    = (t1 ++ StorePidFile p :: t2)%list /\
    Forall (fun e' => isDatabaseStep e' = false) t1.
Proof.
  apply (C7_pid_file_before_database (net := SampleNet.net)
           (Examples.env Examples.combined [ContextDone]) Examples.combined
           initialCommand (ConnectToDatabase "postgres") eq_refl eq_refl).
  vm_compute. do 12 right. left. reflexivity.
Defined.

(** ** The liveness loop of the schema manager (C2) *)


(** An iteration whose ping fails while the context is alive. *)
Lemma ensureManagerConnection_recovery (k : Tick) (rest : list Tick)
    (c : Command) :
  pingFails k = true ->
  ensureManagerConnection (k :: rest) c =
    if recovers k then
      (([Ping; schema_NewManager "postgres"; SharedLock]
          ++ trace (ensureManagerConnection rest (set_SchemaManager true c)))%list,
       final (ensureManagerConnection rest (set_SchemaManager true c)),
       flow (ensureManagerConnection rest (set_SchemaManager true c)))
    else
      ((Ping :: recoveryEvents k ++ [UI_Error lostConnection; CancelFn])%list,
       set_SchemaManager (isNil (NewManager_err k)) c,
       Return tt).
Proof.
  intros Hp. cbn [ensureManagerConnection]. unfold pingFails in Hp.
  unfold bind at 1. cbn [emit]. rewrite Hp.
  unfold recovers, recoveryEvents, bind, emit, modify, return_, trace,
    final, flow.
  destruct (NewManager_err k); cbn; trivial.
  destruct (SharedLock_err k); cbn; trivial.
  now destruct (ensureManagerConnection rest (set_SchemaManager true c))
    as [[t c'] f].
Qed.

(** An iteration whose ping succeeds, or whose context is cancelled:
    it waits, and stops or goes on; it cancels nothing. *)
Lemma ensureManagerConnection_wait (k : Tick) (rest : list Tick)
    (c : Command) :
  pingFails k = false ->
  ensureManagerConnection (k :: rest) c =
    if select_Done k then ([Ping], c, Return tt)
    else
      ((Ping :: ticker_Reset :: trace (ensureManagerConnection rest c))%list,
       final (ensureManagerConnection rest c),
       flow (ensureManagerConnection rest c)).
Proof.
  intros Hp. cbn [ensureManagerConnection]. unfold pingFails in Hp.
  unfold bind at 1. cbn [emit]. rewrite Hp.
  unfold bind, emit, return_, trace, final, flow.
  destruct (select_Done k); cbn; trivial.
  now destruct (ensureManagerConnection rest c) as [[t c'] f].
Qed.

(** Where the loop cancels the root context. *)
Lemma ensureManagerConnection_cancel (ticks : list Tick) :
  forall c,
    In CancelFn (trace (ensureManagerConnection ticks c)) ->
    exists pre k rest,
      ticks = (pre ++ k :: rest)%list /\
      flow (ensureManagerConnection pre c) = Blocked /\
      ~ In CancelFn (trace (ensureManagerConnection pre c)) /\
      pingFails k = true /\ recovers k = false /\
      trace (ensureManagerConnection ticks c) =
        (trace (ensureManagerConnection pre c)
           ++ Ping :: recoveryEvents k ++ [UI_Error lostConnection; CancelFn])%list /\
      flow (ensureManagerConnection ticks c) = Return tt.
Proof.
  induction ticks as [| k rest IH]; intros c Hin.
  - cbn in Hin. contradiction.
  - destruct (pingFails k) eqn:Hp.
    + rewrite (ensureManagerConnection_recovery k rest c Hp) in *.
      destruct (recovers k) eqn:Hr.
      * rewrite trace_triple in Hin.
        destruct Hin as [Hin | [Hin | [Hin | Hin]]]; try discriminate.
        destruct (IH _ Hin) as (pre & k' & rest' & -> & Hb & Hn & Hp' & Hr' & Ht & Hf).
        exists (k :: pre), k', rest'. split; [reflexivity |].
        cbn [app].
        rewrite (ensureManagerConnection_recovery k pre c Hp), Hr.
        rewrite !trace_triple, !flow_triple.
        repeat split; trivial.
        -- intros [H | [H | [H | H]]]; try discriminate. now apply Hn.
        -- rewrite Ht. reflexivity.
      * exists [], k, rest. rewrite trace_triple, flow_triple.
        repeat split; trivial. cbn. tauto.
    + rewrite (ensureManagerConnection_wait k rest c Hp) in *.
      destruct (select_Done k) eqn:Hd.
      * cbn in Hin. destruct Hin as [Hin | []]. discriminate.
      * rewrite trace_triple in Hin.
        destruct Hin as [Hin | [Hin | Hin]]; try discriminate.
        destruct (IH _ Hin) as (pre & k' & rest' & -> & Hb & Hn & Hp' & Hr' & Ht & Hf).
        exists (k :: pre), k', rest'. split; [reflexivity |].
        cbn [app].
        rewrite (ensureManagerConnection_wait k pre c Hp), Hd.
        rewrite !trace_triple, !flow_triple.
        repeat split; trivial.
        -- intros [H | [H | H]]; try discriminate. now apply Hn.
        -- rewrite Ht. reflexivity.
Qed.


(** The loop on [pre ++ l], when no iteration of [pre] leaves it, is the
    loop on [pre] and then the loop on [l]. *)
Lemma ensureManagerConnection_app (pre l : list Tick) :
  forall c,
    flow (ensureManagerConnection pre c) = Blocked ->
    ensureManagerConnection (pre ++ l) c =
      ((trace (ensureManagerConnection pre c)
          ++ trace (ensureManagerConnection l
                      (final (ensureManagerConnection pre c))))%list,
       final (ensureManagerConnection l (final (ensureManagerConnection pre c))),
       flow (ensureManagerConnection l (final (ensureManagerConnection pre c)))).
Proof.
  induction pre as [| k pre IH]; intros c Hb.
  - cbn. now destruct (ensureManagerConnection l c) as [[t c'] f].
  - cbn [app]. destruct (pingFails k) eqn:Hp.
    + rewrite (ensureManagerConnection_recovery k pre c Hp) in *.
      rewrite (ensureManagerConnection_recovery k (pre ++ l) c Hp).
      destruct (recovers k); [| discriminate].
      rewrite flow_triple in Hb. rewrite (IH _ Hb).
      now rewrite !trace_triple, !final_triple, !flow_triple.
    + rewrite (ensureManagerConnection_wait k pre c Hp) in *.
      rewrite (ensureManagerConnection_wait k (pre ++ l) c Hp).
      destruct (select_Done k); [discriminate |].
      rewrite flow_triple in Hb. rewrite (IH _ Hb).
      now rewrite !trace_triple, !final_triple, !flow_triple.
Qed.

(** C2: in an iteration of the liveness loop that the loop reaches, when
    the ping fails and the root context is not cancelled, the loop makes one
    recovery attempt, a new schema manager and then a fresh shared lock; if
    both succeed it goes on with the next iteration, and if either fails it
    reports, calls the cancel function and returns.  The cancel function is
    called on no other path: a trace with [CancelFn] ends with a failed
    recovery. *)
Theorem C2_liveness_recovery (ticks : list Tick) (c : Command) :
  (forall pre k rest,
     ticks = (pre ++ k :: rest)%list ->
     flow (ensureManagerConnection pre c) = Blocked ->
     pingFails k = true ->
     let c1 := final (ensureManagerConnection pre c) in
     let next := ensureManagerConnection rest (set_SchemaManager true c1) in
     trace (ensureManagerConnection ticks c) =
       (trace (ensureManagerConnection pre c)
          ++ Ping :: recoveryEvents k
          ++ (if recovers k then trace next
              else [UI_Error lostConnection; CancelFn]))%list /\
     flow (ensureManagerConnection ticks c) =
       (if recovers k then flow next else Return tt)) /\
  (In CancelFn (trace (ensureManagerConnection ticks c)) ->
   exists pre k rest,
     ticks = (pre ++ k :: rest)%list /\
     flow (ensureManagerConnection pre c) = Blocked /\
     ~ In CancelFn (trace (ensureManagerConnection pre c)) /\
     pingFails k = true /\ recovers k = false /\
     trace (ensureManagerConnection ticks c) =
       (trace (ensureManagerConnection pre c)
          ++ Ping :: recoveryEvents k ++ [UI_Error lostConnection; CancelFn])%list /\
     flow (ensureManagerConnection ticks c) = Return tt).
Proof.
  split; [| apply ensureManagerConnection_cancel].
  intros pre k rest -> Hb Hp c1 next.
  rewrite (ensureManagerConnection_app pre (k :: rest) c Hb).
  rewrite trace_triple, flow_triple. fold c1.
  rewrite (ensureManagerConnection_recovery k rest c1 Hp).
  fold next. unfold recovers, recoveryEvents.
  destruct (NewManager_err k); cbn [isNil andb];
    [now rewrite trace_triple, flow_triple |].
  destruct (SharedLock_err k); cbn [isNil andb];
    now rewrite trace_triple, flow_triple.
Qed.

Lemma C2_liveness_recovery_witness :
  let ok := {| Ping_err := None; Context_Err := None; NewManager_err := None;
               SharedLock_err := None; select_Done := false |} in
  let lost := {| Ping_err := Some "connection refused"; Context_Err := None;
                 NewManager_err := None;
                 SharedLock_err := Some "connection refused";
                 select_Done := false |} in
  trace (ensureManagerConnection [ok; lost; ok] initialCommand)
  = [Ping; ticker_Reset; Ping; schema_NewManager "postgres"; SharedLock;
     UI_Error lostConnection; CancelFn]
  /\ flow (ensureManagerConnection [ok; lost; ok] initialCommand) = Return tt.
Proof.
  intros ok lost.
  exact (proj1 (C2_liveness_recovery [ok; lost; ok] initialCommand)
           [ok] lost [ok] eq_refl eq_refl eq_refl).
Defined.

(** ** Reload and the dispatch loop (C6, C3) *)

Section Dispatch.

Variable env : Env.

Lemma Reload_relFuncs_eq (k : string) (relFuncs : list RelFunc) :
  forall (i : nat) (errs : list string) (c : Command),
    Reload_relFuncs k i relFuncs errs c =
      (relFuncCalls k i relFuncs, c, Next (errs ++ relFuncErrors relFuncs)%list).
Proof.
  induction relFuncs as [| [[m |] |] rest IH]; intros i errs c;
    cbn [Reload_relFuncs relFuncCalls relFuncErrors].
  - unfold ret. now rewrite app_nil_r.
  - unfold bind, emit. rewrite IH. cbn. now rewrite <- app_assoc.
  - unfold bind, emit. rewrite IH. reflexivity.
  - apply IH.
Qed.

Lemma Reload_range_eq (m : list (string * list RelFunc)) :
  forall (errs : list string) (c : Command),
    Reload_range m errs c =
      (reloadCalls m, c, Next (errs ++ reloadErrors m)%list).
Proof.
  unfold reloadCalls, reloadErrors, listenerKeyed.
  induction m as [| [k relFuncs] rest IH]; intros errs c;
    cbn [Reload_range filter flat_map fst snd].
  - unfold ret. now rewrite app_nil_r.
  - destruct (strings.HasPrefix k "listener|"); unfold bind.
    + rewrite Reload_relFuncs_eq, IH. cbn [flat_map fst snd].
      now rewrite app_assoc.
    + unfold ret. rewrite IH. reflexivity.
Qed.

Lemma Reload_eq (c : Command) :
  Reload env c =
    ((reloadCalls (ReloadFuncs c) ++ [ReloadedCh_send])%list, c,
     Next (ErrorOrNil env (reloadErrors (ReloadFuncs c)))).
Proof.
  unfold Reload, bind, get, emit, ret. rewrite Reload_range_eq. reflexivity.
Qed.

Lemma reloadCalls_quiet (m : list (string * list RelFunc)) :
  Forall (fun e => isShutdown e = false) (reloadCalls m).
Proof.
  unfold reloadCalls. apply Forall_flat_map, Forall_forall.
  intros [k relFuncs] _. cbn [fst snd]. generalize 0%nat.
  induction relFuncs as [| [r |] rest IH]; intros i; cbn; auto.
Qed.

Lemma reported_quiet (prefix : string) (err : error) :
  Forall (fun e => isShutdown e = false) (reported prefix err).
Proof. destruct err; repeat constructor. Qed.

(** The log level part of a reload. *)
Lemma WaitForInterrupt_logLevel_cases (reloaded : LoadResult) (c : Command) :
  exists t c',
    WaitForInterrupt_logLevel env reloaded c = (t, c', Next tt) /\
    Forall (fun e => isShutdown e = false) t /\
    steady c c' /\
    forall newConf,
      reloaded = LoadOk newConf ->
      flagConfig (flags c) <> "" ->
      LogLevel newConf <> "" ->
      match logLevelOf
              (strings_ToLower env (strings_TrimSpace env (LogLevel newConf)))
      with
      | Some level =>
          t = [config_LoadFile (flagConfig (flags c)); Logger_SetLevel level] /\
          c' = set_LoggerLevel level c
      | None =>
          t = [config_LoadFile (flagConfig (flags c));
               Logger_Error "unknown log level found on reload"
                 ["level"; LogLevel newConf]] /\
          c' = c
      end.
Proof.
  unfold WaitForInterrupt_logLevel, bind, get, emit, ret, modify.
  cbn beta iota.
  destruct (flagConfig (flags c) =? "") eqn:Hf.
  { apply String.eqb_eq in Hf. do 2 eexists. split; [reflexivity |].
    split; [constructor |]. split; [now repeat split |]. congruence. }
  destruct reloaded as [m | | newConf]; cbn.
  - do 2 eexists. split; [reflexivity |]. split; [repeat constructor |].
    split; [now repeat split | discriminate].
  - do 2 eexists. split; [reflexivity |]. split; [repeat constructor |].
    split; [now repeat split | discriminate].
  - destruct (LogLevel newConf =? "") eqn:Hl; cbn.
    { apply String.eqb_eq in Hl. do 2 eexists. split; [reflexivity |].
      split; [repeat constructor |]. split; [now repeat split |].
      intros ? [= <-] _ H. congruence. }
    destruct (logLevelOf
                (strings_ToLower env (strings_TrimSpace env (LogLevel newConf))))
      as [level |] eqn:Hlv; cbn.
    + do 2 eexists. split; [reflexivity |]. split; [repeat constructor |].
      split; [now repeat split |]. intros ? [= <-] _ _. now rewrite Hlv.
    + do 2 eexists. split; [reflexivity |]. split; [repeat constructor |].
      split; [now repeat split |]. intros ? [= <-] _ _. now rewrite Hlv.
Qed.

(** A reload, given its log level part. *)
Lemma WaitForInterrupt_sighup_eq (reloaded : LoadResult) (c : Command)
    (t : list Event) (c' : Command) :
  WaitForInterrupt_logLevel env reloaded c = (t, c', Next tt) ->
  WaitForInterrupt_sighup env reloaded c =
    ((UI_Output "==> Boundary server reload triggered" :: t
        ++ reloadCalls (ReloadFuncs c') ++ [ReloadedCh_send]
        ++ reported "Error(s) were encountered during server reload: "
             (ErrorOrNil env (reloadErrors (ReloadFuncs c'))))%list,
     c', Next tt).
Proof.
  intros Hl. unfold WaitForInterrupt_sighup, bind, call, emit.
  rewrite Hl, Reload_eq. cbn.
  destruct (ErrorOrNil env (reloadErrors (ReloadFuncs c'))); cbn;
    unfold ret; cbn; now rewrite <- !app_assoc, ?app_nil_r.
Qed.

Lemma WaitForInterrupt_sighup_steady (reloaded : LoadResult) (c : Command) :
  exists t c',
    WaitForInterrupt_sighup env reloaded c = (t, c', Next tt) /\
    Forall (fun e => isShutdown e = false) t /\ steady c c'.
Proof.
  destruct (WaitForInterrupt_logLevel_cases reloaded c)
    as (t & c' & Hl & Hq & Hs & _).
  rewrite (WaitForInterrupt_sighup_eq reloaded c t c' Hl).
  do 2 eexists. split; [reflexivity |]. split; [| exact Hs].
  constructor; [reflexivity |].
  repeat (apply Forall_app; split); trivial.
  - apply reloadCalls_quiet.
  - repeat constructor.
  - apply reported_quiet.
Qed.

(** The signals before the context is done: the loop handles them, keeps
    the receiver steady, shuts nothing down, and goes on. *)
Lemma WaitForInterrupt_loop_pre (pre l : list Signal) :
  forall c,
    ~ In ContextDone pre ->
    exists t c',
      Forall (fun e => isShutdown e = false) t /\ steady c c' /\
      WaitForInterrupt_loop env (pre ++ l) c =
        ((t ++ trace (WaitForInterrupt_loop env l c'))%list,
         final (WaitForInterrupt_loop env l c'),
         flow (WaitForInterrupt_loop env l c')).
Proof.
  induction pre as [| s pre IH]; intros c Hn.
  - exists [], c. split; [constructor |]. split; [now repeat split |].
    cbn. now destruct (WaitForInterrupt_loop env l c) as [[t c'] f].
  - assert (Hn' : ~ In ContextDone pre) by (intros H; apply Hn; now right).
    destruct s as [| reloaded | stack]; [exfalso; apply Hn; now left | |];
      cbn [app WaitForInterrupt_loop].
    + destruct (WaitForInterrupt_sighup_steady reloaded c)
        as (t1 & c1 & H1 & Hq1 & Hs1).
      destruct (IH c1 Hn') as (t2 & c2 & Hq2 & Hs2 & H2).
      exists (t1 ++ t2)%list, c2. split; [now apply Forall_app |].
      split.
      { unfold steady in *. intuition congruence. }
      unfold bind. rewrite H1, H2. now rewrite app_assoc.
    + destruct (IH c Hn') as (t2 & c2 & Hq2 & Hs2 & H2).
      exists (runtime_Stack :: Logger_Info "goroutine trace" ["stack"; stack]
                :: t2), c2.
      split; [repeat constructor; exact Hq2 |]. split; [exact Hs2 |].
      unfold bind, emit. rewrite H2. reflexivity.
Qed.

(** The shutdown the loop makes when the context is done, the servers
    of the configured blocks being there. *)
Lemma WaitForInterrupt_done_eq (c : Command) :
  (Worker (Config c) <> None -> worker c = true) ->
  (Controller (Config c) <> None -> controller c = true) ->
  WaitForInterrupt_done env c = (shutdownEvents env (Config c), c, Next tt).
Proof.
  intros Hw Hk.
  unfold WaitForInterrupt_done, shutdownEvents, c_worker_Shutdown,
    c_controller_Shutdown, ask, bind, get, emit, ret.
  cbn beta iota.
  destruct (Worker (Config c)) as [w |];
    destruct (Controller (Config c)) as [k |]; cbn [isNil negb];
    try rewrite Hw by discriminate; try rewrite Hk by discriminate;
    cbn beta iota;
    repeat match goal with
           | |- context [answers env ?e] => destruct (answers env e)
           end;
    cbn; try rewrite Hk by discriminate; cbn;
    repeat match goal with
           | |- context [answers env ?e] => destruct (answers env e)
           end;
    reflexivity.
Qed.

End Dispatch.

(** C3: when the context is done while the dispatch loop runs, whatever
    signals the loop has handled before, [WaitForInterrupt] prints the
    banner, shuts the worker down when a worker block is configured, then
    shuts the controller down when a controller block is configured,
    passing it whether a worker block is configured, leaves the loop and
    returns 0; nothing was shut down before. *)
Theorem C3_shutdown_order (env : Env) (pre rest : list Signal)
    (c : Command) :
  ~ In ContextDone pre ->
  (Worker (Config c) <> None -> worker c = true) ->
  (Controller (Config c) <> None -> controller c = true) ->
  exists t,
    Forall (fun e => isShutdown e = false) t /\
    trace (WaitForInterrupt_on env (pre ++ ContextDone :: rest) c)
    = (t ++ shutdownEvents env (Config c))%list /\
    flow (WaitForInterrupt_on env (pre ++ ContextDone :: rest) c) = Next 0.
Proof.
  intros Hn Hw Hk.
  destruct (WaitForInterrupt_loop_pre env pre (ContextDone :: rest) c Hn)
    as (t & c' & Hq & (Hc & _ & Hw' & Hk' & _) & Hl).
  exists t. split; [exact Hq |].
  unfold WaitForInterrupt_on, bind. rewrite Hl.
  cbn [WaitForInterrupt_loop].
  rewrite (WaitForInterrupt_done_eq env c')
    by (rewrite Hc, ?Hw', ?Hk'; assumption).
  rewrite trace_triple, final_triple, flow_triple. cbn.
  rewrite Hc, app_nil_r. now split.
Qed.

Lemma C3_shutdown_order_witness :
  exists t,
    Forall (fun e => isShutdown e = false) t /\
    trace (WaitForInterrupt_on
             (Examples.env Examples.combined [])
             [SigUSR2 "goroutine 1"; Sighup (LoadOk Examples.combined);
              ContextDone; Sighup LoadNil]
             (set_controller true
                (set_worker true (set_Config Examples.combined initialCommand))))
    = (t ++ [UI_Output "==> Boundary server shutdown triggered";
             worker_Shutdown false false; controller_Shutdown false true])%list
    /\
    flow (WaitForInterrupt_on
            (Examples.env Examples.combined [])
            [SigUSR2 "goroutine 1"; Sighup (LoadOk Examples.combined);
             ContextDone; Sighup LoadNil]
            (set_controller true
               (set_worker true (set_Config Examples.combined initialCommand))))
    = Next 0.
Proof.
  apply (C3_shutdown_order
           (Examples.env Examples.combined [])
           [SigUSR2 "goroutine 1"; Sighup (LoadOk Examples.combined)]
           [Sighup LoadNil]).
  - intros [H | [H | []]]; discriminate.
  - reflexivity.
  - reflexivity.
Defined.

(** [Run] enters the dispatch loop with the servers of the configured
    blocks started, so that the shutdown it makes when the context is done
    is the one of [shutdownEvents]. *)
Lemma Run_start_shutdown (env : Env) (c : Command) (pre rest : list Signal) :
  signals env = (pre ++ ContextDone :: rest)%list ->
  ~ In ContextDone pre ->
  (Controller (Config c) <> None ->
   answers env controller_New = None /\ answers env controller_Start = None) ->
  (Worker (Config c) <> None ->
   answers env worker_New = None /\ answers env worker_Start = None) ->
  exists t,
    Forall (fun e => isShutdown e = false) t /\
    trace (Run_start env c) = (t ++ shutdownEvents env (Config c))%list /\
    flow (Run_start env c) = Next 0.
Proof.
  intros Hs Hn Hk Hw.
  assert (Hloop : forall c1,
            Config c1 = Config c ->
            (Worker (Config c) <> None -> worker c1 = true) ->
            (Controller (Config c) <> None -> controller c1 = true) ->
            exists t c2,
              Forall (fun e => isShutdown e = false) t /\
              WaitForInterrupt env c1
              = ((t ++ shutdownEvents env (Config c))%list, c2, Next 0)).
  { intros c1 Hc Hw1 Hk1.
    destruct (WaitForInterrupt_loop_pre env pre (ContextDone :: rest) c1 Hn)
      as (t & c' & Hq & (Hc' & _ & Hw' & Hk' & _) & Hl).
    exists t, c'. split; [exact Hq |].
    unfold WaitForInterrupt, WaitForInterrupt_on, bind.
    rewrite Hs, Hl. cbn [WaitForInterrupt_loop].
    rewrite (WaitForInterrupt_done_eq env c')
      by (rewrite Hc', Hc, ?Hw', ?Hk'; assumption).
    rewrite trace_triple, final_triple, flow_triple. cbn.
    now rewrite Hc', Hc, app_nil_r. }
  assert (Hk' : Controller (Config c) <> None ->
                answers env controller_New = None) by (intros H; now apply Hk).
  assert (Hk'' : Controller (Config c) <> None ->
                 answers env controller_Start = None) by (intros H; now apply Hk).
  assert (Hw' : Worker (Config c) <> None ->
                answers env worker_New = None) by (intros H; now apply Hw).
  assert (Hw'' : Worker (Config c) <> None ->
                 answers env worker_Start = None) by (intros H; now apply Hw).
  clear Hk Hw.
  unfold Run_start, StartController, StartWorker, failWith1, defer, call, ask,
    bind, get, emit, modify, ret, trace, flow.
  destruct (Controller (Config c)) as [k |] eqn:Ek;
    destruct (Worker (Config c)) as [w |] eqn:Ew;
    try rewrite Hk' by discriminate; try rewrite Hk'' by discriminate;
    try rewrite Hw' by discriminate; try rewrite Hw'' by discriminate;
    repeat (progress (cbn; rewrite ?Ek, ?Ew));
    match goal with
    | |- context [WaitForInterrupt env ?st] =>
        destruct (Hloop st) as (t & c2 & Hq & Hcall);
          [reflexivity | intros; try reflexivity; congruence
          | intros; try reflexivity; congruence |];
          rewrite Hcall; repeat (progress (cbn; rewrite ?Ek, ?Ew))
    end.
  - exists (PrintInfo :: ReleaseLogGate :: controller_New :: controller_Start
              :: worker_New :: worker_Start :: t).
    split; [repeat constructor; exact Hq | split; reflexivity].
  - exists (PrintInfo :: ReleaseLogGate :: controller_New :: controller_Start
              :: t).
    split; [repeat constructor; exact Hq | split; reflexivity].
  - exists (PrintInfo :: ReleaseLogGate :: worker_New :: worker_Start :: t).
    split; [repeat constructor; exact Hq | split; reflexivity].
  - exists (PrintInfo :: ReleaseLogGate :: t).
    split; [repeat constructor; exact Hq | split; reflexivity].
Qed.





(** ** A worker that fails to start (C8) *)

Ltac in_list := repeat (first [left; reflexivity | right]).

(** C8, what the code does: when the worker fails to start, [Run] shuts
    down the controller through [c.controller]: the started controller in a
    combined config, after which it returns 1; in a config with a worker
    block only, where [c.controller] is nil, the same call is made through
    the nil pointer, and [Run] panics when that call dereferences it. *)
Theorem C8_worker_start_failure (env : Env) (c : Command)
    (m : string) :
  Worker (Config c) <> None ->
  answers env worker_New = None ->
  answers env worker_Start = Some m ->
  (Controller (Config c) <> None ->
   answers env controller_New = None ->
   answers env controller_Start = None ->
   In (controller_Shutdown false false) (trace (Run_start env c)) /\
   flow (Run_start env c) = Return 1) /\
  (Controller (Config c) = None ->
   controller c = false ->
   In (controller_Shutdown true false) (trace (Run_start env c)) /\
   (controller_Shutdown_nil env = NilPanics ->
    flow (Run_start env c) = Panic) /\
   (forall e, controller_Shutdown_nil env = NilReturns e ->
              flow (Run_start env c) = Return 1)).
Proof.
  intros Hw Hwn Hws.
  destruct (Worker (Config c)) as [w |] eqn:Ew; [clear Hw | contradiction].
  split.
  - intros Hk Hkn Hks.
    destruct (Controller (Config c)) as [k |] eqn:Ek; [clear Hk | contradiction].
    unfold Run_start, StartController, StartWorker, c_worker_Shutdown,
      c_controller_Shutdown, failWith1, defer, call, ask, bind, get, emit,
      modify, ret, return_, trace, flow.
    repeat (progress (cbn; rewrite ?Ew, ?Ek, ?Hkn, ?Hks, ?Hwn, ?Hws)).
    destruct (answers env (worker_Shutdown false false)); cbn;
      destruct (answers env (controller_Shutdown false false)); cbn;
      (split; [in_list | reflexivity]).
  - intros Hk Hkc.
    unfold Run_start, StartController, StartWorker, c_worker_Shutdown,
      c_controller_Shutdown, failWith1, defer, call, ask, bind, get, emit,
      modify, ret, return_, panic, trace, flow.
    repeat (progress (cbn; rewrite ?Ew, ?Hk, ?Hwn, ?Hws, ?Hkc)).
    destruct (answers env (worker_Shutdown false false));
      repeat (progress (cbn; rewrite ?Hkc));
      destruct (controller_Shutdown_nil env) as [| [e' |]]; cbn;
      (split; [in_list |]); split; intros; congruence.
Qed.

Lemma C8_worker_start_failure_witness :
  let env := Inputs.workerStartFails (Examples.env Inputs.workerOnly [])
               "dial tcp: connection refused" NilPanics in
  let c := set_Config Inputs.workerOnly initialCommand in
  In (controller_Shutdown true false)
    (trace (Run_start env c)) /\
  flow (Run_start env c) = Panic.
Proof.
  intros env c.
  destruct (proj2 (C8_worker_start_failure env c
                     "dial tcp: connection refused"
                     ltac:(discriminate) eq_refl eq_refl)
              eq_refl eq_refl) as (Hin & Hpanic & _).
  split; [exact Hin | exact (Hpanic eq_refl)].
Defined.

(** The whole run of a worker alone whose start fails. *)
Example Run_worker_only_start_fails :
  let env := Inputs.workerStartFails (Examples.env Inputs.workerOnly [])
               "dial tcp: connection refused" NilPanics in
  Run (net := SampleNet.net) env initialCommand =
    ([flags_Parse; GetWrapperFromPath "/etc/boundary/server.hcl";
      config_LoadFile "/etc/boundary/server.hcl"; SetupLogging;
      StartMemProfiler; SetupMetrics; SetupKMSes; SetupListeners;
      SetupWorkerPublicAddress; StorePidFile "/run/boundary.pid";
      PrintInfo; ReleaseLogGate; worker_New; worker_Start;
      worker_Shutdown false false;
      UI_Error "Error starting worker: dial tcp: connection refused";
      controller_Shutdown true false; RunShutdownFuncs; CancelFn],
     final (Run (net := SampleNet.net) env initialCommand), Panic).
Proof. vm_compute. reflexivity. Qed.

(** ** Start-up, stage by stage, with what each stage has checked *)

Lemma length_nonempty (s : string) :
  (String.length s =? 0)%nat = false -> s <> "".
Proof. intros H ->. discriminate. Qed.

Lemma configNamed_intro (cfg : ConfigT) :
  isNil (Controller cfg) && isNil (Worker cfg) = false ->
  match Controller cfg with
  | Some k => Controller_Name k =? ""
  | None => false
  end = false ->
  match Worker cfg with
  | Some w => Worker_Name w =? ""
  | None => false
  end = false ->
  configNamed cfg = true.
Proof.
  unfold configNamed. intros -> Hk Hw.
  destruct (Controller cfg), (Worker cfg); cbn in *;
    rewrite ?Hk, ?Hw; reflexivity.
Qed.

Section StrictStages.

Context {net : NetLib}.
Variable env : Env.
Variable cfg : ConfigT.
Hypothesis Hload : loadFile env = LoadOk cfg.

Lemma ParseFlagsAndConfig_strict (c : Command) :
  wp (ParseFlagsAndConfig env)
     (post beforeListeners
        (fun r c' =>
           r = 0 /\ Config c' = cfg /\ flagsParsed env /\
           configNamed cfg = true)) c.
Proof.
  unfold ParseFlagsAndConfig, flagsParsed.
  do 4 pstep.
  destruct (wrapperFromPath env) as [wrapper err].
  rewrite Hload.
  repeat pstep; cbn [fst snd]; repeat split; auto; try congruence;
    solve [ eapply length_nonempty; eassumption
          | apply configNamed_intro; assumption ].
Qed.

Lemma setUp_intro :
  flagsParsed env -> configNamed cfg = true ->
  answers env SetupLogging = None ->
  answers env SetupMetrics = None ->
  answers env SetupKMSes = None ->
  negb (isNil (Controller cfg)) && negb (RootKms_found env) = false ->
  negb (WorkerAuthKms_found env) = false ->
  setUp env cfg.
Proof.
  intros Hp Hn Hl Hm Hk Hr Hw. unfold setUp.
  repeat (split; [assumption |]). split.
  - intros Hc. rewrite Hc in Hr. now destruct (RootKms_found env).
  - now destruct (WorkerAuthKms_found env).
Qed.

Lemma Run_setup_strict (c : Command) :
  wp (Run_setup env)
     (post beforeListeners (fun _ c' => Config c' = cfg /\ setUp env cfg)) c.
Proof.
  unfold Run_setup.
  do 3 pstep.
  eapply post_bind; [apply post_call, ParseFlagsAndConfig_strict |].
  intros r c1 [-> | (-> & Hc & Hp & Hn)]; [repeat pstep |].
  repeat pstep; cbn [Config push_deferred set_globals_DefaultMaxRequestDuration];
    (split; [exact Hc |]); rewrite Hc in *;
    apply setUp_intro; assumption.
Qed.


Lemma post_and {A : Type} (E : Event -> bool) (m : Prog Z A)
    (P P' : A -> Command -> Prop) (c : Command) :
  wp m (post E P) c -> wp m (post E P') c ->
  wp m (post E (fun a c' => P a c' /\ P' a c')) c.
Proof.
  unfold wp, post. intros [Ht Hf] [_ Hf']. split; [exact Ht |].
  destruct (flow (m c)); auto.
Qed.

Lemma Run_combined_state (clusterAddr : string) (c : Command)
    (k : ControllerBlock) (w : WorkerBlock) :
  Controller (Config c) = Some k ->
  Worker (Config c) = Some w ->
  wp (Run_combined clusterAddr)
     (post beforeListeners
        (fun _ c' =>
           Config c' =
             match Controllers w with
             | [] =>
                 set_Worker (Config c)
                   (Some (set_Controllers w [defaultUpstream k clusterAddr]))
             | _ => Config c
             end)) c.
Proof.
  intros Hk Hw. unfold wp. rewrite (Run_combined_eq clusterAddr c k w Hk Hw).
  destruct (upstreamsOk k clusterAddr (Controllers w));
    unfold post, trace, final, flow; cbn [fst snd].
  - split; [constructor |]. now destruct (Controllers w).
  - split; [repeat constructor | reflexivity].
Qed.

Lemma Run_worker_config (clusterAddr : string) (foundProxy : bool)
    (c : Command) :
  wp (Run_worker clusterAddr foundProxy)
     (post beforeListeners
        (fun _ c' =>
           Config c' =
             match Controller (Config c), Worker (Config c) with
             | Some k, Some w =>
                 match Controllers w with
                 | [] =>
                     set_Worker (Config c)
                       (Some (set_Controllers w [defaultUpstream k clusterAddr]))
                 | _ => Config c
                 end
             | _, _ => Config c
             end)) c.
Proof.
  unfold Run_worker. pstep.
  destruct (Worker (Config c)) as [w |] eqn:Hw; cbn [isNil negb].
  2:{ pstep. now destruct (Controller (Config c)). }
  destruct foundProxy; cbn [negb]; [| repeat pstep].
  pstep.
  destruct (Controller (Config c)) as [k |] eqn:Hk; cbn [isNil negb].
  - eapply post_bind; [apply (Run_combined_state clusterAddr c k w Hk Hw) |].
    cbv beta. intros _ c1 Hc1.
    assert (Hw1 : exists w1, Worker (Config c1) = Some w1)
      by (rewrite Hc1; destruct (Controllers w); cbn; eauto).
    destruct Hw1 as [w1 Hw1].
    unfold Config_Worker. do 2 pstep. rewrite Hw1. pstep. eapply post_weaken; [apply Run_controllers_post |]. cbv beta.
    now intros _ c2 [-> _].
  - pstep. unfold Config_Worker. do 2 pstep. rewrite Hw. pstep.
    eapply post_weaken; [apply Run_controllers_post |]. cbv beta.
    now intros _ c2 [-> _].
Qed.

Lemma Run_validate_config (c : Command) :
  Config c = cfg ->
  wp Run_validate
     (post beforeListeners (fun _ c' => Config c' = validatedConfig cfg)) c.
Proof.
  intros Hc. unfold Run_validate. pstep.
  eapply post_bind; [apply Run_listeners_post |]. cbv beta.
  intros r c1 (-> & -> & _). cbv beta iota zeta.
  eapply post_bind; [apply Run_controllerListeners_post |]. cbv beta.
  intros _ c1 (-> & _).
  eapply post_weaken; [apply Run_worker_config |]. cbv beta.
  intros _ c2 ->. rewrite Hc. reflexivity.
Qed.

Lemma Run_upto_validate_strict (c : Command) :
  wp (Run_upto_validate env)
     (post beforeListeners
        (fun _ c' =>
           Config c' = validatedConfig cfg /\ validated cfg c' /\
           setUp env cfg)) c.
Proof.
  unfold Run_upto_validate.
  eapply post_bind; [apply Run_setup_strict |]. cbv beta.
  intros _ c1 [Hc Hs].
  eapply post_weaken;
    [apply post_and; [apply Run_validate_config | apply Run_validate_post];
     exact Hc |].
  cbv beta. intros _ c2 [H1 H2]. auto.
Qed.


Lemma validatedConfig_Controller :
  Controller (validatedConfig cfg) = Controller cfg.
Proof.
  unfold validatedConfig.
  destruct (Controller cfg) eqn:Hk, (Worker cfg) as [w |]; trivial.
  destruct (Controllers w); [cbn; now rewrite Hk | now rewrite Hk].
Qed.

Lemma validatedConfig_Worker :
  isNil (Worker (validatedConfig cfg)) = isNil (Worker cfg).
Proof.
  unfold validatedConfig.
  destruct (Controller cfg); destruct (Worker cfg) as [w |] eqn:Hw;
    rewrite ?Hw; trivial.
  destruct (Controllers w); [reflexivity | now rewrite Hw].
Qed.

Lemma validatedConfig_PidFile :
  PidFile (validatedConfig cfg) = PidFile cfg.
Proof.
  unfold validatedConfig.
  destruct (Controller cfg), (Worker cfg) as [w |]; trivial.
  now destruct (Controllers w).
Qed.

Lemma Run_bind_strict (c : Command) :
  wp (Run_bind env)
     (post beforePid
        (fun _ c' =>
           Config c' = Config c /\ listenersBound env (Config c))) c.
Proof.
  unfold Run_bind, listenersBound. do 3 pstep.
  apply post_bind
    with (P1 := fun _ c' =>
                  Config c' = Config c /\
                  (isNil (Worker (Config c)) = false ->
                   answers env SetupWorkerPublicAddress = None)).
  { destruct (Worker (Config c)); repeat pstep; split; trivial; discriminate. }
  intros _ c1 [Hc1 Hw].
  destruct (Controller (Config c)) as [k |].
  - eapply post_bind; [apply Run_clusterListeners_post |]. cbv beta.
    intros _ c2 [-> _]. repeat pstep. cbn. auto.
  - pstep. repeat split; trivial. discriminate.
Qed.

Lemma Run_pid_strict (c : Command) :
  wp (Run_pid env)
     (post beforeDatabase
        (fun _ c' =>
           c' = c /\ answers env (StorePidFile (PidFile (Config c))) = None))
     c.
Proof. unfold Run_pid. repeat pstep. now split. Qed.

Lemma connectSchemaManager_result (c : Command) :
  let r := connectSchemaManager env "postgres" c in
  Forall (fun e => beforeStart e = true) (trace r) /\
  Config (final r) = Config c /\
  exists v,
    (flow r = Next v \/ flow r = Return v) /\
    (v = None ->
     answers env (schema_NewManager "postgres") = None /\
     answers env SharedLock = None /\
     exists st, currentState env = (st, None) /\ schemaCheck st = None).
Proof.
  destruct (answers env (schema_NewManager "postgres")) as [m |] eqn:Hm.
  { unfold connectSchemaManager, bind, ask, emit, ret, return_, trace, final,
      flow.
    rewrite Hm. cbn. split; [repeat constructor |]. split; [reflexivity |].
    eexists. split; [right; reflexivity | discriminate]. }
  destruct (answers env SharedLock) as [m |] eqn:Hl.
  { unfold connectSchemaManager, bind, ask, emit, ret, return_, modify, trace,
      final, flow.
    rewrite Hm, Hl. cbn. split; [repeat constructor |]. split; [reflexivity |].
    eexists. split; [right; reflexivity | discriminate]. }
  destruct (currentState env) as [st [m |]] eqn:Hs.
  { unfold connectSchemaManager, bind, ask, emit, ret, return_, modify, get,
      trace, final, flow.
    rewrite Hm, Hl, Hs. cbn. split; [repeat constructor |].
    split; [reflexivity |].
    eexists. split; [right; reflexivity | discriminate]. }
  cbv zeta. rewrite (connectSchemaManager_attached env "postgres" c st Hm Hl Hs).
  rewrite trace_triple, final_triple, flow_triple.
  split; [destruct (schemaCheck st); repeat constructor |].
  split; [reflexivity |].
  exists (schemaCheck st). split.
  - destruct (schemaCheck st); auto.
  - intros Hv. repeat split; trivial. now exists st.
Qed.

Lemma verifyKmsSetup_result (c : Command) :
  let r := verifyKmsSetup env c in
  Forall (fun e => beforeStart e = true) (trace r) /\
  final r = c /\
  exists v,
    (flow r = Next v \/ flow r = Return v) /\
    (v = None <->
     answers env kms_NewRepository = None /\
     exists rks, listRootKeys env = (rks, None) /\ In "global" rks).
Proof.
  unfold verifyKmsSetup, bind, ask, emit, ret, return_, trace, final, flow.
  destruct (answers env kms_NewRepository) as [m |]; cbn.
  { split; [repeat constructor |]. split; [reflexivity |].
    eexists. split; [right; reflexivity |].
    split; [discriminate | intros [? _]; discriminate]. }
  destruct (listRootKeys env) as [rks [m |]]; cbn.
  { split; [repeat constructor |]. split; [reflexivity |].
    eexists. split; [right; reflexivity |].
    split; [discriminate | intros (_ & ? & [=] & _)]. }
  destruct (existsb (fun rk => rk =? "global") rks) eqn:Hex; cbn;
    (split; [repeat constructor |]); (split; [reflexivity |]);
    eexists; (split; [left; reflexivity |]).
  - split; [| reflexivity]. intros _. split; [reflexivity |].
    exists rks. split; [reflexivity |].
    apply existsb_exists in Hex. destruct Hex as (rk & Hin & Heq).
    apply String.eqb_eq in Heq. now subst rk.
  - split; [discriminate |]. intros (_ & rks' & [= <-] & Hin).
    assert (existsb (fun rk => rk =? "global") rks = true)
      by (apply existsb_exists; exists "global"; split; trivial).
    congruence.
Qed.

Lemma Run_database_strict (c : Command) :
  wp (Run_database env)
     (post beforeStart
        (fun _ c' =>
           Config c' = Config c /\
           forall k, Controller (Config c) = Some k ->
                     databaseVerified env k)) c.
Proof.
  unfold Run_database, databaseVerified. pstep.
  destruct (Controller (Config c)) as [k |];
    [| pstep; split; [reflexivity | discriminate]].
  apply post_bind
    with (P1 := fun url c' =>
                  c' = c /\ exists d, Database k = Some d /\ Url d <> "").
  { destruct (Database k) as [d |]; [| repeat pstep].
    destruct (Url d =? "") eqn:Hu; [repeat pstep |].
    pstep. split; [reflexivity |]. exists d. split; [reflexivity |].
    intros H. rewrite H in Hu. discriminate. }
  intros url c1 [-> Hurl]. pstep.
  apply post_bind
    with (P1 := fun _ c' =>
                  Config c' = Config c /\
                  forall u m, parseAddress env <> AddressErr u m).
  { destruct (parseAddress env); repeat pstep; split; trivial; discriminate. }
  intros _ c2 [Hc2 Hpa]. do 2 pstep.
  destruct (connectSchemaManager_result c2) as (Ht & Hcf & v & Hf & Hv).
  eapply post_callee_bind
    with (P1 := fun r c' => r = v /\ Config c' = Config c);
    [exact Ht | exists v; split; [exact Hf | split; [reflexivity | congruence]] |].
  intros r c3 [-> Hc3]. pstep.
  destruct (verifyKmsSetup_result c3) as (Ht' & Hcf' & v' & Hf' & Hv').
  eapply post_callee_bind
    with (P1 := fun r c' => r = v' /\ Config c' = Config c);
    [exact Ht' | exists v'; split; [exact Hf' | split; [reflexivity | congruence]] |].
  intros r c4 [-> Hc4]. pstep.
  split; [exact Hc4 |]. intros kx [= <-].
  assert (Hnil : v = None) by assumption.
  assert (Hnil' : v' = None) by assumption.
  destruct (Hv Hnil) as (Hm & Hl & Hst).
  destruct (proj1 Hv' Hnil') as (Hr & Hkeys).
  repeat split; trivial.
Qed.

Lemma beforePid_beforeStart (e : Event) :
  beforePid e = true -> beforeStart e = true.
Proof.
  intros H. unfold beforeStart.
  now rewrite (beforePid_beforeDatabase e H).
Qed.

Lemma beforeDatabase_beforeStart (e : Event) :
  beforeDatabase e = true -> beforeStart e = true.
Proof. intros H. unfold beforeStart. now rewrite H. Qed.

Lemma Run_upto_bind_strict (c : Command) :
  wp (Run_upto_bind env)
     (post beforePid
        (fun _ c' =>
           Config c' = validatedConfig cfg /\ setUp env cfg /\
           listenersBound env cfg)) c.
Proof.
  unfold Run_upto_bind.
  eapply post_bind;
    [eapply post_class;
       [exact beforeListeners_beforePid | apply Run_upto_validate_strict] |].
  cbv beta. intros _ c1 (Hc & _ & Hs).
  eapply post_weaken; [apply Run_bind_strict |]. cbv beta.
  intros _ c2 [Hc2 Hb]. split; [congruence |]. split; [exact Hs |].
  unfold listenersBound in *.
  now rewrite Hc, validatedConfig_Worker, validatedConfig_Controller in Hb.
Qed.

Lemma Run_upto_database_strict (c : Command) :
  wp (Run_upto_database env)
     (post beforeStart
        (fun _ c' =>
           Config c' = validatedConfig cfg /\ readyToStart env cfg)) c.
Proof.
  unfold Run_upto_database, Run_upto_pid.
  eapply post_bind with
    (P1 := fun _ c' =>
             (Config c' = validatedConfig cfg /\ setUp env cfg /\
              listenersBound env cfg) /\
             answers env (StorePidFile (PidFile (Config c'))) = None).
  { eapply post_bind;
      [eapply post_class;
         [exact beforePid_beforeStart | apply Run_upto_bind_strict] |].
    cbv beta. intros _ c1 H.
    eapply post_class; [exact beforeDatabase_beforeStart |].
    eapply post_weaken; [apply Run_pid_strict |]. cbv beta.
    intros _ c2 [Hc2 Hpid]. subst c2. exact (conj H Hpid). }
  cbv beta. intros _ c2 [(Hc & Hs & Hb) Hpid].
  eapply post_weaken; [apply Run_database_strict |]. cbv beta.
  intros _ c3 [Hc3 Hdb]. split; [congruence |].
  unfold readyToStart. split; [exact Hs |]. split; [exact Hb |].
  rewrite Hc, validatedConfig_PidFile in Hpid. split; [exact Hpid |].
  intros k Hk. apply Hdb. now rewrite Hc, validatedConfig_Controller.
Qed.

(** A run whose trace has an event that comes neither before the
    listeners are set up nor from the deferred calls has passed the set-up
    and the validation. *)
Lemma Run_reaches_listeners (c0 : Command) (e : Event) :
  beforeListeners e = false ->
  deferredEvent e = false ->
  In e (trace (Run env c0)) ->
  setUp env cfg /\ exists c1, validated cfg c1.
Proof.
  intros Hb Hd Hin.
  destruct (Run_inv env c0) as (td & Htd & Ht & _).
  rewrite Ht in Hin. apply in_app_or in Hin.
  destruct Hin as [Hin | Hin].
  2:{ rewrite Forall_forall in Htd. apply Htd in Hin. congruence. }
  rewrite (Run_body_validate env) in Hin.
  destruct (post_bind_inv _ _
              (fun _ => Run_bind env ;; Run_pid env ;; Run_database env ;;
                        Run_start env) _ _
              (Run_upto_validate_strict c0))
    as [Hpre [[_ Heq] | (a & _ & (_ & Hv & Hs) & _)]].
  - rewrite Heq, trace_triple in Hin.
    rewrite Forall_forall in Hpre. apply Hpre in Hin. congruence.
  - split; [exact Hs | eauto].
Qed.

(** A run whose trace has an event that comes neither before the servers
    are started nor from the deferred calls is ready to start them, and its
    trace is what came before, the trace of [Run_start], and the deferred
    calls. *)
Lemma Run_reaches_start (c0 : Command) (e : Event) :
  beforeStart e = false ->
  deferredEvent e = false ->
  In e (trace (Run env c0)) ->
  readyToStart env cfg /\
  exists tp c1 td,
    Config c1 = validatedConfig cfg /\
    Forall (fun e => beforeStart e = true) tp /\
    Forall (fun e => deferredEvent e = true) td /\
    trace (Run env c0) = (tp ++ trace (Run_start env c1) ++ td)%list.
Proof.
  intros Hb Hd Hin.
  destruct (Run_inv env c0) as (td & Htd & Ht & _).
  rewrite (Run_body_start env) in Ht.
  destruct (post_bind_inv _ _ (fun _ => Run_start env) _ _
              (Run_upto_database_strict c0))
    as [Hpre [[_ Heq] | (a & _ & (Hc & Hr) & Heq)]];
    rewrite Heq, trace_triple in Ht.
  - exfalso. rewrite Ht in Hin. apply in_app_or in Hin.
    rewrite Forall_forall in Hpre, Htd.
    destruct Hin as [Hin | Hin];
      [apply Hpre in Hin | apply Htd in Hin]; congruence.
  - split; [exact Hr |].
    exists (trace (Run_upto_database env c0)),
      (final (Run_upto_database env c0)), td.
    repeat split; trivial. now rewrite Ht, <- app_assoc.
Qed.

End StrictStages.

(** ** What a start-up has verified when it goes on *)

(** X1: [ParseFlagsAndConfig] returns 0 exactly when the flags parse, the
    KMS wrapper is read (and, when there is one, initialised), a config
    file is named and loads, and the config has a controller or a worker
    block, each block with a name; it panics exactly when all of that holds
    up to the load and the loaded config is nil; in every other case it
    returns 1.  When it returns 0 the receiver holds the parsed flags and
    the loaded config. *)
Theorem X1_parse_flags_and_config (env : Env) (c : Command) :
  let r := ParseFlagsAndConfig env c in
  (flow r = Next 0 <->
   flagsParsed env /\
   exists cfg, loadFile env = LoadOk cfg /\ configNamed cfg = true) /\
  (flow r = Panic <-> flagsParsed env /\ loadFile env = LoadNil) /\
  (flow r = Next 0 \/ flow r = Return 1 \/ flow r = Panic) /\
  (flow r = Next 0 ->
   flags (final r) = parsedFlags env /\
   loadFile env = LoadOk (Config (final r))).
Proof.
  unfold flagsParsed, configNamed, ParseFlagsAndConfig, ask, failWith1,
    fail1, same, bind, emit, ret, get, modify, return_, panic, trace, final,
    flow.
  cbn.
  destruct (answers env flags_Parse) as [m1 |] eqn:E1; cbn;
    [| destruct (wrapperFromPath env) as [w [m2 |]] eqn:E2; cbn;
       [| destruct w; cbn;
          [destruct (answers env wrapper_Init) as [m3 |] eqn:E3; cbn |]]].
  5: destruct (flagConfig (parsedFlags env)) as [| a s] eqn:E4; cbn.
  4: destruct (flagConfig (parsedFlags env)) as [| a s] eqn:E4; cbn.
  5: destruct (loadFile env) as [m5 | | cfg] eqn:E5; cbn.
  9: destruct (loadFile env) as [m5 | | cfg] eqn:E5; cbn.
  all: try (destruct (Controller cfg) as [k |] eqn:Ek;
            destruct (Worker cfg) as [wk |] eqn:Ew; cbn;
            try destruct (Controller_Name k =? "") eqn:En; cbn;
            try destruct (Worker_Name wk =? "") eqn:Em; cbn).
  all: repeat split; intros;
    repeat match goal with
           | H : _ /\ _ |- _ => destruct H
           | H : exists _, _ |- _ => destruct H
           | H : true = true -> _ |- _ => specialize (H eq_refl)
           | H : LoadOk _ = LoadOk _ |- _ => injection H as <-
           end;
    try discriminate; try congruence; try tauto;
    try (exists cfg; split; [reflexivity |]);
    rewrite ?Ek, ?Ew in *; cbn in *; rewrite ?En, ?Em in *;
    try discriminate; try reflexivity; try tauto.
Qed.

Lemma X1_parse_flags_and_config_witness :
  flow (ParseFlagsAndConfig (Examples.env Examples.combined []) initialCommand)
  = Next 0.
Proof.
  apply (proj1 (X1_parse_flags_and_config
                  (Examples.env Examples.combined []) initialCommand)).
  split.
  - split; [reflexivity |]. split; [reflexivity |].
    split; [discriminate | discriminate].
  - exists Examples.combined. split; reflexivity.
Defined.

(** X2: [Run] sets up the listeners only when the set-up before it has
    succeeded: the flags and the config were read and the config names its
    blocks, logging, metrics and the KMSes were set up, the root KMS was
    found when a controller is configured, and the worker-auth KMS was
    found. *)
Theorem X2_listeners_after_setup {net : NetLib} (env : Env) (cfg : ConfigT)
    (c0 : Command) :
  loadFile env = LoadOk cfg ->
  In SetupListeners (trace (Run env c0)) ->
  setUp env cfg.
Proof.
  intros Hload Hin.
  exact (proj1 (Run_reaches_listeners env cfg Hload c0 SetupListeners
                  eq_refl eq_refl Hin)).
Qed.

Lemma X2_listeners_after_setup_witness :
  setUp (Examples.env Examples.combined [ContextDone]) Examples.combined.
Proof.
  apply (X2_listeners_after_setup (net := SampleNet.net)
           (Examples.env Examples.combined [ContextDone]) Examples.combined
           initialCommand eq_refl).
  vm_compute. in_list.
Defined.

(** X3: [Run] creates a controller or a worker only when the whole
    start-up before it has succeeded: the set-up, the binding of the
    listeners and of the public addresses, the PID file, and, for a
    controller, the database: a URL is configured and parses, the database
    connects, the schema manager attaches, takes the shared lock and finds
    the schema fit, and the KMS repository lists a root key of the global
    scope. *)
Theorem X3_servers_after_startup {net : NetLib} (env : Env) (cfg : ConfigT)
    (c0 : Command) :
  loadFile env = LoadOk cfg ->
  In controller_New (trace (Run env c0)) \/
  In worker_New (trace (Run env c0)) ->
  readyToStart env cfg.
Proof.
  intros Hload [Hin | Hin].
  - exact (proj1 (Run_reaches_start env cfg Hload c0 controller_New
                    eq_refl eq_refl Hin)).
  - exact (proj1 (Run_reaches_start env cfg Hload c0 worker_New
                    eq_refl eq_refl Hin)).
Qed.

Lemma X3_servers_after_startup_witness :
  readyToStart (Examples.env Examples.combined [ContextDone])
    Examples.combined.
Proof.
  apply (X3_servers_after_startup (net := SampleNet.net)
           (Examples.env Examples.combined [ContextDone]) Examples.combined
           initialCommand eq_refl).
  left. vm_compute. in_list.
Defined.

(** X4: the validation of [Run] leaves the config as it was loaded, but
    for one case: when a controller and a worker are configured and the
    worker names no upstream, the worker's upstreams become the one
    address the controller is reached at, its public cluster address when
    that is set and the address of the cluster listener otherwise. *)
Theorem X4_upstream_default {net : NetLib} (c : Command) :
  flow (Run_validate c) = Next tt ->
  Config (final (Run_validate c)) = validatedConfig (Config c).
Proof.
  intros Hf.
  pose proof (Run_validate_config (Config c) c eq_refl) as [_ H].
  rewrite Hf in H. exact H.
Qed.

Lemma X4_upstream_default_witness :
  let cfg := Examples.config (Some (Examples.controllerBlock "10.0.0.1:9201"))
               (Some (Examples.workerBlock [])) Examples.threeListeners in
  Config (final (Run_validate (net := SampleNet.net)
                   (set_Config cfg initialCommand)))
  = set_Worker cfg (Some (Examples.workerBlock ["10.0.0.1:9201"])).
Proof.
  intros cfg.
  exact (X4_upstream_default (net := SampleNet.net)
           (set_Config cfg initialCommand) eq_refl).
Defined.

(** ** The rules of [sound] *)

Section SoundRules.

Context {X R : Type}.
Variable E : Event -> bool.
Variable f : Command -> X.

Lemma sound_ret {A : Type} (a : A) : sound E f (ret (R := R) a).
Proof. intros c. now split. Qed.

Lemma sound_get : sound E f (get (R := R)).
Proof. intros c. now split. Qed.

Lemma sound_return {A : Type} (r : R) : sound E f (return_ (A := A) r).
Proof. intros c. now split. Qed.

Lemma sound_panic {A : Type} : sound E f (panic (R := R) (A := A)).
Proof. intros c. now split. Qed.

Lemma sound_blocked {A : Type} : sound E f (blocked (R := R) (A := A)).
Proof. intros c. now split. Qed.

Lemma sound_emit (e : Event) : E e = true -> sound E f (emit (R := R) e).
Proof. intros He c. split; [now repeat constructor | reflexivity]. Qed.

Lemma sound_modify (g : Command -> Command) :
  (forall c, f (g c) = f c) -> sound E f (modify (R := R) g).
Proof. intros Hg c. split; [constructor | apply Hg]. Qed.

Lemma sound_bind {A B : Type} (m : Prog R A) (k : A -> Prog R B) :
  sound E f m -> (forall a, sound E f (k a)) -> sound E f (bind m k).
Proof.
  intros Hm Hk c. specialize (Hm c). unfold bind, trace, final in *.
  destruct (m c) as [[t c1] [a | r | |]]; cbn [fst snd] in *; trivial.
  specialize (Hk a c1). unfold trace, final in Hk.
  destruct (k a c1) as [[t2 c2] f2]; cbn [fst snd] in *.
  destruct Hm as [Ht Hf], Hk as [Ht2 Hf2].
  split; [now apply Forall_app | congruence].
Qed.

Lemma sound_call {R' : Type} (body : Prog R' R') :
  sound E f body -> sound E f (call (R' := R) body).
Proof.
  intros Hb c. specialize (Hb c). unfold call, trace, final in *.
  now destruct (body c) as [[t c1] [a | r | |]].
Qed.

Lemma sound_ask (env : Env) (e : Event) :
  E e = true -> sound E f (ask (R := R) env e).
Proof.
  intros He. unfold ask.
  apply sound_bind; [now apply sound_emit | intros _; apply sound_ret].
Qed.

End SoundRules.

Lemma sound_failWith1 {X : Type} (E : Event -> bool) (f : Command -> X)
    (err : error) (msg : string -> string) :
  (forall m, E (UI_Error m) = true) -> sound E f (failWith1 err msg).
Proof.
  intros He. destruct err as [m |]; cbn [failWith1]; [| apply sound_ret].
  apply sound_bind; [apply sound_emit, He | intros _; apply sound_return].
Qed.

Lemma sound_fail1 {X A : Type} (E : Event -> bool) (f : Command -> X)
    (msg : string) :
  E (UI_Error msg) = true -> sound E f (fail1 (A := A) msg).
Proof.
  intros He. unfold fail1.
  apply sound_bind; [now apply sound_emit | intros _; apply sound_return].
Qed.

(** A body that is sound for a class and a part is sound for every wider
    class and every part of that part. *)
Lemma sound_weaken {X Y R A : Type} (E E' : Event -> bool)
    (f : Command -> X) (g : X -> Y) (m : Prog R A) :
  (forall e, E e = true -> E' e = true) ->
  sound E f m -> sound E' (fun c => g (f c)) m.
Proof.
  intros HE Hm c. destruct (Hm c) as [Ht Hf]. split; [| now rewrite Hf].
  eapply Forall_impl; [| exact Ht]. exact HE.
Qed.

Ltac sound_step :=
  cbv beta iota zeta;
  lazymatch goal with
  | |- sound _ _ (bind _ _) => apply sound_bind; [| intros ?]
  | |- sound _ _ (ret _) => apply sound_ret
  | |- sound _ _ get => apply sound_get
  | |- sound _ _ (return_ _) => apply sound_return
  | |- sound _ _ panic => apply sound_panic
  | |- sound _ _ blocked => apply sound_blocked
  | |- sound _ _ (emit _) => apply sound_emit; reflexivity
  | |- sound _ _ (modify _) => apply sound_modify; intros ?; reflexivity
  | |- sound _ _ (call _) => apply sound_call
  | |- sound _ _ (ask _ _) => apply sound_ask; reflexivity
  | |- sound _ _ (failWith1 _ _) =>
      apply sound_failWith1; intros ?; reflexivity
  | |- sound _ _ (fail1 _) => apply sound_fail1; reflexivity
  | |- sound _ _ (if ?b then _ else _) => destruct b
  | |- sound _ _ (match ?x with _ => _ end) => destruct x
  end.

Section SoundStages.

Context {net : NetLib}.
Variable env : Env.

Lemma ParseFlagsAndConfig_sound :
  sound quiet deferred (ParseFlagsAndConfig env).
Proof. unfold ParseFlagsAndConfig. repeat sound_step. Qed.

Lemma Config_Worker_sound {X R : Type} (E : Event -> bool) (f : Command -> X) :
  sound E f (Config_Worker (R := R)).
Proof. unfold Config_Worker. repeat sound_step. Qed.

Lemma Config_Controller_sound {X R : Type} (E : Event -> bool)
    (f : Command -> X) :
  sound E f (Config_Controller (R := R)).
Proof. unfold Config_Controller. repeat sound_step. Qed.

Lemma Run_listeners_sound (lns : list Listener) :
  forall clusterAddr foundApi foundProxy,
    sound quiet deferred (Run_listeners lns clusterAddr foundApi foundProxy).
Proof.
  induction lns as [| ln rest IH]; intros clusterAddr foundApi foundProxy;
    cbn [Run_listeners]; repeat first [apply IH | sound_step].
Qed.

Lemma Run_controllerListeners_sound (clusterAddr : string) (foundApi : bool) :
  sound quiet deferred (Run_controllerListeners clusterAddr foundApi).
Proof. unfold Run_controllerListeners. repeat sound_step. Qed.

Lemma Run_combined_sound (clusterAddr : string) :
  sound quiet deferred (Run_combined clusterAddr).
Proof.
  unfold Run_combined.
  repeat first [apply Config_Worker_sound | apply Config_Controller_sound
               | sound_step].
Qed.

Lemma Run_controllers_sound (l : list string) :
  sound quiet deferred (Run_controllers l).
Proof.
  induction l as [| controller rest IH]; cbn [Run_controllers];
    repeat first [apply IH | sound_step].
Qed.

Lemma Run_worker_sound (clusterAddr : string) (foundProxy : bool) :
  sound quiet deferred (Run_worker clusterAddr foundProxy).
Proof.
  unfold Run_worker.
  repeat first [apply Config_Worker_sound | apply Run_combined_sound
               | apply Run_controllers_sound | sound_step].
Qed.

Lemma Run_validate_sound : sound quiet deferred Run_validate.
Proof.
  unfold Run_validate.
  repeat first [apply Run_listeners_sound | apply Run_controllerListeners_sound
               | apply Run_worker_sound | sound_step].
Qed.

Lemma Run_clusterPurposes_sound (k : ControllerBlock) (ln : Listener)
    (purposes : list string) :
  sound quiet deferred (Run_clusterPurposes k ln purposes).
Proof.
  induction purposes as [| purpose rest IH]; cbn [Run_clusterPurposes];
    repeat first [apply IH | sound_step].
Qed.

Lemma Run_clusterListeners_sound (k : ControllerBlock) (lns : list Listener) :
  sound quiet deferred (Run_clusterListeners k lns).
Proof.
  induction lns as [| ln rest IH]; cbn [Run_clusterListeners];
    repeat first [apply IH | apply Run_clusterPurposes_sound | sound_step].
Qed.

Lemma Run_bind_sound : sound quiet deferred (Run_bind env).
Proof.
  unfold Run_bind.
  repeat first [apply Run_clusterListeners_sound | sound_step].
Qed.

Lemma Run_pid_sound : sound quiet deferred (Run_pid env).
Proof. unfold Run_pid. repeat sound_step. Qed.

Lemma connectSchemaManager_sound (dialect : string) :
  sound quiet deferred (connectSchemaManager env dialect).
Proof. unfold connectSchemaManager. repeat sound_step. Qed.

Lemma verifyKmsSetup_sound : sound quiet deferred (verifyKmsSetup env).
Proof. unfold verifyKmsSetup. repeat sound_step. Qed.

Lemma Run_database_sound : sound quiet deferred (Run_database env).
Proof.
  unfold Run_database.
  repeat first [apply connectSchemaManager_sound | apply verifyKmsSetup_sound
               | sound_step].
Qed.

Lemma c_controller_Shutdown_sound {R : Type} (waitForWorker : bool) :
  sound dispatchEvent butLoggerLevel
    (c_controller_Shutdown (R := R) env waitForWorker).
Proof. unfold c_controller_Shutdown. repeat sound_step. Qed.

Lemma c_worker_Shutdown_sound {R : Type} (drain : bool) :
  sound dispatchEvent butLoggerLevel (c_worker_Shutdown (R := R) env drain).
Proof. unfold c_worker_Shutdown. repeat sound_step. Qed.

Lemma Reload_relFuncs_sound (k : string) (relFuncs : list RelFunc) :
  forall i errs,
    sound dispatchEvent butLoggerLevel (Reload_relFuncs k i relFuncs errs).
Proof.
  induction relFuncs as [| r rest IH]; intros i errs;
    cbn [Reload_relFuncs]; repeat first [apply IH | sound_step].
Qed.

Lemma Reload_range_sound (m : list (string * list RelFunc)) :
  forall errs, sound dispatchEvent butLoggerLevel (Reload_range m errs).
Proof.
  induction m as [| [k relFuncs] rest IH]; intros errs;
    cbn [Reload_range];
    repeat first [apply IH | apply Reload_relFuncs_sound | sound_step].
Qed.

Lemma Reload_sound : sound dispatchEvent butLoggerLevel (Reload env).
Proof.
  unfold Reload. repeat first [apply Reload_range_sound | sound_step].
Qed.

Lemma WaitForInterrupt_logLevel_sound (reloaded : LoadResult) :
  sound dispatchEvent butLoggerLevel (WaitForInterrupt_logLevel env reloaded).
Proof. unfold WaitForInterrupt_logLevel. repeat sound_step. Qed.

Lemma WaitForInterrupt_sighup_sound (reloaded : LoadResult) :
  sound dispatchEvent butLoggerLevel (WaitForInterrupt_sighup env reloaded).
Proof.
  unfold WaitForInterrupt_sighup.
  repeat first [apply WaitForInterrupt_logLevel_sound | apply Reload_sound
               | sound_step].
Qed.

Lemma WaitForInterrupt_done_sound :
  sound dispatchEvent butLoggerLevel (WaitForInterrupt_done env).
Proof.
  unfold WaitForInterrupt_done.
  repeat first [apply c_worker_Shutdown_sound
               | apply c_controller_Shutdown_sound | sound_step].
Qed.

Lemma WaitForInterrupt_loop_sound (sigs : list Signal) :
  sound dispatchEvent butLoggerLevel (WaitForInterrupt_loop env sigs).
Proof.
  induction sigs as [| s rest IH]; cbn [WaitForInterrupt_loop];
    repeat first [apply IH | apply WaitForInterrupt_sighup_sound
                 | apply WaitForInterrupt_done_sound | sound_step].
Qed.

Lemma WaitForInterrupt_on_sound (sigs : list Signal) :
  sound dispatchEvent butLoggerLevel (WaitForInterrupt_on env sigs).
Proof.
  unfold WaitForInterrupt_on.
  repeat first [apply WaitForInterrupt_loop_sound | sound_step].
Qed.

Lemma dispatchEvent_quiet (e : Event) :
  dispatchEvent e = true -> quiet e = true.
Proof. now destruct e. Qed.

Lemma WaitForInterrupt_quiet :
  sound quiet deferred (WaitForInterrupt env).
Proof.
  exact (sound_weaken dispatchEvent quiet butLoggerLevel deferred _
           dispatchEvent_quiet (WaitForInterrupt_on_sound (signals env))).
Qed.

Lemma c_controller_Shutdown_quiet {R : Type} (waitForWorker : bool) :
  sound quiet deferred (c_controller_Shutdown (R := R) env waitForWorker).
Proof.
  exact (sound_weaken dispatchEvent quiet butLoggerLevel deferred _
           dispatchEvent_quiet (c_controller_Shutdown_sound waitForWorker)).
Qed.

Lemma c_worker_Shutdown_quiet {R : Type} (drain : bool) :
  sound quiet deferred (c_worker_Shutdown (R := R) env drain).
Proof.
  exact (sound_weaken dispatchEvent quiet butLoggerLevel deferred _
           dispatchEvent_quiet (c_worker_Shutdown_sound drain)).
Qed.

Lemma StartController_sound : sound quiet deferred (StartController env).
Proof.
  unfold StartController.
  repeat first [apply c_controller_Shutdown_quiet | sound_step].
Qed.

Lemma StartWorker_sound : sound quiet deferred (StartWorker env).
Proof.
  unfold StartWorker.
  repeat first [apply c_worker_Shutdown_quiet | sound_step].
Qed.

End SoundStages.

(** ** The exit of [Run] and its deferred calls *)

Lemma bind_emit {R B : Type} (e : Event) (k : unit -> Prog R B)
    (c : Command) :
  bind (emit e) k c = (e :: trace (k tt c), final (k tt c), flow (k tt c)).
Proof.
  unfold bind, emit, trace, final, flow. now destruct (k tt c) as [[t c'] f].
Qed.

Lemma bind_modify {R B : Type} (g : Command -> Command)
    (k : unit -> Prog R B) (c : Command) :
  bind (modify g) k c = k tt (g c).
Proof. unfold bind, modify. now destruct (k tt (g c)) as [[t c'] f]. Qed.

Lemma bind_get {R B : Type} (k : Command -> Prog R B) (c : Command) :
  bind get k c = k c c.
Proof. unfold bind, get. now destruct (k c c) as [[t c'] f]. Qed.

(** How [ParseFlagsAndConfig] ends. *)
Lemma ParseFlagsAndConfig_cases (env : Env) (c : Command) :
  (flow (ParseFlagsAndConfig env c) = Next 0 /\
   (exists cfg, loadFile env = LoadOk cfg) /\
   configWrapper (final (ParseFlagsAndConfig env c))
   = configWrapper c || fst (wrapperFromPath env)) \/
  flow (ParseFlagsAndConfig env c) = Return 1 \/
  flow (ParseFlagsAndConfig env c) = Panic.
Proof.
  unfold ParseFlagsAndConfig, ask, failWith1, fail1, same, bind, emit, ret,
    get, modify, return_, panic, trace, final, flow.
  cbn.
  destruct (answers env flags_Parse); cbn; [tauto |].
  destruct (wrapperFromPath env) as [w [m |]]; cbn; [tauto |].
  destruct w; cbn; [destruct (answers env wrapper_Init); cbn; [tauto |] |];
    (destruct (String.length (flagConfig (parsedFlags env)) =? 0)%nat; cbn;
     [tauto |]);
    (destruct (loadFile env) as [m | | cfg]; cbn; [tauto | tauto |]);
    destruct (Controller cfg) as [k |], (Worker cfg) as [wk |]; cbn;
    try destruct (Controller_Name k =? ""); cbn;
    try destruct (Worker_Name wk =? ""); cbn; try tauto;
    left; (split; [reflexivity |]); (split; [now exists cfg |]);
    now rewrite ?orb_true_r, ?orb_false_r.
Qed.

Section ExitRules.

Context {R : Type}.
Variable Pr : R -> Prop.

Lemma exits_ret {A : Type} (a : A) : exits Pr (ret a).
Proof. now intros c. Qed.

Lemma exits_get : exits Pr get.
Proof. now intros c. Qed.

Lemma exits_emit (e : Event) : exits Pr (emit e).
Proof. now intros c. Qed.

Lemma exits_modify (g : Command -> Command) : exits Pr (modify g).
Proof. now intros c. Qed.

Lemma exits_panic {A : Type} : exits Pr (panic (A := A)).
Proof. now intros c. Qed.

Lemma exits_return {A : Type} (r : R) : Pr r -> exits Pr (return_ (A := A) r).
Proof. now intros H c. Qed.

Lemma exits_bind {A B : Type} (m : Prog R A) (k : A -> Prog R B) :
  exits Pr m -> (forall a, exits Pr (k a)) -> exits Pr (bind m k).
Proof.
  intros Hm Hk c. specialize (Hm c). unfold bind, flow in *.
  destruct (m c) as [[t c1] [a | r | |]]; cbn [snd] in *; trivial.
  specialize (Hk a c1). unfold flow in Hk.
  now destruct (k a c1) as [[t2 c2] f2].
Qed.

Lemma exits_bind_val {A B : Type} (Pn : A -> Prop) (m : Prog R A)
    (k : A -> Prog R B) :
  (forall c,
     match flow (m c) with
     | Next a => Pn a
     | Return r => Pr r
     | Panic => True
     | Blocked => False
     end) ->
  (forall a, Pn a -> exits Pr (k a)) -> exits Pr (bind m k).
Proof.
  intros Hm Hk c. specialize (Hm c). unfold bind, flow in *.
  destruct (m c) as [[t c1] [a | r | |]]; cbn [snd] in *; trivial.
  specialize (Hk a Hm c1). unfold flow in Hk.
  now destruct (k a c1) as [[t2 c2] f2].
Qed.

Lemma exits_call {R' : Type} (body : Prog R' R') :
  exits (fun _ => True) body -> exits Pr (call body).
Proof.
  intros Hb c. specialize (Hb c). unfold call, flow in *.
  now destruct (body c) as [[t c1] [a | r | |]].
Qed.

Lemma exits_ask (env : Env) (e : Event) : exits Pr (ask env e).
Proof. now intros c. Qed.

End ExitRules.

Lemma exits_failWith1 (err : error) (msg : string -> string) :
  exits (eq 1) (failWith1 err msg).
Proof. intros c. now destruct err. Qed.

Lemma exits_fail1 {A : Type} (msg : string) :
  exits (eq 1) (fail1 (A := A) msg).
Proof. now intros c. Qed.

Ltac exits_step :=
  cbv beta iota zeta;
  lazymatch goal with
  | |- exits _ (bind _ _) => apply exits_bind; [| intros ?]
  | |- exits _ (ret _) => apply exits_ret
  | |- exits _ get => apply exits_get
  | |- exits _ (return_ _) => apply exits_return; reflexivity
  | |- exits _ panic => apply exits_panic
  | |- exits _ (emit _) => apply exits_emit
  | |- exits _ (modify _) => apply exits_modify
  | |- exits _ (defer _) => apply exits_modify
  | |- exits _ (call _) => apply exits_call
  | |- exits _ (ask _ _) => apply exits_ask
  | |- exits _ (failWith1 _ _) => apply exits_failWith1
  | |- exits _ (fail1 _) => apply exits_fail1
  | |- exits _ (if ?b then _ else _) => destruct b
  | |- exits _ (match ?x with _ => _ end) => destruct x
  end.

Section Exit.

Context {net : NetLib}.
Variable env : Env.

(** The dispatch loop goes on only when the context is done, having
    printed the banner of the shutdown; it never returns from [Run]; it
    waits for ever only when the context is never done. *)
Lemma WaitForInterrupt_loop_flow (sigs : list Signal) :
  forall c,
    match flow (WaitForInterrupt_loop env sigs c) with
    | Next _ =>
        In ContextDone sigs /\
        In (UI_Output "==> Boundary server shutdown triggered")
           (trace (WaitForInterrupt_loop env sigs c))
    | Return _ => False
    | Panic => In ContextDone sigs
    | Blocked => ~ In ContextDone sigs
    end.
Proof.
  induction sigs as [| s rest IH]; intros c.
  - cbn. tauto.
  - destruct s as [| reloaded | stack]; cbn [WaitForInterrupt_loop].
    + unfold WaitForInterrupt_done, c_worker_Shutdown, c_controller_Shutdown,
        ask, bind, get, emit, ret, panic, trace, flow.
      cbn beta iota.
      destruct (Worker (Config c)), (Controller (Config c));
        repeat (cbn;
                match goal with
                | |- context [if worker c then _ else _] =>
                    destruct (worker c)
                | |- context [if controller c then _ else _] =>
                    destruct (controller c)
                | |- context [answers env ?e] => destruct (answers env e)
                | |- context [worker_Shutdown_nil env] =>
                    destruct (worker_Shutdown_nil env) as [| [? |]]
                | |- context [controller_Shutdown_nil env] =>
                    destruct (controller_Shutdown_nil env) as [| [? |]]
                end);
        cbn; try split; auto.
    + destruct (WaitForInterrupt_sighup_steady env reloaded c)
        as (t & c' & Heq & _).
      unfold bind. rewrite Heq. specialize (IH c').
      unfold trace, flow in *.
      destruct (WaitForInterrupt_loop env rest c') as [[t2 c2] [a | r | |]];
        cbn [fst snd] in *.
      * destruct IH as [H1 H2]. split; [now right |].
        apply in_or_app. now right.
      * exact IH.
      * now right.
      * intros [H | H]; [discriminate | tauto].
    + rewrite !bind_emit, !flow_triple, !trace_triple. specialize (IH c).
      destruct (flow (WaitForInterrupt_loop env rest c)).
      * destruct IH as [H1 H2]. split; [now right | now do 2 right].
      * exact IH.
      * now right.
      * intros [H | H]; [discriminate | tauto].
Qed.


Lemma Config_Worker_exits {R : Type} (Pr : R -> Prop) :
  exits Pr Config_Worker.
Proof. unfold Config_Worker. repeat exits_step. Qed.

Lemma Config_Controller_exits {R : Type} (Pr : R -> Prop) :
  exits Pr Config_Controller.
Proof. unfold Config_Controller. repeat exits_step. Qed.

Lemma Run_setup_exits : exits (eq 1) (Run_setup env).
Proof.
  unfold Run_setup.
  apply exits_bind; [apply exits_modify | intros _].
  apply exits_bind; [apply exits_get | intros c0].
  apply exits_bind; [apply exits_modify | intros _].
  apply exits_bind_val with (Pn := fun r => r = 0 \/ r = 1).
  - intros c. unfold call, flow.
    destruct (ParseFlagsAndConfig_cases env c) as [(Hf & _) | [Hf | Hf]];
      unfold flow in Hf;
      destruct (ParseFlagsAndConfig env c) as [[t1 c2] f1]; cbn [snd] in *;
      subst f1; cbn; auto.
  - intros result [-> | ->]; cbn [Z.gtb Z.compare]; repeat exits_step.
Qed.

Lemma Run_listeners_exits (lns : list Listener) :
  forall clusterAddr foundApi foundProxy,
    exits (eq 1) (Run_listeners lns clusterAddr foundApi foundProxy).
Proof.
  induction lns as [| ln rest IH]; intros clusterAddr foundApi foundProxy;
    cbn [Run_listeners]; repeat first [apply IH | exits_step].
Qed.

Lemma Run_controllers_exits (l : list string) :
  exits (eq 1) (Run_controllers l).
Proof.
  induction l as [| controller rest IH]; cbn [Run_controllers];
    repeat first [apply IH | exits_step].
Qed.

Lemma Run_validate_exits : exits (eq 1) Run_validate.
Proof.
  unfold Run_validate, Run_controllerListeners, Run_worker, Run_combined.
  repeat first [apply Run_listeners_exits | apply Run_controllers_exits
               | apply Config_Worker_exits | apply Config_Controller_exits
               | exits_step].
Qed.

Lemma Run_clusterPurposes_exits (k : ControllerBlock) (ln : Listener)
    (purposes : list string) :
  exits (eq 1) (Run_clusterPurposes k ln purposes).
Proof.
  induction purposes as [| purpose rest IH]; cbn [Run_clusterPurposes];
    repeat first [apply IH | exits_step].
Qed.

Lemma Run_clusterListeners_exits (k : ControllerBlock) (lns : list Listener) :
  exits (eq 1) (Run_clusterListeners k lns).
Proof.
  induction lns as [| ln rest IH]; cbn [Run_clusterListeners];
    repeat first [apply IH | apply Run_clusterPurposes_exits | exits_step].
Qed.

Lemma Run_bind_exits : exits (eq 1) (Run_bind env).
Proof.
  unfold Run_bind.
  repeat first [apply Run_clusterListeners_exits | exits_step].
Qed.

Lemma Run_pid_exits : exits (eq 1) (Run_pid env).
Proof. unfold Run_pid. repeat exits_step. Qed.

Lemma Run_database_exits : exits (eq 1) (Run_database env).
Proof.
  unfold Run_database, connectSchemaManager, verifyKmsSetup.
  repeat exits_step; exact I.
Qed.

Lemma c_controller_Shutdown_exits {R : Type} (Pr : R -> Prop)
    (waitForWorker : bool) :
  exits Pr (c_controller_Shutdown env waitForWorker).
Proof. unfold c_controller_Shutdown. repeat exits_step. Qed.

Lemma c_worker_Shutdown_exits {R : Type} (Pr : R -> Prop) (drain : bool) :
  exits Pr (c_worker_Shutdown env drain).
Proof. unfold c_worker_Shutdown. repeat exits_step. Qed.

Lemma StartController_exits :
  exits (fun _ => True) (StartController env).
Proof.
  unfold StartController.
  repeat first [apply c_controller_Shutdown_exits | exits_step]; exact I.
Qed.

Lemma StartWorker_exits : exits (fun _ => True) (StartWorker env).
Proof.
  unfold StartWorker.
  repeat first [apply c_worker_Shutdown_exits | exits_step]; exact I.
Qed.

(** A body that goes on as a run of the server ends, after a body that
    returns only 1, ends as a run of the server ends. *)
Lemma runExit_bind {A : Type} (sigs : list Signal) (m : Prog Z A)
    (k : A -> Prog Z Z) :
  exits (eq 1) m ->
  (forall a c, runExit sigs (k a c)) ->
  forall c, runExit sigs (bind m k c).
Proof.
  intros Hm Hk c. specialize (Hm c). unfold runExit, bind, trace, flow in *.
  destruct (m c) as [[t c1] [a | r | |]]; cbn [fst snd] in *; auto;
    try contradiction.
  specialize (Hk a c1).
  destruct (k a c1) as [[t2 c2] [v | v | |]]; cbn [fst snd] in *; trivial.
  destruct Hk as (H1 & H2 & H3). repeat split; trivial.
  apply in_or_app. now right.
Qed.

Lemma WaitForInterrupt_runExit (c : Command) :
  runExit (signals env) (call (R' := Z) (WaitForInterrupt env) c).
Proof.
  unfold runExit, call, WaitForInterrupt, WaitForInterrupt_on, bind, ret.
  pose proof (WaitForInterrupt_loop_flow (signals env) c) as H.
  unfold trace, flow in *.
  destruct (WaitForInterrupt_loop env (signals env) c)
    as [[t c1] [a | r | |]]; cbn [fst snd] in *; trivial.
  - rewrite app_nil_r. tauto.
  - contradiction.
Qed.

(** How [Run_start] ends. *)
Lemma Run_start_runExit (c : Command) :
  runExit (signals env) (Run_start env c).
Proof.
  unfold Run_start.
  repeat (apply runExit_bind;
          [repeat first [apply StartController_exits
                        | apply StartWorker_exits
                        | apply c_controller_Shutdown_exits | exits_step]
          | intros ? ?]).
  apply WaitForInterrupt_runExit.
Qed.

(** How the body of [Run] ends. *)
Lemma Run_body_runExit (c : Command) :
  runExit (signals env) (Run_body env c).
Proof.
  unfold Run_body.
  apply runExit_bind; [apply Run_setup_exits | intros _ c1].
  apply runExit_bind; [apply Run_validate_exits | intros _ c2].
  apply runExit_bind; [apply Run_bind_exits | intros _ c3].
  apply runExit_bind; [apply Run_pid_exits | intros _ c4].
  apply runExit_bind; [apply Run_database_exits | intros _ c5].
  apply Run_start_runExit.
Qed.

End Exit.

Lemma bind_ret {R A B : Type} (a : A) (k : A -> Prog R B) (c : Command) :
  bind (ret a) k c = k a c.
Proof. unfold bind, ret. now destruct (k a c) as [[t c'] f]. Qed.

Lemma bind_cases {R A B : Type} (m : Prog R A) (k : A -> Prog R B)
    (c : Command) :
  bind m k c =
    match flow (m c) with
    | Next a =>
        ((trace (m c) ++ trace (k a (final (m c))))%list,
         final (k a (final (m c))), flow (k a (final (m c))))
    | Return r => (trace (m c), final (m c), Return r)
    | Panic => (trace (m c), final (m c), Panic)
    | Blocked => (trace (m c), final (m c), Blocked)
    end.
Proof.
  unfold bind, trace, final, flow.
  destruct (m c) as [[t c1] [a | r | |]]; cbn [fst snd]; trivial.
  now destruct (k a c1) as [[t2 c2] f2].
Qed.

Lemma call_trace {R R' : Type} (body : Prog R R) (c : Command) :
  trace (call (R' := R') body c) = trace (body c).
Proof.
  unfold call, trace. now destruct (body c) as [[t c1] [a | r | |]].
Qed.

Lemma call_final {R R' : Type} (body : Prog R R) (c : Command) :
  final (call (R' := R') body c) = final (body c).
Proof.
  unfold call, final. now destruct (body c) as [[t c1] [a | r | |]].
Qed.

Lemma call_flow {R R' : Type} (body : Prog R R) (c : Command) :
  flow (call (R' := R') body c) =
    match flow (body c) with
    | Next r => Next r
    | Return r => Next r
    | Panic => Panic
    | Blocked => Blocked
    end.
Proof.
  unfold call, flow. now destruct (body c) as [[t c1] [a | r | |]].
Qed.

Lemma bind_ask {R B : Type} (env : Env) (e : Event) (k : error -> Prog R B)
    (c : Command) :
  bind (ask env e) k c =
    (e :: trace (k (answers env e) c), final (k (answers env e) c),
     flow (k (answers env e) c)).
Proof.
  unfold ask, bind, emit, ret, trace, final, flow. cbn.
  now destruct (k (answers env e) c) as [[t c'] f].
Qed.

Lemma quiet_marks (t : list Event) :
  Forall (fun e => quiet e = true) t ->
  ~ In SetupLogging t /\ ~ In PrintInfo t.
Proof.
  intros H. rewrite Forall_forall in H.
  split; intros Hin; apply H in Hin; discriminate.
Qed.

Lemma run_all_deferred_trace (env : Env) (ds : list Deferred) :
  forall c,
    trace (run_all_deferred env ds c) = flat_map (deferredEvents env) ds.
Proof.
  induction ds as [| d rest IH]; intros c; [reflexivity |].
  cbn [run_all_deferred flat_map]. unfold bind, trace in *.
  destruct d; cbn [run_deferred deferredEvents];
    unfold ask, bind, emit, ret; cbn;
    try destruct (answers env _); cbn;
    match goal with
    | |- context [run_all_deferred env rest ?c1] =>
        specialize (IH c1);
          destruct (run_all_deferred env rest c1) as [[t2 c2] f2]
    end;
    cbn in *; now rewrite IH.
Qed.

Section Deferred.

Context {net : NetLib}.
Variable env : Env.

Lemma registersShutdown_bind {A : Type} (m : Prog Z A) (k : A -> Prog Z Z) :
  sound quiet deferred m ->
  (forall a c, registersShutdown c (k a c)) ->
  forall c, registersShutdown c (bind m k c).
Proof.
  intros Hm Hk c. destruct (Hm c) as [Ht Hf].
  apply quiet_marks in Ht. destruct Ht as [Hl Hp].
  unfold registersShutdown, bind, trace, final in *.
  destruct (m c) as [[t c1] [a | r | |]]; cbn [fst snd] in *;
    try (split; [exact Hl | right; now split]).
  specialize (Hk a c1).
  destruct (k a c1) as [[t2 c2] f2]; cbn [fst snd] in *.
  destruct Hk as [Hl2 Hk]. rewrite Hf in Hk. split.
  - intros H. apply in_app_or in H. tauto.
  - destruct Hk as [[H1 H2] | [H1 H2]]; [left | right]; split; trivial.
    + apply in_or_app. now right.
    + intros H. apply in_app_or in H. tauto.
Qed.

Lemma Run_start_registersShutdown (c : Command) :
  registersShutdown c (Run_start env c).
Proof.
  unfold Run_start, defer.
  rewrite bind_modify, !bind_emit, !trace_triple, !final_triple.
  cbv beta.
  match goal with
  | |- context [trace (?m ?c1)] =>
      assert (Hs : sound quiet deferred m)
        by repeat first [apply StartController_sound
                        | apply StartWorker_sound
                        | apply c_controller_Shutdown_quiet
                        | apply WaitForInterrupt_quiet | sound_step];
        destruct (Hs c1) as [Ht Hf]
  end.
  apply quiet_marks in Ht. destruct Ht as [Hl Hp].
  unfold registersShutdown. rewrite trace_triple, final_triple. split.
  - intros [H | [H | H]]; [discriminate | discriminate | tauto].
  - left. split; [now left | exact Hf].
Qed.

Lemma Run_rest_registersShutdown (c : Command) :
  registersShutdown c
    ((Run_validate ;; Run_bind env ;; Run_pid env ;; Run_database env ;;
      Run_start env) c).
Proof.
  apply registersShutdown_bind; [apply Run_validate_sound | intros _ c1].
  apply registersShutdown_bind; [apply Run_bind_sound | intros _ c2].
  apply registersShutdown_bind; [apply Run_pid_sound | intros _ c3].
  apply registersShutdown_bind; [apply Run_database_sound | intros _ c4].
  apply Run_start_registersShutdown.
Qed.

(** The set-up of [Run]: the deferred calls it has registered when it
    ends, and whether it got to the set-up of logging. *)
Lemma Run_setup_deferred (c : Command) :
  ~ In PrintInfo (trace (Run_setup env c)) /\
  ((In SetupLogging (trace (Run_setup env c)) /\
    deferred (final (Run_setup env c))
    = ((if configWrapper c || fst (wrapperFromPath env)
        then [defer_Finalize] else [])
         ++ defer_CancelFn :: deferred c)%list) \/
   (~ In SetupLogging (trace (Run_setup env c)) /\
    (forall a, flow (Run_setup env c) <> Next a) /\
    deferred (final (Run_setup env c)) = defer_CancelFn :: deferred c)).
Proof.
  unfold Run_setup, defer.
  rewrite bind_modify, bind_get, bind_modify.
  set (c1 := set_CombineLogs _ _).
  destruct (ParseFlagsAndConfig_sound env c1) as [Ht Hf].
  apply quiet_marks in Ht. destruct Ht as [Hl Hp].
  rewrite bind_cases, call_trace, call_final, call_flow.
  destruct (ParseFlagsAndConfig_cases env c1) as [(Hfl & _ & Hw) | [Hfl | Hfl]];
    rewrite Hfl; cbv beta iota; cbn [Z.gtb Z.compare].
  2:{ rewrite bind_cases. cbn [flow return_ snd trace final fst].
      rewrite ?trace_triple, ?final_triple, ?flow_triple, ?app_nil_r.
      split; [exact Hp |]. right.
      split; [exact Hl |]. split; [discriminate | exact Hf]. }
  2:{ rewrite ?trace_triple, ?final_triple, ?flow_triple.
      split; [exact Hp |]. right.
      split; [exact Hl |]. split; [discriminate | exact Hf]. }
  rewrite bind_ret, bind_get.
  set (c2 := final (ParseFlagsAndConfig env c1)) in *.
  match goal with
  | |- context [bind ?d ?k c2] =>
      assert (Hd : bind d k c2
                   = k tt (if configWrapper c2
                           then push_deferred defer_Finalize c2 else c2))
        by (destruct (configWrapper c2);
            [exact (bind_modify _ k c2) | exact (bind_ret tt k c2)]);
        rewrite Hd; clear Hd
  end.
  cbv beta. set (c3 := if configWrapper c2 then _ else _).
  rewrite bind_ask.
  match goal with
  | |- context [trace (?m c3)] =>
      assert (Hs : sound quiet deferred m) by repeat sound_step;
        destruct (Hs c3) as [Ht3 Hf3]; clear Hs
  end.
  apply quiet_marks in Ht3. destruct Ht3 as [Hl3 Hp3].
  rewrite !trace_triple, !final_triple. split.
  - intros H. apply in_app_or in H.
    destruct H as [H | [H | H]]; [tauto | discriminate | tauto].
  - left. split; [apply in_or_app; right; now left |].
    rewrite Hf3. subst c3. rewrite Hw.
    change (configWrapper c1) with (configWrapper c).
    destruct (configWrapper c || fst (wrapperFromPath env)); cbn;
      now rewrite Hf.
Qed.

(** The body of [Run]: the deferred calls it has registered when it ends,
    by the marks of its progress in the trace. *)
Lemma Run_body_deferred (c : Command) :
  exists ds df,
    deferred (final (Run_body env c))
    = (ds ++ df ++ defer_CancelFn :: deferred c)%list /\
    ((In PrintInfo (trace (Run_body env c)) /\
      ds = [defer_RunShutdownFuncs]) \/
     (~ In PrintInfo (trace (Run_body env c)) /\ ds = [])) /\
    ((In SetupLogging (trace (Run_body env c)) /\
      df = if configWrapper c || fst (wrapperFromPath env)
           then [defer_Finalize] else []) \/
     (~ In SetupLogging (trace (Run_body env c)) /\ df = [])).
Proof.
  unfold Run_body. rewrite bind_cases.
  destruct (Run_setup_deferred c) as [Hp [[Hl Hd] | (Hl & Hn & Hd)]].
  - destruct (flow (Run_setup env c)) as [[] | r | |] eqn:Hfl;
      rewrite ?trace_triple, ?final_triple.
    + pose proof (Run_rest_registersShutdown (final (Run_setup env c)))
        as [Hl2 Hreg].
      destruct Hreg as [[Hp2 Hd2] | [Hp2 Hd2]].
      * exists [defer_RunShutdownFuncs],
          (if configWrapper c || fst (wrapperFromPath env)
           then [defer_Finalize] else []).
        rewrite Hd2, Hd. split; [reflexivity |]. split.
        -- left. split; [apply in_or_app; now right | reflexivity].
        -- left. split; [apply in_or_app; now left | reflexivity].
      * exists [],
          (if configWrapper c || fst (wrapperFromPath env)
           then [defer_Finalize] else []).
        rewrite Hd2, Hd. split; [reflexivity |]. split.
        -- right. split; [| reflexivity].
           intros H. apply in_app_or in H. tauto.
        -- left. split; [apply in_or_app; now left | reflexivity].
    + exists [],
        (if configWrapper c || fst (wrapperFromPath env)
         then [defer_Finalize] else []).
      rewrite Hd. split; [reflexivity |]. split; [now right | now left].
    + exists [],
        (if configWrapper c || fst (wrapperFromPath env)
         then [defer_Finalize] else []).
      rewrite Hd. split; [reflexivity |]. split; [now right | now left].
    + exists [],
        (if configWrapper c || fst (wrapperFromPath env)
         then [defer_Finalize] else []).
      rewrite Hd. split; [reflexivity |]. split; [now right | now left].
  - destruct (flow (Run_setup env c)) as [a | r | |] eqn:Hfl;
      [now destruct (Hn a) | | |];
      rewrite ?trace_triple, ?final_triple;
      exists [], []; rewrite Hd;
      (split; [reflexivity |]); (split; [now right | now right]).
Qed.

End Deferred.

(** ** How a run can end without an exit code *)

Section Stuck.

Context {net : NetLib}.
Variable env : Env.







End Stuck.


(** X6: when [Run] exits or panics, the calls it has deferred run after
    its body, last registered first: the shutdown functions when the body
    got to the start of the servers, then the finalizer of the config KMS
    wrapper when the body got to the set-up of logging with a wrapper, and
    last the cancel function of the context, which always runs; a failing
    shutdown or finalizer is reported and the next call still runs. *)
Theorem X6_deferred_calls {net : NetLib} (env : Env) (c0 : Command) :
  deferred c0 = [] ->
  flow (Run env c0) <> Blocked ->
  exists ts tf,
    trace (Run env c0)
    = (trace (Run_body env c0) ++ ts ++ tf ++ [CancelFn])%list /\
    ((In PrintInfo (trace (Run_body env c0)) /\
      ts = deferredEvents env defer_RunShutdownFuncs) \/
     (~ In PrintInfo (trace (Run_body env c0)) /\ ts = [])) /\
    ((In SetupLogging (trace (Run_body env c0)) /\
      configWrapper c0 || fst (wrapperFromPath env) = true /\
      tf = deferredEvents env defer_Finalize) \/
     ((~ In SetupLogging (trace (Run_body env c0)) \/
       configWrapper c0 || fst (wrapperFromPath env) = false) /\
      tf = [])).
Proof.
  intros Hd0 Hnb.
  destruct (Run_body_deferred env c0) as (ds & df & Hd & Hs & Hf).
  rewrite Hd0 in Hd.
  assert (Ht : trace (Run env c0)
               = (trace (Run_body env c0)
                    ++ flat_map (deferredEvents env)
                         (ds ++ df ++ [defer_CancelFn]))%list).
  { rewrite <- Hd.
    rewrite <- (run_all_deferred_trace env _ (final (Run_body env c0))).
    unfold Run, trace, final, flow in *.
    destruct (Run_body env c0) as [[t c1] [r | r | |]]; cbn [fst snd] in *;
      try (destruct (run_all_deferred env (deferred c1) c1) as [[t2 c2] f2];
           reflexivity).
    now destruct Hnb. }
  rewrite Ht, !flat_map_app. cbn [flat_map deferredEvents app].
  exists (flat_map (deferredEvents env) ds),
    (flat_map (deferredEvents env) df).
  split; [reflexivity |]. split.
  - destruct Hs as [[H ->] | [H ->]]; [left | right]; split; trivial.
    cbn [flat_map]. now rewrite app_nil_r.
  - destruct Hf as [[H ->] | [H ->]]; [| right; split; [now left | easy]].
    destruct (configWrapper c0 || fst (wrapperFromPath env)).
    + left. split; [exact H |]. split; [reflexivity |].
      cbn [flat_map]. now rewrite app_nil_r.
    + right. split; [now right | reflexivity].
Qed.

Lemma X6_deferred_calls_witness :
  exists ts tf,
    trace (Run (net := SampleNet.net)
             (Examples.env Examples.combined [ContextDone]) initialCommand)
    = (trace (Run_body (net := SampleNet.net)
                (Examples.env Examples.combined [ContextDone]) initialCommand)
         ++ ts ++ tf ++ [CancelFn])%list /\
    ts = [RunShutdownFuncs] /\ tf = [].
Proof.
  destruct (X6_deferred_calls (net := SampleNet.net)
              (Examples.env Examples.combined [ContextDone]) initialCommand
              eq_refl ltac:(vm_compute; discriminate))
    as (ts & tf & Ht & Hs & Hf).
  exists ts, tf. split; [exact Ht |]. split.
  - destruct Hs as [[_ ->] | [Hn _]]; [reflexivity |].
    exfalso. apply Hn. vm_compute. in_list.
  - destruct Hf as [(_ & Hw & _) | [_ ->]]; [discriminate Hw | reflexivity].
Defined.

(** ** Starting the servers *)

Section Starting.

Variable env : Env.

(** [StartController], as a table of what [controller.New], [Start] and
    [Shutdown] answer. *)
Lemma StartController_eq (c : Command) :
  StartController env c =
    match answers env controller_New with
    | Some m =>
        ([controller_New], set_controller false c,
         Return (Some ("Error initializing controller: " ++ m)))
    | None =>
        match answers env controller_Start with
        | None =>
            ([controller_New; controller_Start], set_controller true c,
             Next None)
        | Some m =>
            match answers env (controller_Shutdown false false) with
            | Some m' =>
                ([controller_New; controller_Start;
                  controller_Shutdown false false;
                  UI_Error ("Error starting controller: " ++ m)],
                 set_controller true c,
                 Return (Some ("Error shutting down controller: " ++ m')))
            | None =>
                ([controller_New; controller_Start;
                  controller_Shutdown false false],
                 set_controller true c,
                 Return (Some ("Error starting controller: " ++ m)))
            end
        end
    end.
Proof.
  unfold StartController, c_controller_Shutdown, ask, bind, emit, ret, get,
    modify, return_.
  cbn beta iota.
  destruct (answers env controller_New); cbn; [reflexivity |].
  destruct (answers env controller_Start); cbn; [| reflexivity].
  destruct (answers env (controller_Shutdown false false)); reflexivity.
Qed.

Lemma StartWorker_eq (c : Command) :
  StartWorker env c =
    match answers env worker_New with
    | Some m =>
        ([worker_New], set_worker false c,
         Return (Some ("Error initializing worker: " ++ m)))
    | None =>
        match answers env worker_Start with
        | None => ([worker_New; worker_Start], set_worker true c, Next None)
        | Some m =>
            match answers env (worker_Shutdown false false) with
            | Some m' =>
                ([worker_New; worker_Start; worker_Shutdown false false;
                  UI_Error ("Error starting worker: " ++ m)],
                 set_worker true c,
                 Return (Some ("Error shutting down worker: " ++ m')))
            | None =>
                ([worker_New; worker_Start; worker_Shutdown false false],
                 set_worker true c,
                 Return (Some ("Error starting worker: " ++ m)))
            end
        end
    end.
Proof.
  unfold StartWorker, c_worker_Shutdown, ask, bind, emit, ret, get,
    modify, return_.
  cbn beta iota.
  destruct (answers env worker_New); cbn; [reflexivity |].
  destruct (answers env worker_Start); cbn; [| reflexivity].
  destruct (answers env (worker_Shutdown false false)); reflexivity.
Qed.

Lemma dispatchEvent_not_worker_New (t : list Event) :
  Forall (fun e => dispatchEvent e = true) t -> ~ In worker_New t.
Proof.
  intros H Hin. rewrite Forall_forall in H. apply H in Hin. discriminate.
Qed.

(** [Run_start] with a controller block: a worker is created only right
    after the controller was created and started. *)
Lemma Run_start_worker_New (c : Command) (k : ControllerBlock) :
  Controller (Config c) = Some k ->
  In worker_New (trace (Run_start env c)) ->
  answers env controller_New = None /\
  answers env controller_Start = None /\
  exists t2,
    trace (Run_start env c) =
      PrintInfo :: ReleaseLogGate :: controller_New :: controller_Start
        :: worker_New :: t2.
Proof.
  intros Hk. unfold Run_start, defer.
  rewrite bind_modify, !bind_emit, !trace_triple. cbv beta.
  rewrite bind_get. cbn [Config push_deferred]. rewrite Hk.
  cbn [isNil negb]. rewrite bind_assoc, bind_cases.
  rewrite call_trace, call_final, call_flow, StartController_eq.
  destruct (answers env controller_New) as [m |];
    rewrite ?trace_triple, ?final_triple, ?flow_triple; cbv beta iota.
  { cbn. intros H; repeat (destruct H as [H | H]; try discriminate);
      contradiction. }
  destruct (answers env controller_Start) as [m |];
    rewrite ?trace_triple, ?final_triple, ?flow_triple; cbv beta iota.
  { destruct (answers env (controller_Shutdown false false));
      rewrite ?trace_triple, ?final_triple, ?flow_triple; cbn;
      intros H; repeat (destruct H as [H | H]; try discriminate);
      contradiction. }
  cbn [failWith1]. rewrite bind_ret.
  set (c2 := set_controller true _).
  destruct (Worker (Config c)) as [w |] eqn:Ew; cbn [isNil negb].
  - rewrite bind_assoc, bind_cases, call_trace, call_final, call_flow,
      !StartWorker_eq.
    intros _. split; [reflexivity |]. split; [reflexivity |].
    destruct (answers env worker_New);
      [| destruct (answers env worker_Start);
         [destruct (answers env (worker_Shutdown false false)) |]];
      rewrite ?call_flow, ?call_final, ?trace_triple, ?final_triple,
        ?flow_triple; cbv beta iota; rewrite ?trace_triple;
      cbn [app]; eexists; reflexivity.
  - rewrite bind_ret, call_trace.
    pose proof (WaitForInterrupt_on_sound env (signals env) c2) as [Ht _].
    apply dispatchEvent_not_worker_New in Ht.
    intros H; repeat (destruct H as [H | H]; try discriminate).
    now apply Ht in H.
Qed.

End Starting.

(** X7: with a controller block, [Run] creates the worker only after the
    controller was created and started, both without an error, and right
    after that: the three calls follow one another in the trace, and no
    worker is created before. *)
Theorem X7_worker_after_controller {net : NetLib} (env : Env) (cfg : ConfigT)
    (k : ControllerBlock) (c0 : Command) :
  loadFile env = LoadOk cfg ->
  Controller cfg = Some k ->
  In worker_New (trace (Run env c0)) ->
  answers env controller_New = None /\
  answers env controller_Start = None /\
  exists t1 t2,
    trace (Run env c0)
    = (t1 ++ controller_New :: controller_Start :: worker_New :: t2)%list /\
    ~ In worker_New t1.
Proof.
  intros Hload Hk Hin.
  destruct (Run_reaches_start env cfg Hload c0 worker_New eq_refl eq_refl Hin)
    as (_ & tp & c1 & td & Hc & Htp & Htd & Ht).
  rewrite Forall_forall in Htp, Htd.
  assert (Hin1 : In worker_New (trace (Run_start env c1))).
  { rewrite Ht in Hin. apply in_app_or in Hin.
    destruct Hin as [H | H]; [apply Htp in H; discriminate |].
    apply in_app_or in H.
    destruct H as [H | H]; [exact H | apply Htd in H; discriminate]. }
  assert (Hk1 : Controller (Config c1) = Some k)
    by now rewrite Hc, validatedConfig_Controller.
  destruct (Run_start_worker_New env c1 k Hk1 Hin1) as (Hn & Hs & t2 & Hst).
  split; [exact Hn |]. split; [exact Hs |].
  exists (tp ++ [PrintInfo; ReleaseLogGate])%list, (t2 ++ td)%list. split.
  - rewrite Ht, Hst, <- !app_assoc. reflexivity.
  - intros H. apply in_app_or in H.
    destruct H as [H | [H | [H | []]]];
      [apply Htp in H; discriminate | discriminate | discriminate].
Qed.

Lemma X7_worker_after_controller_witness :
  exists t1 t2,
    trace (Run (net := SampleNet.net)
             (Examples.env Examples.combined [ContextDone]) initialCommand)
    = (t1 ++ controller_New :: controller_Start :: worker_New :: t2)%list /\
    ~ In worker_New t1.
Proof.
  refine (proj2 (proj2
            (X7_worker_after_controller (net := SampleNet.net)
               (Examples.env Examples.combined [ContextDone])
               Examples.combined (Examples.controllerBlock "")
               initialCommand eq_refl eq_refl _))).
  vm_compute. in_list.
Defined.

(** X8: a listener whose one purpose is none of cluster, api and proxy
    makes [Run] return 1 before any listener is set up. *)
Theorem X8_unknown_purpose {net : NetLib} (env : Env) (cfg : ConfigT)
    (c0 : Command) (ln : Listener) (p : string) :
  loadFile env = LoadOk cfg ->
  In ln (Listeners cfg) ->
  Purpose ln = [p] ->
  p <> "cluster" -> p <> "api" -> p <> "proxy" ->
  flow (Run env c0) = Next 1 /\ ~ In SetupListeners (trace (Run env c0)).
Proof.
  intros Hload Hin Hp Hc Ha Hx.
  assert (Hl : listenerCheck ln = false).
  { unfold listenerCheck, purposeIs. rewrite Hp.
    apply String.eqb_neq in Hc, Ha, Hx. now rewrite Hc, Ha, Hx. }
  assert (Hv : forall c1, ~ validated cfg c1).
  { intros c1 (_ & _ & _ & Hall & _). rewrite forallb_forall in Hall.
    apply Hall in Hin. congruence. }
  split.
  - destruct (Run_body_checked env cfg Hload c0) as [H | [[c1 H] _]];
      [now apply Run_exit1 | now apply Hv in H].
  - intros H.
    destruct (Run_SetupListeners_validated env cfg c0 Hload H) as [c1 H1].
    now apply Hv in H1.
Qed.

Lemma X8_unknown_purpose_witness :
  let cfg := Examples.config (Some (Examples.controllerBlock "")) None
               [Examples.listener "api" "127.0.0.1:9200";
                Examples.listener "ops" "127.0.0.1:9203"] in
  flow (Run (net := SampleNet.net) (Examples.env cfg []) initialCommand)
  = Next 1.
Proof.
  intros cfg.
  refine (proj1 (X8_unknown_purpose (net := SampleNet.net)
                   (Examples.env cfg []) cfg initialCommand
                   (Examples.listener "ops" "127.0.0.1:9203") "ops"
                   eq_refl _ eq_refl _ _ _));
    [right; left; reflexivity | discriminate | discriminate | discriminate].
Defined.

(** X9: [StartController] returns nil exactly when the controller is
    created and starts; otherwise it returns an error, and it never
    panics.  It leaves [c.controller] set exactly when the controller was
    created.  It shuts the controller down exactly when the start fails,
    always through the created controller, never through a nil one.  The
    error it returns is the one of the creation when that fails; when the
    start fails it is the one of the shutdown when that fails too, having
    reported the one of the start on the UI, and the one of the start
    otherwise, with nothing reported.  [StartWorker] does the same with
    the worker. *)
Theorem X9_start_servers (env : Env) (c : Command) :
  (let r := StartController env c in
   (flow r = Next None <->
    answers env controller_New = None /\ answers env controller_Start = None)
   /\
   (flow r = Next None \/ exists m, flow r = Return (Some m)) /\
   controller (final r) = isNil (answers env controller_New) /\
   (In (controller_Shutdown false false) (trace r) <->
    answers env controller_New = None /\
    answers env controller_Start <> None) /\
   (forall nilReceiver waitForWorker,
      In (controller_Shutdown nilReceiver waitForWorker) (trace r) ->
      nilReceiver = false /\ waitForWorker = false) /\
   (forall m m',
      answers env controller_New = None ->
      answers env controller_Start = Some m ->
      answers env (controller_Shutdown false false) = Some m' ->
      In (UI_Error ("Error starting controller: " ++ m)) (trace r) /\
      flow r = Return (Some ("Error shutting down controller: " ++ m'))) /\
   (forall m,
      answers env controller_New = None ->
      answers env controller_Start = Some m ->
      answers env (controller_Shutdown false false) = None ->
      flow r = Return (Some ("Error starting controller: " ++ m)) /\
      forall msg, ~ In (UI_Error msg) (trace r)) /\
   (forall m,
      answers env controller_New = Some m ->
      flow r = Return (Some ("Error initializing controller: " ++ m)) /\
      trace r = [controller_New]))
  /\
  (let r := StartWorker env c in
   (flow r = Next None <->
    answers env worker_New = None /\ answers env worker_Start = None) /\
   (flow r = Next None \/ exists m, flow r = Return (Some m)) /\
   worker (final r) = isNil (answers env worker_New) /\
   (In (worker_Shutdown false false) (trace r) <->
    answers env worker_New = None /\ answers env worker_Start <> None) /\
   (forall nilReceiver drain,
      In (worker_Shutdown nilReceiver drain) (trace r) ->
      nilReceiver = false /\ drain = false) /\
   (forall m m',
      answers env worker_New = None ->
      answers env worker_Start = Some m ->
      answers env (worker_Shutdown false false) = Some m' ->
      In (UI_Error ("Error starting worker: " ++ m)) (trace r) /\
      flow r = Return (Some ("Error shutting down worker: " ++ m'))) /\
   (forall m,
      answers env worker_New = None ->
      answers env worker_Start = Some m ->
      answers env (worker_Shutdown false false) = None ->
      flow r = Return (Some ("Error starting worker: " ++ m)) /\
      forall msg, ~ In (UI_Error msg) (trace r)) /\
   (forall m,
      answers env worker_New = Some m ->
      flow r = Return (Some ("Error initializing worker: " ++ m)) /\
      trace r = [worker_New])).
Proof.
  split; cbv zeta.
  - rewrite StartController_eq.
    destruct (answers env controller_New) as [m1 |];
      [| destruct (answers env controller_Start) as [m2 |];
         [destruct (answers env (controller_Shutdown false false))
            as [m3 |] |]];
      rewrite ?trace_triple, ?final_triple, ?flow_triple; cbn;
      repeat split; intros;
      repeat match goal with
             | H : _ /\ _ |- _ => destruct H
             | H : _ \/ _ |- _ => destruct H
             | H : controller_Shutdown _ _ = controller_Shutdown _ _ |- _ =>
                 injection H as <- <-
             | H : Some _ = Some _ |- _ => injection H as <-
             end;
      try discriminate; try congruence; try tauto; eauto;
      try solve [in_list];
      try solve [intros Hin; repeat (destruct Hin as [Hin | Hin];
                                      try discriminate); contradiction].
  - rewrite StartWorker_eq.
    destruct (answers env worker_New) as [m1 |];
      [| destruct (answers env worker_Start) as [m2 |];
         [destruct (answers env (worker_Shutdown false false))
            as [m3 |] |]];
      rewrite ?trace_triple, ?final_triple, ?flow_triple; cbn;
      repeat split; intros;
      repeat match goal with
             | H : _ /\ _ |- _ => destruct H
             | H : _ \/ _ |- _ => destruct H
             | H : worker_Shutdown _ _ = worker_Shutdown _ _ |- _ =>
                 injection H as <- <-
             | H : Some _ = Some _ |- _ => injection H as <-
             end;
      try discriminate; try congruence; try tauto; eauto;
      try solve [in_list];
      try solve [intros Hin; repeat (destruct Hin as [Hin | Hin];
                                      try discriminate); contradiction].
Qed.

Lemma X9_start_servers_witness :
  flow (StartController (Examples.env Examples.combined []) initialCommand)
  = Next None /\
  flow (StartWorker
          (Inputs.workerStartFails (Examples.env Inputs.workerOnly [])
             "dial tcp: connection refused" NilPanics) initialCommand)
  = Return (Some "Error starting worker: dial tcp: connection refused").
Proof.
  split.
  - apply (proj1 (proj1 (X9_start_servers
                           (Examples.env Examples.combined [])
                           initialCommand))).
    split; reflexivity.
  - apply (proj2 (X9_start_servers
                    (Inputs.workerStartFails
                       (Examples.env Inputs.workerOnly [])
                       "dial tcp: connection refused" NilPanics)
                    initialCommand));
      reflexivity.
Defined.

(** X10: whatever signals [WaitForInterrupt] handles and however it ends,
    it only prints and logs, reads the config file, sets the level of the
    logger, calls reload functions and shuts the servers down: it creates
    no server and touches neither the listeners nor the database; and it
    leaves the receiver as it was but for the level of the logger. *)
Theorem X10_dispatch_loop (env : Env) (sigs : list Signal) (c : Command) :
  Forall (fun e => dispatchEvent e = true)
    (trace (WaitForInterrupt_on env sigs c)) /\
  butLoggerLevel (final (WaitForInterrupt_on env sigs c)) = butLoggerLevel c.
Proof. exact (WaitForInterrupt_on_sound env sigs c). Qed.

(** ** More on the reload, the schema manager and its liveness loop *)

Lemma relFuncCalls_In (k k' : string) (relFuncs : list RelFunc) :
  forall i j,
    In (relFunc k' j) (relFuncCalls k i relFuncs) <->
    k' = k /\ (i <= j)%nat /\
    exists f, nth_error relFuncs (j - i) = Some (Some f).
Proof.
  induction relFuncs as [| r rest IH]; intros i j; cbn [relFuncCalls].
  - split; [intros [] |]. intros (_ & _ & f & H).
    now destruct (j - i)%nat.
  - assert (Hrest :
              In (relFunc k' j) (relFuncCalls k (S i) rest) <->
              k' = k /\ (i < j)%nat /\
              exists f, nth_error (r :: rest) (j - i) = Some (Some f)).
    { rewrite IH. split; intros (Hk & Hi & f & Hf); (split; [exact Hk |]);
        (split; [lia |]); exists f.
      - replace (j - i)%nat with (S (j - S i)) by lia. exact Hf.
      - replace (j - i)%nat with (S (j - S i)) in Hf by lia. exact Hf. }
    destruct r as [f0 |].
    + cbn [In]. rewrite Hrest. split.
      * intros [H | (Hk & Hi & f & Hf)].
        -- injection H as <- <-. split; [reflexivity |]. split; [lia |].
           exists f0. now rewrite Nat.sub_diag.
        -- split; [exact Hk |]. split; [lia | now exists f].
      * intros (Hk & Hi & f & Hf).
        destruct (Nat.eq_dec i j) as [<- | Hne]; [left; now subst |].
        right. split; [exact Hk |]. split; [lia | now exists f].
    + rewrite Hrest. split; intros (Hk & Hi & f & Hf);
        (split; [exact Hk |]).
      * split; [lia | now exists f].
      * split; [| now exists f].
        destruct (Nat.eq_dec i j) as [<- | Hne]; [| lia].
        rewrite Nat.sub_diag in Hf. discriminate.
Qed.

Lemma relFuncCalls_relFunc (k : string) (relFuncs : list RelFunc) :
  forall i e,
    In e (relFuncCalls k i relFuncs) -> exists k' j, e = relFunc k' j.
Proof.
  induction relFuncs as [| [f |] rest IH]; intros i e; cbn [relFuncCalls In].
  - intros [].
  - intros [<- | H]; [eauto | exact (IH _ _ H)].
  - exact (IH _ _).
Qed.

Lemma relFuncErrors_nil (relFuncs : list RelFunc) :
  relFuncErrors relFuncs = [] <->
  forall m, ~ In (Some (Some m)) relFuncs.
Proof.
  induction relFuncs as [| [[m0 |] |] rest IH]; cbn [relFuncErrors In].
  - split; [intros _ m [] | reflexivity].
  - split; [discriminate |]. intros H. exfalso. apply (H m0). now left.
  - rewrite IH. split; intros H m; [intros [? | ?]; [discriminate |] |];
      firstorder.
  - rewrite IH. split; intros H m; [intros [? | ?]; [discriminate |] |];
      firstorder.
Qed.

Lemma listenerKeyed_In (m : list (string * list RelFunc)) (k : string)
    (relFuncs : list RelFunc) :
  In (k, relFuncs) (listenerKeyed m) <->
  In (k, relFuncs) m /\ strings.HasPrefix k "listener|" = true.
Proof. unfold listenerKeyed. now rewrite filter_In. Qed.

(** X11: [Reload] calls the functions registered under the keys that
    start with [listener|], and no other: each such function that is not
    nil, once; it then makes its send on [ReloadedCh], the last thing it
    does; it leaves the receiver as it is; it always comes to its end, with
    nil exactly when none of the functions it called failed. *)
Theorem X11_reload (env : Env) (c : Command) :
  let r := Reload env c in
  final r = c /\
  (exists e, flow r = Next e) /\
  (exists t,
     trace r = (t ++ [ReloadedCh_send])%list /\
     forall e, In e t -> exists k i, e = relFunc k i) /\
  (forall k i,
     In (relFunc k i) (trace r) <->
     strings.HasPrefix k "listener|" = true /\
     exists relFuncs f,
       In (k, relFuncs) (ReloadFuncs c) /\
       nth_error relFuncs i = Some (Some f)) /\
  (flow r = Next None <->
   forall k relFuncs m,
     In (k, relFuncs) (ReloadFuncs c) ->
     strings.HasPrefix k "listener|" = true ->
     ~ In (Some (Some m)) relFuncs).
Proof.
  cbv zeta. rewrite Reload_eq, trace_triple, final_triple, flow_triple.
  split; [reflexivity |]. split; [eauto |].
  assert (Hcalls : forall k i,
             In (relFunc k i) (reloadCalls (ReloadFuncs c)) <->
             strings.HasPrefix k "listener|" = true /\
             exists relFuncs f,
               In (k, relFuncs) (ReloadFuncs c) /\
               nth_error relFuncs i = Some (Some f)).
  { intros k i. unfold reloadCalls. rewrite in_flat_map. split.
    - intros ([k' fs] & Hin & Hc). cbn [fst snd] in Hc.
      apply relFuncCalls_In in Hc. destruct Hc as (-> & _ & f & Hf).
      rewrite Nat.sub_0_r in Hf. apply listenerKeyed_In in Hin.
      destruct Hin as [Hin Hp]. split; [exact Hp |]. now exists fs, f.
    - intros (Hp & fs & f & Hin & Hf). exists (k, fs). split.
      + apply listenerKeyed_In. now split.
      + cbn [fst snd]. apply relFuncCalls_In. split; [reflexivity |].
        split; [lia |]. exists f. now rewrite Nat.sub_0_r. }
  split; [| split].
  - exists (reloadCalls (ReloadFuncs c)). split; [reflexivity |].
    intros e He. unfold reloadCalls in He. apply in_flat_map in He.
    destruct He as (kv & _ & He). exact (relFuncCalls_relFunc _ _ _ _ He).
  - intros k i. rewrite <- Hcalls. split.
    + intros H. apply in_app_or in H.
      destruct H as [H | [H | []]]; [exact H | discriminate].
    + intros H. apply in_or_app. now left.
  - unfold ErrorOrNil. split.
    + intros H k fs m Hin Hp.
      destruct (reloadErrors (ReloadFuncs c)) eqn:He; [| discriminate].
      unfold reloadErrors in He.
      assert (Hfs : relFuncErrors fs = []).
      { destruct (relFuncErrors fs) as [| e l] eqn:Hfs; [reflexivity |].
        assert (Hin' : In e (flat_map (fun kv => relFuncErrors (snd kv))
                               (listenerKeyed (ReloadFuncs c)))).
        { apply in_flat_map. exists (k, fs). split.
          - apply listenerKeyed_In. now split.
          - cbn [snd]. rewrite Hfs. now left. }
        rewrite He in Hin'. destruct Hin'. }
      now apply relFuncErrors_nil.
    + intros H.
      assert (He : reloadErrors (ReloadFuncs c) = []).
      { unfold reloadErrors.
        destruct (flat_map _ _) as [| e l] eqn:He; [reflexivity |].
        assert (Hin : In e (flat_map (fun kv => relFuncErrors (snd kv))
                              (listenerKeyed (ReloadFuncs c))))
          by (rewrite He; now left).
        apply in_flat_map in Hin. destruct Hin as ([k fs] & Hin & Hfs).
        apply listenerKeyed_In in Hin. destruct Hin as [Hin Hp].
        cbn [snd] in Hfs.
        assert (Hn : relFuncErrors fs = [])
          by (apply relFuncErrors_nil; intros m; exact (H k fs m Hin Hp)).
        rewrite Hn in Hfs. destruct Hfs. }
      now rewrite He.
Qed.

Lemma X11_reload_witness :
  let c := set_ReloadFuncs
             [("listener|tcp", [Some None; None; Some (Some "bind failed")]);
              ("audit", [Some (Some "never called")])]
             initialCommand in
  In (relFunc "listener|tcp" 2)
     (trace (Reload (Examples.env Examples.combined []) c)) /\
  ~ In (relFunc "audit" 0)
      (trace (Reload (Examples.env Examples.combined []) c)).
Proof.
  intros c.
  destruct (X11_reload (Examples.env Examples.combined []) c)
    as (_ & _ & _ & Hcalls & _).
  split.
  - apply Hcalls. split; [reflexivity |].
    exists [Some None; None; Some (Some "bind failed")], (Some "bind failed").
    split; [now left | reflexivity].
  - intros H. apply Hcalls in H. destruct H as [H _]. discriminate H.
Defined.

(** X12: while every ping succeeds or the context is cancelled, the
    liveness loop of the schema manager only pings and resets its ticker:
    it builds no manager, takes no lock, cancels nothing and leaves the
    receiver as it is; it returns at the first iteration whose [select]
    receives from the done context, and goes on otherwise. *)
Theorem X12_liveness_quiet (ticks : list Tick) (c : Command) :
  (forall k, In k ticks -> pingFails k = false) ->
  let r := ensureManagerConnection ticks c in
  final r = c /\
  Forall (fun e => e = Ping \/ e = ticker_Reset) (trace r) /\
  (flow r = Return tt <-> exists k, In k ticks /\ select_Done k = true) /\
  (flow r = Blocked <-> forall k, In k ticks -> select_Done k = false).
Proof.
  cbv zeta. induction ticks as [| k rest IH]; intros Hp.
  - cbn. split; [reflexivity |]. split; [constructor |]. split.
    + split; [discriminate | intros (k & [] & _)].
    + split; [intros _ k [] | reflexivity].
  - rewrite (ensureManagerConnection_wait k rest c (Hp k (or_introl eq_refl))).
    destruct (IH (fun k' H => Hp k' (or_intror H)))
      as (Hf & Ht & Hr & Hb).
    destruct (select_Done k) eqn:Hd;
      rewrite trace_triple, final_triple, flow_triple.
    + split; [reflexivity |]. split; [repeat constructor; now left |].
      split.
      * split; [intros _; exists k; split; [now left | exact Hd]
               | reflexivity].
      * split; [discriminate |]. intros H.
        specialize (H k (or_introl eq_refl)). congruence.
    + split; [exact Hf |].
      split; [constructor; [now left |]; constructor; [now right | exact Ht] |].
      split.
      * rewrite Hr. split.
        -- intros (k' & Hin & Hk'). exists k'. split; [now right | exact Hk'].
        -- intros (k' & [<- | Hin] & Hk'); [congruence |]. now exists k'.
      * rewrite Hb. split.
        -- intros H k' [<- | Hin]; [exact Hd | now apply H].
        -- intros H k' Hin. apply H. now right.
Qed.

Lemma X12_liveness_quiet_witness :
  let ok := {| Ping_err := None; Context_Err := None; NewManager_err := None;
               SharedLock_err := None; select_Done := false |} in
  let stop := {| Ping_err := Some "context canceled";
                 Context_Err := Some "context canceled";
                 NewManager_err := None; SharedLock_err := None;
                 select_Done := true |} in
  final (ensureManagerConnection [ok; ok; stop; ok] initialCommand)
  = initialCommand /\
  flow (ensureManagerConnection [ok; ok; stop; ok] initialCommand)
  = Return tt.
Proof.
  intros ok stop.
  assert (Hp : forall k, In k [ok; ok; stop; ok] -> pingFails k = false)
    by (intros k [<- | [<- | [<- | [<- | []]]]]; reflexivity).
  destruct (X12_liveness_quiet [ok; ok; stop; ok] initialCommand Hp)
    as (Hf & _ & Hr & _).
  split; [exact Hf |]. apply Hr. exists stop. split; [in_list | reflexivity].
Defined.

(** X13: [connectSchemaManager] never panics: it returns nil or an
    error.  It asks for the shared lock exactly when the manager was
    built, and then [c.SchemaManager] is that manager; it registers the
    function that releases the lock, as the last of the shutdown functions,
    exactly when the lock was taken, and reads the schema state exactly
    then; and it starts the liveness loop exactly when it returns nil. *)
Theorem X13_connect_schema_manager (env : Env) (dialect : string)
    (c : Command) :
  let r := connectSchemaManager env dialect c in
  (flow r = Next None \/ exists m, flow r = Return (Some m)) /\
  SchemaManager (final r)
  = (if isNil (answers env (schema_NewManager dialect))
     then true else SchemaManager c) /\
  (In SharedLock (trace r) <->
   answers env (schema_NewManager dialect) = None) /\
  ShutdownFuncs (final r)
  = (if isNil (answers env (schema_NewManager dialect))
        && isNil (answers env SharedLock)
     then (ShutdownFuncs c ++ [SharedUnlockFunc])%list
     else ShutdownFuncs c) /\
  (In CurrentState (trace r) <->
   answers env (schema_NewManager dialect) = None /\
   answers env SharedLock = None) /\
  (In go_ensureManagerConnection (trace r) <-> flow r = Next None).
Proof.
  unfold connectSchemaManager, ask, bind, emit, ret, return_, modify, get,
    trace, final, flow.
  cbn beta iota.
  destruct (answers env (schema_NewManager dialect)) as [m1 |]; cbn;
    [| destruct (answers env SharedLock) as [m2 |]; cbn;
       [| destruct (currentState env) as [st [m3 |]]; cbn;
          [| destruct (InitializationStarted st); cbn;
             [destruct (Dirty st); cbn;
              [| destruct (BinarySchemaVersion st >? DatabaseSchemaVersion st)%Z;
                 cbn;
                 [| destruct (BinarySchemaVersion st
                              <? DatabaseSchemaVersion st)%Z; cbn]] |]]]];
    repeat split; intros;
    repeat match goal with
           | H : _ /\ _ |- _ => destruct H
           | H : _ \/ _ |- _ => destruct H
           | H : False |- _ => destruct H
           end;
    try discriminate; try congruence; eauto; try solve [in_list].
Qed.

Lemma X13_connect_schema_manager_witness :
  In go_ensureManagerConnection
     (trace (connectSchemaManager (Examples.env Examples.combined [])
               "postgres" initialCommand)) /\
  ShutdownFuncs (final (connectSchemaManager
                          (Examples.env Examples.combined [])
                          "postgres" initialCommand))
  = [SharedUnlockFunc].
Proof.
  destruct (X13_connect_schema_manager (Examples.env Examples.combined [])
              "postgres" initialCommand)
    as (_ & _ & _ & Hs & _ & Hgo).
  split; [apply Hgo; reflexivity | exact Hs].
Defined.

(** X14: [verifyKmsSetup] returns nil exactly when the KMS repository
    is created and the root keys it lists, without an error, have one of
    the global scope; it never panics, lists the root keys exactly when
    the repository was created, and leaves the receiver as it is. *)
Theorem X14_verify_kms_setup (env : Env) (c : Command) :
  let r := verifyKmsSetup env c in
  final r = c /\
  (flow r = Next None \/ exists m, flow r = Next (Some m) \/
                                   flow r = Return (Some m)) /\
  (flow r = Next None <->
   answers env kms_NewRepository = None /\
   exists rks, listRootKeys env = (rks, None) /\ In "global" rks) /\
  (In ListRootKeys (trace r) <-> answers env kms_NewRepository = None).
Proof.
  unfold verifyKmsSetup, bind, ask, emit, ret, return_, trace, final, flow.
  cbn beta iota.
  destruct (answers env kms_NewRepository) as [m |]; cbn.
  { split; [reflexivity |]. split; [right; exists ("error creating kms repository: " ++ m); now right |].
    split; [split; [discriminate | intros [H _]; discriminate] |].
    split; [intros [H | []]; discriminate | discriminate]. }
  destruct (listRootKeys env) as [rks [m |]]; cbn.
  { split; [reflexivity |]. split; [right; exists m; now right |].
    split; [split; [discriminate | intros (_ & ? & [=] & _)] |].
    split; [reflexivity | intros _; right; now left]. }
  destruct (existsb (fun rk => rk =? "global") rks) eqn:Hex; cbn;
    (split; [reflexivity |]).
  - split; [now left |]. split; [| split; [reflexivity | right; now left]].
    split; [intros _ | reflexivity]. split; [reflexivity |].
    exists rks. split; [reflexivity |].
    apply existsb_exists in Hex. destruct Hex as (rk & Hin & Heq).
    apply String.eqb_eq in Heq. now subst rk.
  - split; [right; eexists; left; reflexivity |].
    split; [| split; [reflexivity | right; now left]].
    split; [discriminate |]. intros (_ & rks' & [= <-] & Hin).
    assert (existsb (fun rk => rk =? "global") rks = true)
      by (apply existsb_exists; exists "global"; split; trivial).
    congruence.
Qed.

Lemma X14_verify_kms_setup_witness :
  flow (verifyKmsSetup (Examples.env Examples.combined []) initialCommand)
  = Next None.
Proof.
  apply (proj1 (proj2 (proj2 (X14_verify_kms_setup
                                (Examples.env Examples.combined [])
                                initialCommand)))).
  split; [reflexivity |]. exists ["global"]. split; [reflexivity | now left].
Defined.

(** ** No silent failure *)

Section LoudRules.

Context {A : Type}.

Lemma loud_ret (a : A) : loud (ret a).
Proof. now intros c. Qed.

Lemma loud_get : loud get.
Proof. now intros c. Qed.

Lemma loud_emit (e : Event) : loud (emit e).
Proof. now intros c. Qed.

Lemma loud_modify (g : Command -> Command) : loud (modify g).
Proof. now intros c. Qed.

Lemma loud_panic : loud (panic (A := A)).
Proof. now intros c. Qed.

Lemma loud_blocked : loud (blocked (A := A)).
Proof. now intros c. Qed.

Lemma loud_call {R : Type} (body : Prog R R) : loud (call body).
Proof.
  intros c. unfold call, flow. now destruct (body c) as [[t c1] [a | r | |]].
Qed.

Lemma loud_ask (env : Env) (e : Event) : loud (ask env e).
Proof. now intros c. Qed.

Lemma loud_fail1 (msg : string) : loud (fail1 (A := A) msg).
Proof. intros c. cbn. exists msg. now left. Qed.

Lemma loud_bind {B : Type} (m : Prog Z A) (k : A -> Prog Z B) :
  loud m -> (forall a, loud (k a)) -> loud (bind m k).
Proof.
  intros Hm Hk c. specialize (Hm c). unfold bind, trace, flow in *.
  destruct (m c) as [[t c1] [a | r | |]]; cbn [fst snd] in *; trivial.
  specialize (Hk a c1). unfold trace, flow in Hk.
  destruct (k a c1) as [[t2 c2] [b | r | |]]; cbn [fst snd] in *; trivial.
  destruct Hk as [msg Hin]. exists msg. apply in_or_app. now right.
Qed.

(** After an error was reported, whatever follows is loud. *)
Lemma loud_after_error (msg : string) (k : unit -> Prog Z A) :
  loud (bind (emit (UI_Error msg)) k).
Proof.
  intros c. rewrite bind_emit, flow_triple, trace_triple.
  destruct (flow (k tt c)); trivial. exists msg. now left.
Qed.

End LoudRules.

Lemma loud_failWith1 (err : error) (msg : string -> string) :
  loud (failWith1 err msg).
Proof.
  intros c. destruct err as [m |]; cbn; trivial. exists (msg m). now left.
Qed.

Ltac loud_step :=
  cbv beta iota zeta;
  lazymatch goal with
  | |- loud (bind (emit (UI_Error _)) _) => apply loud_after_error
  | |- loud (bind _ _) => apply loud_bind; [| intros ?]
  | |- loud (ret _) => apply loud_ret
  | |- loud get => apply loud_get
  | |- loud panic => apply loud_panic
  | |- loud blocked => apply loud_blocked
  | |- loud (emit _) => apply loud_emit
  | |- loud (modify _) => apply loud_modify
  | |- loud (defer _) => apply loud_modify
  | |- loud (call _) => apply loud_call
  | |- loud (ask _ _) => apply loud_ask
  | |- loud (failWith1 _ _) => apply loud_failWith1
  | |- loud (fail1 _) => apply loud_fail1
  | |- loud (if ?b then _ else _) => destruct b
  | |- loud (match ?x with _ => _ end) => destruct x
  end.

Section Loud.

Context {net : NetLib}.
Variable env : Env.

Lemma ParseFlagsAndConfig_loud : loud (ParseFlagsAndConfig env).
Proof. unfold ParseFlagsAndConfig. repeat loud_step. Qed.

Lemma Run_setup_loud : loud (Run_setup env).
Proof.
  intros c. unfold Run_setup, defer.
  rewrite bind_modify, bind_get, bind_modify.
  set (c1 := set_CombineLogs _ _).
  rewrite bind_cases, call_trace, call_final, call_flow.
  pose proof (ParseFlagsAndConfig_loud c1) as Hl.
  destruct (ParseFlagsAndConfig_cases env c1) as [(Hf & _) | [Hf | Hf]];
    rewrite Hf in *; cbv beta iota; cbn [Z.gtb Z.compare];
    rewrite ?flow_triple, ?trace_triple; trivial.
  - rewrite bind_ret.
    match goal with
    | |- context [flow (?m ?c2)] =>
        assert (Hs : loud m) by repeat loud_step;
          specialize (Hs c2); destruct (flow (m c2)); trivial
    end.
    destruct Hs as [msg Hin]. exists msg. apply in_or_app. now right.
  - rewrite bind_cases. cbn [flow return_ snd trace fst].
    rewrite ?flow_triple, ?trace_triple, ?app_nil_r. exact Hl.
Qed.

Lemma Run_listeners_loud (lns : list Listener) :
  forall clusterAddr foundApi foundProxy,
    loud (Run_listeners lns clusterAddr foundApi foundProxy).
Proof.
  induction lns as [| ln rest IH]; intros clusterAddr foundApi foundProxy;
    cbn [Run_listeners]; repeat first [apply IH | loud_step].
Qed.

Lemma Run_controllers_loud (l : list string) : loud (Run_controllers l).
Proof.
  induction l as [| controller rest IH]; cbn [Run_controllers];
    repeat first [apply IH | loud_step].
Qed.

Lemma Run_validate_loud : loud Run_validate.
Proof.
  unfold Run_validate, Run_controllerListeners, Run_worker, Run_combined,
    Config_Worker, Config_Controller.
  repeat first [apply Run_listeners_loud | apply Run_controllers_loud
               | loud_step].
Qed.

Lemma Run_clusterPurposes_loud (k : ControllerBlock) (ln : Listener)
    (purposes : list string) :
  loud (Run_clusterPurposes k ln purposes).
Proof.
  induction purposes as [| purpose rest IH]; cbn [Run_clusterPurposes];
    repeat first [apply IH | loud_step].
Qed.

Lemma Run_clusterListeners_loud (k : ControllerBlock) (lns : list Listener) :
  loud (Run_clusterListeners k lns).
Proof.
  induction lns as [| ln rest IH]; cbn [Run_clusterListeners];
    repeat first [apply IH | apply Run_clusterPurposes_loud | loud_step].
Qed.

Lemma Run_bind_loud : loud (Run_bind env).
Proof.
  unfold Run_bind.
  repeat first [apply Run_clusterListeners_loud | loud_step].
Qed.

Lemma Run_pid_loud : loud (Run_pid env).
Proof. unfold Run_pid. repeat loud_step. Qed.

Lemma Run_database_loud : loud (Run_database env).
Proof. unfold Run_database. repeat loud_step. Qed.

Lemma Run_start_loud : loud (Run_start env).
Proof.
  unfold Run_start, c_controller_Shutdown.
  repeat loud_step.
Qed.

Lemma Run_body_loud : loud (Run_body env).
Proof.
  unfold Run_body.
  repeat first [apply Run_setup_loud | apply Run_validate_loud
               | apply Run_bind_loud | apply Run_pid_loud
               | apply Run_database_loud | apply Run_start_loud
               | loud_step].
Qed.

End Loud.

(** X15: [Run] never fails in silence: when it exits with 1, its body
    has reported an error on the UI. *)
Theorem X15_no_silent_failure {net : NetLib} (env : Env) (c0 : Command) :
  flow (Run env c0) = Next 1 ->
  exists msg, In (UI_Error msg) (trace (Run_body env c0)).
Proof.
  intros Hf.
  destruct (Run_inv env c0) as (td & _ & _ & Hfl).
  pose proof (Run_body_runExit env c0) as He.
  pose proof (Run_body_loud env c0) as Hl.
  unfold runExit in He. rewrite Hfl in Hf.
  destruct (flow (Run_body env c0)) as [r | r | |]; try discriminate.
  - destruct He as [-> _]. discriminate.
  - exact Hl.
Qed.

Lemma X15_no_silent_failure_witness :
  exists msg,
    In (UI_Error msg)
      (trace (Run_body (net := SampleNet.net)
                (Examples.env Inputs.mismatched []) initialCommand)).
Proof.
  apply (X15_no_silent_failure (net := SampleNet.net)
           (Examples.env Inputs.mismatched []) initialCommand).
  vm_compute. reflexivity.
Defined.

(** ** The roles of a server *)

Section RoleRules.

Context {R : Type}.
Variable cfg : ConfigT.

Lemma roleSound_sound {A : Type} (m : Prog R A) :
  sound (roleEvent cfg) Config m -> roleSound cfg m.
Proof. intros H c Hc. destruct (H c) as [Ht Hf]. split; congruence. Qed.

Lemma roleSound_bind {A B : Type} (m : Prog R A) (k : A -> Prog R B) :
  roleSound cfg m -> (forall a, roleSound cfg (k a)) ->
  roleSound cfg (bind m k).
Proof.
  intros Hm Hk c Hc. destruct (Hm c Hc) as [Ht Hf]. rewrite bind_cases.
  destruct (flow (m c)) as [a | r | |];
    rewrite trace_triple, final_triple; try (now split).
  destruct (Hk a (final (m c)) Hf) as [Ht2 Hf2].
  split; [now apply Forall_app | exact Hf2].
Qed.

Lemma roleSound_get {B : Type} (k : Command -> Prog R B) :
  (forall c, Config c = cfg -> roleSound cfg (k c)) ->
  roleSound cfg (bind get k).
Proof. intros H c Hc. rewrite bind_get. now apply H. Qed.

End RoleRules.

Lemma dispatchEvent_roleEvent (cfg : ConfigT) (e : Event) :
  dispatchEvent e = true -> roleEvent cfg e = true.
Proof. now destruct e. Qed.

Lemma beforeListeners_roleEvent (cfg : ConfigT) (e : Event) :
  beforeListeners e = true -> roleEvent cfg e = true.
Proof. now destruct e. Qed.

Lemma deferredEvent_roleEvent (cfg : ConfigT) (e : Event) :
  deferredEvent e = true -> roleEvent cfg e = true.
Proof. now destruct e. Qed.

Lemma roleEvent_validatedConfig (cfg : ConfigT) (e : Event) :
  roleEvent (validatedConfig cfg) e = roleEvent cfg e.
Proof.
  unfold roleEvent.
  now rewrite validatedConfig_Controller, validatedConfig_Worker.
Qed.

(** An event that needs a role, the block of that role being there. *)
Ltac role_event :=
  first
    [ reflexivity
    | cbn;
      match goal with
      | H : Controller _ = Some _ |- _ => rewrite H
      | H : Worker _ = Some _ |- _ => rewrite H
      end; reflexivity ].

Ltac role_step :=
  cbv beta iota zeta;
  lazymatch goal with
  | |- sound _ _ (emit _) => apply sound_emit; role_event
  | |- sound _ _ (ask _ _) => apply sound_ask; role_event
  | _ => sound_step
  end.

Section Roles.

Context {net : NetLib}.
Variable env : Env.
Variable cfg : ConfigT.

Lemma Run_clusterPurposes_role (k : ControllerBlock) (ln : Listener)
    (purposes : list string) :
  sound (roleEvent cfg) Config (Run_clusterPurposes k ln purposes).
Proof.
  induction purposes as [| purpose rest IH]; cbn [Run_clusterPurposes];
    repeat first [apply IH | role_step].
Qed.

Lemma Run_clusterListeners_role (k : ControllerBlock) (lns : list Listener) :
  sound (roleEvent cfg) Config (Run_clusterListeners k lns).
Proof.
  induction lns as [| ln rest IH]; cbn [Run_clusterListeners];
    repeat first [apply IH | apply Run_clusterPurposes_role | role_step].
Qed.

Lemma c_controller_Shutdown_role {R : Type} (waitForWorker : bool) :
  sound (roleEvent cfg) Config
    (c_controller_Shutdown (R := R) env waitForWorker).
Proof.
  exact (sound_weaken dispatchEvent (roleEvent cfg) butLoggerLevel Config _
           (dispatchEvent_roleEvent cfg)
           (c_controller_Shutdown_sound env waitForWorker)).
Qed.

Lemma c_worker_Shutdown_role {R : Type} (drain : bool) :
  sound (roleEvent cfg) Config (c_worker_Shutdown (R := R) env drain).
Proof.
  exact (sound_weaken dispatchEvent (roleEvent cfg) butLoggerLevel Config _
           (dispatchEvent_roleEvent cfg)
           (c_worker_Shutdown_sound env drain)).
Qed.

Lemma WaitForInterrupt_role :
  sound (roleEvent cfg) Config (WaitForInterrupt env).
Proof.
  exact (sound_weaken dispatchEvent (roleEvent cfg) butLoggerLevel Config _
           (dispatchEvent_roleEvent cfg)
           (WaitForInterrupt_on_sound env (signals env))).
Qed.

Lemma Run_bind_role : roleSound cfg (Run_bind env).
Proof.
  unfold Run_bind.
  apply roleSound_bind; [apply roleSound_sound; role_step | intros err].
  apply roleSound_bind; [apply roleSound_sound; role_step | intros _].
  apply roleSound_get. intros c Hc. rewrite Hc.
  destruct (Worker cfg) as [w |] eqn:Hw;
    destruct (Controller cfg) as [k |] eqn:Hk;
    apply roleSound_sound;
    repeat first [apply Run_clusterListeners_role | role_step].
Qed.

Lemma Run_pid_role : roleSound cfg (Run_pid env).
Proof. apply roleSound_sound. unfold Run_pid. repeat role_step. Qed.

Lemma Run_database_role : roleSound cfg (Run_database env).
Proof.
  unfold Run_database. apply roleSound_get. intros c Hc. rewrite Hc.
  destruct (Controller cfg) as [k |] eqn:Hk;
    apply roleSound_sound; unfold connectSchemaManager, verifyKmsSetup;
    repeat role_step.
Qed.

Lemma Run_start_role : roleSound cfg (Run_start env).
Proof.
  unfold Run_start, defer.
  apply roleSound_bind; [apply roleSound_sound; role_step | intros _].
  apply roleSound_bind; [apply roleSound_sound; role_step | intros _].
  apply roleSound_bind; [apply roleSound_sound; role_step | intros _].
  apply roleSound_get. intros c Hc. rewrite Hc.
  destruct (Worker cfg) as [w |] eqn:Hw;
    destruct (Controller cfg) as [k |] eqn:Hk;
    cbn [isNil negb];
    apply roleSound_sound; unfold StartController, StartWorker;
    repeat first [apply c_controller_Shutdown_role
                 | apply c_worker_Shutdown_role
                 | apply WaitForInterrupt_role | role_step].
Qed.

Lemma Run_rest_role :
  roleSound cfg
    (Run_bind env ;; Run_pid env ;; Run_database env ;; Run_start env).
Proof.
  apply roleSound_bind; [apply Run_bind_role | intros _].
  apply roleSound_bind; [apply Run_pid_role | intros _].
  apply roleSound_bind; [apply Run_database_role | intros _].
  apply Run_start_role.
Qed.

End Roles.

(** X16: [Run] does only what the roles of the config ask for: it
    touches the database, sets the public cluster address, and creates and
    starts a controller only with a controller block; it sets the public
    address of the worker, and creates and starts a worker, only with a
    worker block. *)
Theorem X16_roles {net : NetLib} (env : Env) (cfg : ConfigT) (c0 : Command) :
  loadFile env = LoadOk cfg ->
  Forall (fun e => roleEvent cfg e = true) (trace (Run env c0)).
Proof.
  intros Hload.
  destruct (Run_inv env c0) as (td & Htd & Ht & _). rewrite Ht.
  apply Forall_app. split.
  2:{ eapply Forall_impl; [| exact Htd]. apply deferredEvent_roleEvent. }
  rewrite (Run_body_validate env).
  destruct (post_bind_inv _ _
              (fun _ => Run_bind env ;; Run_pid env ;; Run_database env ;;
                        Run_start env) _ _
              (Run_upto_validate_strict env cfg Hload c0))
    as [Hpre [[_ Heq] | (a & _ & (Hc & _) & Heq)]];
    rewrite Heq, trace_triple.
  - eapply Forall_impl; [| exact Hpre]. apply beforeListeners_roleEvent.
  - apply Forall_app. split.
    + eapply Forall_impl; [| exact Hpre]. apply beforeListeners_roleEvent.
    + destruct (Run_rest_role env (validatedConfig cfg) _ Hc) as [Hr _].
      eapply Forall_impl; [| exact Hr]. cbv beta. intros e He.
      now rewrite roleEvent_validatedConfig in He.
Qed.

Lemma X16_roles_witness :
  Forall (fun e => roleEvent Inputs.workerOnly e = true)
    (trace (Run (net := SampleNet.net)
              (Examples.env Inputs.workerOnly [ContextDone]) initialCommand)).
Proof.
  exact (X16_roles (net := SampleNet.net)
           (Examples.env Inputs.workerOnly [ContextDone])
           Inputs.workerOnly initialCommand eq_refl).
Defined.

(** ** When the validation of [Run] passes *)

Lemma clusterAddress_nonempty (ln : Listener) : clusterAddress ln <> "".
Proof.
  unfold clusterAddress.
  destruct (Address ln =? "") eqn:H; [discriminate |].
  now apply String.eqb_neq.
Qed.

Lemma scanCluster_nonempty (lns : list Listener) :
  forall a,
    a <> "" \/ hasPurpose "cluster" lns = true -> scanCluster lns a <> "".
Proof.
  induction lns as [| ln rest IH]; intros a H.
  - destruct H as [H | H]; [exact H | discriminate].
  - rewrite scanCluster_cons. apply IH.
    rewrite hasPurpose_cons in H.
    destruct (purposeIs "cluster" ln).
    + left. apply clusterAddress_nonempty.
    + exact H.
Qed.

Lemma clusterAddrOf_empty (lns : list Listener) :
  (clusterAddrOf lns =? "") = negb (hasPurpose "cluster" lns).
Proof.
  unfold clusterAddrOf.
  destruct (hasPurpose "cluster" lns) eqn:H; cbn [negb].
  - apply String.eqb_neq. apply scanCluster_nonempty. now right.
  - now rewrite (scanCluster_none _ _ H).
Qed.

Lemma fail1_eq {A : Type} (msg : string) (c : Command) :
  fail1 (A := A) msg c = ([UI_Error msg], c, Return 1).
Proof. reflexivity. Qed.

Lemma bind_fail1 {A B : Type} (msg : string) (k : A -> Prog Z B)
    (c : Command) :
  bind (fail1 msg) k c = ([UI_Error msg], c, Return 1).
Proof. reflexivity. Qed.

Section Accepting.

Context {net : NetLib}.

(** The loop over the listeners, as an equation on how it ends. *)
Lemma Run_listeners_flow (lns : list Listener) :
  forall (clusterAddr : string) (foundApi foundProxy : bool) (c : Command),
    flow (Run_listeners lns clusterAddr foundApi foundProxy c) =
      (if forallb listenerCheck lns
       then Next (scanCluster lns clusterAddr,
                  foundApi || hasPurpose "api" lns,
                  foundProxy || hasPurpose "proxy" lns)
       else Return 1) /\
    final (Run_listeners lns clusterAddr foundApi foundProxy c) = c.
Proof.
  induction lns as [| ln rest IH]; intros clusterAddr foundApi foundProxy c;
    cbn [Run_listeners forallb].
  - cbn. now rewrite !orb_false_r.
  - rewrite scanCluster_cons, !hasPurpose_cons.
    unfold listenerCheck at 1. unfold purposeIs.
    destruct (Purpose ln) as [| purpose [| q l]]; [now rewrite fail1_eq | |
      now rewrite fail1_eq].
    destruct (purpose =? "cluster") eqn:Hc; cbn [orb andb].
    { apply String.eqb_eq in Hc. subst purpose. cbn [String.eqb Ascii.eqb
        Bool.eqb andb orb]. apply IH. }
    destruct (purpose =? "api") eqn:Ha; cbn [orb andb].
    { apply String.eqb_eq in Ha. subst purpose.
      destruct (IH clusterAddr true foundProxy c) as [H1 H2].
      rewrite H1, H2. split; [| reflexivity].
      now rewrite orb_true_r. }
    destruct (purpose =? "proxy") eqn:Hp; cbn [orb andb].
    { destruct (IH clusterAddr foundApi true c) as [H1 H2].
      rewrite H1, H2. split; [| reflexivity].
      now rewrite orb_true_r. }
    now rewrite fail1_eq.
Qed.

(** The loop over the upstreams, as an equation on how it ends. *)
Lemma Run_controllers_flow (l : list string) (c : Command) :
  flow (Run_controllers l c) =
    (if forallb upstreamCheck l then Next tt else Return 1) /\
  final (Run_controllers l c) = c.
Proof.
  induction l as [| e rest IH]; cbn [Run_controllers forallb].
  - now split.
  - unfold upstreamCheck at 1, stripPort.
    destruct (SplitHostPort e) as [[host port] [m |]]; cbv beta iota zeta.
    + destruct (strings.Contains m "missing port in address");
        [| now rewrite bind_fail1].
      rewrite bind_ret.
      destruct (ParseIP e) as [ip |]; [| now rewrite bind_ret].
      destruct (IsUnspecified ip); [| destruct (IsMulticast ip)];
        cbv zeta; cbn [negb andb String.eqb];
        [now rewrite bind_fail1 | now rewrite bind_fail1 |
         now rewrite bind_ret].
    + rewrite bind_ret.
      destruct (ParseIP host) as [ip |]; [| now rewrite bind_ret].
      destruct (IsUnspecified ip); [| destruct (IsMulticast ip)];
        cbv zeta; cbn [negb andb String.eqb];
        [now rewrite bind_fail1 | now rewrite bind_fail1 |
         now rewrite bind_ret].
Qed.

(** The two checks of a controller's listeners, as an equation. *)
Lemma Run_controllerListeners_eq (lns : list Listener) (foundApi : bool)
    (c : Command) :
  flow (Run_controllerListeners (clusterAddrOf lns) foundApi c) =
    (if isNil (Controller (Config c))
        || (foundApi && hasPurpose "cluster" lns)
     then Next tt else Return 1) /\
  final (Run_controllerListeners (clusterAddrOf lns) foundApi c) = c.
Proof.
  unfold Run_controllerListeners. rewrite bind_get.
  destruct (Controller (Config c)); cbn [isNil negb orb]; [| now split].
  destruct foundApi; cbn [negb andb]; [| now rewrite bind_fail1].
  rewrite bind_ret, clusterAddrOf_empty.
  now destruct (hasPurpose "cluster" lns).
Qed.

(** The checks of a worker, as an equation on how they end. *)
Lemma Run_worker_flow (lns : list Listener) (foundProxy : bool)
    (c : Command) :
  Listeners (Config c) = lns ->
  flow (Run_worker (clusterAddrOf lns) foundProxy c) =
    if match Worker (Config c) with
       | Some w =>
           foundProxy
           && match Controller (Config c) with
              | Some k => upstreamsOk k (clusterAddrOf lns) (Controllers w)
              | None => true
              end
           && forallb upstreamCheck (checkedUpstreams (Config c))
       | None => true
       end
    then Next tt else Return 1.
Proof.
  intros Hl. unfold Run_worker. rewrite bind_get.
  unfold checkedUpstreams, validatedConfig. rewrite Hl.
  destruct (Worker (Config c)) as [w |] eqn:Hw; cbn [isNil negb];
    [| reflexivity].
  destruct foundProxy; cbn [negb andb]; [| now rewrite bind_fail1].
  rewrite bind_ret.
  destruct (Controller (Config c)) as [k |] eqn:Hk; cbn [isNil negb].
  - rewrite bind_cases, (Run_combined_eq _ c k w Hk Hw).
    destruct (upstreamsOk k (clusterAddrOf lns) (Controllers w)) eqn:Hok;
      rewrite ?flow_triple, ?final_triple; cbn [andb]; [| reflexivity].
    unfold Config_Worker. rewrite bind_assoc, bind_get.
    destruct (Controllers w) as [| e l] eqn:Hcs.
    + cbn [Config set_Config Worker set_Worker]. rewrite bind_ret.
      cbn [Controllers set_Controllers].
      apply (Run_controllers_flow _ _).
    + rewrite Hw, bind_ret, Hcs. apply (Run_controllers_flow _ _).
  - rewrite bind_ret. unfold Config_Worker. rewrite bind_assoc, bind_get, Hw.
    rewrite bind_ret. cbn [andb]. apply (Run_controllers_flow _ _).
Qed.

(** The validation of [Run] goes on exactly when the config passes it,
    and returns 1 otherwise. *)
Lemma Run_validate_flow (c : Command) :
  flow (Run_validate c) =
    if passesValidation (Config c) then Next tt else Return 1.
Proof.
  unfold Run_validate. rewrite bind_get, bind_cases.
  destruct (Run_listeners_flow (Listeners (Config c)) "" false false c)
    as [Hf Hc].
  rewrite Hf, Hc. unfold passesValidation.
  destruct (forallb listenerCheck (Listeners (Config c))); cbn [andb];
    rewrite flow_triple; [| reflexivity].
  cbv beta iota. cbn [orb].
  fold (clusterAddrOf (Listeners (Config c))).
  rewrite bind_cases.
  destruct (Run_controllerListeners_eq (Listeners (Config c))
              (hasPurpose "api" (Listeners (Config c))) c) as [Hf2 Hc2].
  rewrite Hf2, Hc2.
  destruct (Controller (Config c)) as [k |] eqn:Hk; cbn [isNil orb].
  - destruct (hasPurpose "api" (Listeners (Config c))
              && hasPurpose "cluster" (Listeners (Config c)));
      rewrite flow_triple; cbn [andb]; [| reflexivity].
    rewrite (Run_worker_flow _ _ c eq_refl), Hk. reflexivity.
  - rewrite flow_triple. cbn [andb].
    rewrite (Run_worker_flow _ _ c eq_refl), Hk. reflexivity.
Qed.

End Accepting.

Section Reaching.

Context {net : NetLib}.
Variable env : Env.
Variable cfg : ConfigT.
Hypothesis Hload : loadFile env = LoadOk cfg.

Lemma ParseFlagsAndConfig_complete (c : Command) :
  flagsParsed env -> configNamed cfg = true ->
  flow (ParseFlagsAndConfig env c) = Next 0.
Proof.
  intros (Hp & Hw & Hi & Hc) Hn.
  unfold ParseFlagsAndConfig, ask, failWith1, fail1, same, bind, emit, ret,
    get, modify, return_, panic, trace, final, flow.
  cbn. rewrite Hp. cbn.
  destruct (wrapperFromPath env) as [w err]; cbn [fst snd] in Hw, Hi.
  subst err. cbn.
  assert (Hlen : (String.length (flagConfig (parsedFlags env)) =? 0)%nat
                 = false)
    by (destruct (flagConfig (parsedFlags env)); [congruence | reflexivity]).
  unfold configNamed in Hn.
  destruct w; cbn; [rewrite (Hi eq_refl); cbn |];
    rewrite Hlen; cbn; rewrite Hload; cbn;
    destruct (Controller cfg), (Worker cfg); cbn in *;
    try destruct (Controller_Name _ =? ""); cbn in *;
    try destruct (Worker_Name _ =? ""); cbn in *;
    try discriminate; reflexivity.
Qed.

(** The set-up goes on when every step of it succeeds. *)
Lemma Run_setup_complete (c : Command) :
  setUp env cfg -> flow (Run_setup env c) = Next tt.
Proof.
  intros (Hp & Hn & Hl & Hm & Hk & Hr & Hw).
  unfold Run_setup, defer.
  rewrite bind_modify, bind_get, bind_modify, bind_cases, call_flow,
    call_final.
  set (c1 := set_CombineLogs _ _).
  pose proof (ParseFlagsAndConfig_complete c1 Hp Hn) as Hf.
  destruct (ParseFlagsAndConfig_strict env cfg Hload c1) as [_ Hs].
  rewrite Hf in *. destruct Hs as (_ & Hc2 & _).
  set (c2 := final (ParseFlagsAndConfig env c1)) in *.
  rewrite flow_triple. cbn [Z.gtb Z.compare]. rewrite bind_ret, bind_get.
  rewrite Hc2, Hw.
  assert (Hroot : negb (isNil (Controller cfg)) && negb (RootKms_found env)
                  = false).
  { destruct (isNil (Controller cfg)) eqn:E; [reflexivity |].
    now rewrite (Hr eq_refl). }
  rewrite Hroot. cbn [negb].
  unfold ask. rewrite Hl, Hm, Hk.
  destruct (configWrapper c2);
    destruct (negb (DefaultMaxRequestDuration cfg =? 0)%Z);
    destruct (negb (DisableMlock cfg) && negb (mlock_Supported env));
    reflexivity.
Qed.

(** [Run] sets up the listeners exactly when its set-up succeeds and the
    config passes its validation; otherwise it reports an error and
    returns 1. *)
Lemma Run_sets_up_listeners (c0 : Command) :
  (In SetupListeners (trace (Run env c0)) <->
   setUp env cfg /\ passesValidation cfg = true) /\
  (~ In SetupListeners (trace (Run env c0)) ->
   flow (Run env c0) = Next 1 /\
   exists msg, In (UI_Error msg) (trace (Run env c0))).
Proof.
  destruct (Run_inv env c0) as (td & Htd & Ht & Hfl).
  pose proof (Run_body_loud env c0) as Hloud.
  rewrite (Run_body_validate env) in Ht, Hfl, Hloud.
  pose proof (Run_upto_validate_strict env cfg Hload c0) as Hv.
  destruct (post_bind_inv _ _
              (fun _ => Run_bind env ;; Run_pid env ;; Run_database env ;;
                        Run_start env) _ _ Hv)
    as [Hpre [[Hret Heq] | (a & Hnext & (Hc & _ & Hs) & Heq)]];
    rewrite Heq in Ht, Hfl, Hloud; rewrite ?trace_triple, ?flow_triple in *.
  - assert (Hno : ~ In SetupListeners (trace (Run env c0))).
    { rewrite Ht. intros H. apply in_app_or in H.
      destruct H as [H | H];
        [now apply beforeListeners_not_SetupListeners in Hpre
        | now apply deferred_not_SetupListeners in Htd]. }
    split; [split; [intros H; now apply Hno in H |] |].
    + intros [Hs Hp]. exfalso.
      unfold Run_upto_validate in Hret. rewrite bind_cases in Hret.
      rewrite (Run_setup_complete c0 Hs), flow_triple in Hret.
      destruct (Run_setup_strict env cfg Hload c0) as [_ Hc1].
      rewrite (Run_setup_complete c0 Hs) in Hc1. destruct Hc1 as [Hc1 _].
      rewrite Run_validate_flow, Hc1, Hp in Hret. discriminate.
    + intros _. split; [exact Hfl |].
      destruct Hloud as [msg Hin]. exists msg. rewrite Ht.
      apply in_or_app. now left.
  - assert (Hin : In SetupListeners (trace (Run env c0))).
    { rewrite Ht. apply in_or_app. left. apply in_or_app. right.
      unfold Run_bind. rewrite bind_assoc, bind_ask, trace_triple.
      now left. }
    split; [split; [intros _ | intros _; exact Hin] |
            intros H; now apply H in Hin].
    split; [exact Hs |].
    unfold Run_upto_validate in Hnext. rewrite bind_cases in Hnext.
    destruct (Run_setup_strict env cfg Hload c0) as [_ Hc1].
    destruct (flow (Run_setup env c0)) as [[] | r | |];
      rewrite flow_triple in Hnext; try discriminate.
    destruct Hc1 as [Hc1 _].
    rewrite Run_validate_flow, Hc1 in Hnext.
    now destruct (passesValidation cfg).
Qed.

End Reaching.

(** ** The upstreams of a combined config (C1) *)

(** C1, in the form the code satisfies, for a config with a controller
    and a worker block.  The switch of [Run] accepts the worker's
    upstreams exactly when the list is empty, or has one entry that equals
    the computed cluster address, equals a non-empty [public_cluster_addr],
    or is a DNS name rather than an IP; every other list, and so every
    list of two or more entries, is rejected with the error message and
    [Run] returns 1.  [Run] as a whole accepts the config and goes on to
    set up the listeners exactly when its set-up succeeds, every listener
    has one known purpose, an api, a cluster and a proxy listener are
    there, the switch accepts the upstreams, and the loop after the switch
    accepts each of them (the default one, when the list is empty): its
    port strips and its host is not an unspecified or a multicast IP;
    otherwise [Run] reports an error and returns 1. *)
Theorem C1_combined_upstreams {net : NetLib} (env : Env) (cfg : ConfigT)
    (k : ControllerBlock) (w : WorkerBlock) (c0 : Command) :
  loadFile env = LoadOk cfg ->
  Controller cfg = Some k ->
  Worker cfg = Some w ->
  let clusterAddr := clusterAddrOf (Listeners cfg) in
  let upstreams :=
    match Controllers w with
    | [] => [defaultUpstream k clusterAddr]
    | l => l
    end in
  (forall c, Config c = cfg ->
     (flow (Run_combined clusterAddr c) = Next tt <->
      upstreamsOk k clusterAddr (Controllers w) = true)) /\
  (upstreamsOk k clusterAddr (Controllers w) = false ->
   (forall c, Config c = cfg ->
      Run_combined clusterAddr c = ([UI_Error combinedMsg], c, Return 1)) /\
   flow (Run env c0) = Next 1) /\
  (In SetupListeners (trace (Run env c0)) <->
   setUp env cfg /\
   forallb listenerCheck (Listeners cfg) = true /\
   hasPurpose "api" (Listeners cfg) = true /\
   hasPurpose "cluster" (Listeners cfg) = true /\
   hasPurpose "proxy" (Listeners cfg) = true /\
   upstreamsOk k clusterAddr (Controllers w) = true /\
   forallb upstreamCheck upstreams = true) /\
  (~ In SetupListeners (trace (Run env c0)) ->
   flow (Run env c0) = Next 1 /\
   exists msg, In (UI_Error msg) (trace (Run env c0))).
Proof.
  intros Hload Hk Hw clusterAddr upstreams.
  assert (Hpass : passesValidation cfg =
                  forallb listenerCheck (Listeners cfg)
                  && (hasPurpose "api" (Listeners cfg)
                      && hasPurpose "cluster" (Listeners cfg))
                  && (hasPurpose "proxy" (Listeners cfg)
                      && upstreamsOk k clusterAddr (Controllers w)
                      && forallb upstreamCheck upstreams)).
  { unfold passesValidation, checkedUpstreams, validatedConfig, upstreams.
    rewrite Hk, Hw. destruct (Controllers w) eqn:Hcs; [reflexivity |].
    now rewrite Hw, Hcs. }
  destruct (Run_sets_up_listeners env cfg Hload c0) as [Hiff Hrej].
  split; [| split; [| split; [| exact Hrej]]].
  - intros c Hc. subst cfg.
    rewrite (Run_combined_eq clusterAddr c k w Hk Hw).
    destruct (upstreamsOk k clusterAddr (Controllers w)); cbn;
      split; trivial; discriminate.
  - intros Hno. split.
    + intros c Hc. subst cfg.
      rewrite (Run_combined_eq clusterAddr c k w Hk Hw). now rewrite Hno.
    + apply Hrej. intros Hin. apply Hiff in Hin. destruct Hin as [_ Hp].
      rewrite Hpass, Hno in Hp. rewrite !andb_false_r in Hp. discriminate.
  - rewrite Hiff, Hpass. rewrite !andb_true_iff. tauto.
Qed.

Lemma C1_combined_upstreams_witness :
  In SetupListeners
    (trace (Run (net := SampleNet.net)
              (Examples.env Examples.combined [ContextDone])
              initialCommand)) /\
  flow (Run (net := SampleNet.net) (Examples.env Inputs.mismatched [])
          initialCommand) = Next 1 /\
  flow (Run (net := SampleNet.net)
          (Examples.env Inputs.unspecifiedUpstream []) initialCommand)
  = Next 1.
Proof.
  split; [| split].
  - apply (proj2 (proj1 (proj2 (proj2
             (C1_combined_upstreams (net := SampleNet.net)
                (Examples.env Examples.combined [ContextDone])
                Examples.combined (Examples.controllerBlock "")
                (Examples.workerBlock ["127.0.0.1:9201"])
                initialCommand eq_refl eq_refl eq_refl))))).
    repeat split; try reflexivity; discriminate.
  - exact (proj2 (proj1 (proj2
             (C1_combined_upstreams (net := SampleNet.net)
                (Examples.env Inputs.mismatched [])
                Inputs.mismatched (Examples.controllerBlock "")
                (Examples.workerBlock ["10.0.0.2:9201"])
                initialCommand eq_refl eq_refl eq_refl)) eq_refl)).
  - apply (proj2 (proj2 (proj2
             (C1_combined_upstreams (net := SampleNet.net)
                (Examples.env Inputs.unspecifiedUpstream [])
                Inputs.unspecifiedUpstream
                (Examples.controllerBlock "10.0.0.1:9201")
                (Examples.workerBlock ["0.0.0.0:9201"])
                initialCommand eq_refl eq_refl eq_refl)))).
    intros Hin.
    apply (proj1 (proj1 (proj2 (proj2
             (C1_combined_upstreams (net := SampleNet.net)
                (Examples.env Inputs.unspecifiedUpstream [])
                Inputs.unspecifiedUpstream
                (Examples.controllerBlock "10.0.0.1:9201")
                (Examples.workerBlock ["0.0.0.0:9201"])
                initialCommand eq_refl eq_refl eq_refl))))) in Hin.
    destruct Hin as (_ & _ & _ & _ & _ & _ & Hchk).
    discriminate Hchk.
Defined.

(** Two upstreams that both equal the cluster address satisfy the
    condition entry by entry, and the switch rejects them. *)
Lemma C1_two_upstreams_rejected :
  let k := Examples.controllerBlock "" in
  let clusterAddr := clusterAddrOf (Listeners Inputs.twoUpstreams) in
  upstreamsClaimed (net := SampleNet.net) k clusterAddr
    ["127.0.0.1:9201"; "127.0.0.1:9201"] = true /\
  Run_combined (net := SampleNet.net) clusterAddr
    (set_Config Inputs.twoUpstreams initialCommand)
  = ([UI_Error combinedMsg], set_Config Inputs.twoUpstreams initialCommand,
     Return 1) /\
  flow (Run (net := SampleNet.net) (Examples.env Inputs.twoUpstreams [])
          initialCommand) = Next 1.
Proof. vm_compute. repeat split. Qed.

(** An upstream that equals the address of the cluster listener passes
    the switch; when that address is the unspecified one, the loop after
    the switch rejects it. *)
Lemma Run_unspecified_upstream :
  let k := Examples.controllerBlock "10.0.0.1:9201" in
  let r := Run (net := SampleNet.net)
             (Examples.env Inputs.unspecifiedUpstream []) initialCommand in
  upstreamsOk (net := SampleNet.net) k
    (clusterAddrOf (Listeners Inputs.unspecifiedUpstream)) ["0.0.0.0:9201"]
  = true /\
  upstreamCheck (net := SampleNet.net) "0.0.0.0:9201" = false /\
  flow r = Next 1 /\
  In (UI_Error ("Controller address " ++ Sprintf_q "0.0.0.0:9201"
                  ++ " is invalid: cannot be an unspecified address"))
     (trace r).
Proof. vm_compute. repeat split. in_list. Qed.

(** ** The health service *)

Lemma serve_app (start : health.Service -> health.Service)
    (pre l : list health.Call) :
  forall s,
    health.serve start (pre ++ l) s =
      (fst (health.serve start l (fst (health.serve start pre s))),
       (snd (health.serve start pre s)
          ++ snd (health.serve start l (fst (health.serve start pre s))))%list).
Proof.
  induction pre as [| [err |] pre IH]; intros s;
    cbn [app health.serve fst snd].
  - now destruct (health.serve start l s).
  - rewrite IH. now destruct (health.serve start pre s).
  - apply IH.
Qed.

Lemma serve_queries (start : health.Service -> health.Service)
    (calls : list health.Call) :
  forall s, List.length (snd (health.serve start calls s)) = queries calls.
Proof.
  unfold queries.
  induction calls as [| [err |] calls IH]; intros s;
    cbn [health.serve filter]; trivial.
  specialize (IH s). destruct (health.serve start calls s).
  cbn [snd List.length] in *. now rewrite IH.
Qed.

Lemma serve_unavailable (calls : list health.Call) :
  forall s,
    health.replyWithServiceUnavailable
      (fst (health.serve health.startServiceUnavailableReplies calls s)) = true
    <->
    health.replyWithServiceUnavailable s = true \/
    In health.StartUnavailable calls.
Proof.
  induction calls as [| [err |] calls IH]; intros s; cbn [health.serve In].
  - cbn. tauto.
  - specialize (IH s).
    destruct (health.serve health.startServiceUnavailableReplies calls s).
    cbn [fst] in *. rewrite IH.
    split; [tauto | intros [H | [H | H]]; [tauto | discriminate | tauto]].
  - rewrite IH. cbn. tauto.
Qed.

(** X17: a health service answers a query with the status 503 exactly
    when the function that [NewService] returned with it was called before
    the query, however many queries and calls came before; until then it
    answers with an empty response and sets no status.  Once it answers
    with 503, its response is nil exactly when setting the status
    fails. *)
Theorem X17_health_service (pre post : list health.Call)
    (setStatusCode : error) :
  let s := fst health.NewService in
  let start := snd health.NewService in
  let answer :=
    nth_error (snd (health.serve start
                      (pre ++ health.Query setStatusCode :: post) s))
      (queries pre) in
  (In health.StartUnavailable pre ->
   answer = Some ([health.SetStatusCode 503],
                  match setStatusCode with
                  | Some m => (None, Some m)
                  | None => (Some health.EmptyResponse, None)
                  end)) /\
  (~ In health.StartUnavailable pre ->
   answer = Some ([], (Some health.EmptyResponse, None))).
Proof.
  cbv zeta. cbn [health.NewService fst snd].
  rewrite serve_app. cbn [snd].
  rewrite nth_error_app2 by (rewrite serve_queries; lia).
  rewrite serve_queries, Nat.sub_diag.
  cbn [health.serve].
  pose proof (serve_unavailable pre
                {| health.replyWithServiceUnavailable := false |}) as Hu.
  set (s1 := fst (health.serve _ pre _)) in *.
  destruct (health.serve _ post s1) as [s2 rs]. cbn [snd nth_error].
  unfold health.GetHealth.
  destruct (health.replyWithServiceUnavailable s1); split; intros H.
  - now destruct setStatusCode.
  - exfalso. apply H. destruct (proj1 Hu eq_refl) as [Hs | Hs];
      [discriminate Hs | exact Hs].
  - assert (Ht : false = true) by (apply Hu; now right). discriminate.
  - reflexivity.
Qed.

Lemma X17_health_service_witness :
  nth_error
    (snd (health.serve (snd health.NewService)
            [health.Query None; health.StartUnavailable;
             health.Query None; health.Query (Some "no stream")]
            (fst health.NewService))) 2
  = Some ([health.SetStatusCode 503], (None, Some "no stream")).
Proof.
  exact (proj1 (X17_health_service
                  [health.Query None; health.StartUnavailable;
                   health.Query None] [] (Some "no stream"))
           (or_intror (or_introl eq_refl))).
Defined.

(** ** The generated command of the managed groups *)

Lemma filter_none {A : Type} (f : A -> bool) (l : list A) :
  (forall x, In x l -> f x = false) -> filter f l = [].
Proof.
  induction l as [| x l IH]; intros H; [reflexivity |].
  cbn [filter]. rewrite (H x (or_introl eq_refl)).
  apply IH. intros y Hy. apply H. now right.
Qed.

Section ManagedGroups.

Import managedgroupscmd.

Variable codes : ExitCodes.
Variable a : Inputs.
Variable p : Package.

(** The package holds the flags of the file: no call has changed them. *)
Hypothesis Hflags : forall k, flagsMap p k = flagsMap_initial k.

Lemma initFlags_flagsMap (k : string) :
  flagsMap (initFlags p) k = flagsMap_initial k.
Proof.
  unfold initFlags, initFlags_with. destruct (flagsOnce p); cbn; apply Hflags.
Qed.

(** The checks of [Run], by the function of the command. *)
Lemma Run_checks_eq :
  Run_checks codes a (initFlags p) =
    if (Func a =? "") || (Func a =? "create") || (Func a =? "update")
    then ([], Return (RunResultHelp codes))
    else
      match Parse a with
      | Some m => ([PrintCliError m], Return (CommandUserError codes))
      | None =>
          if ((Func a =? "read") || (Func a =? "delete"))
             && (FlagId a =? "")
          then ([PrintCliError "ID is required but not passed in via -id"],
                Return (CommandUserError codes))
          else if (Func a =? "list") && (FlagAuthMethodId a =? "")
          then ([PrintCliError
                   "AuthMethod ID must be passed in via -auth-method-id or BOUNDARY_AUTH_METHOD_ID"],
                Return (CommandUserError codes))
          else ([], Next (if Func a =? "list" then "managed groups"
                          else "managed group"))
      end.
Proof.
  unfold Run_checks. rewrite !initFlags_flagsMap. unfold flagsMap_initial.
  remember (Func a) as fn eqn:Hfn.
  destruct (String.eqb_spec fn "") as [-> | H0]; [reflexivity |].
  destruct (String.eqb_spec fn "create") as [-> | H1]; [reflexivity |].
  destruct (String.eqb_spec fn "update") as [-> | H2]; [reflexivity |].
  cbn [orb]. unfold andThen at 1, done at 1.
  destruct (Parse a) as [m |]; [reflexivity |].
  destruct (String.eqb_spec fn "read") as [-> | H3];
    [cbn; destruct (FlagId a =? ""); reflexivity |].
  destruct (String.eqb_spec fn "delete") as [-> | H4];
    [cbn; destruct (FlagId a =? ""); reflexivity |].
  destruct (String.eqb_spec fn "list") as [-> | H5];
    [cbn; destruct (FlagAuthMethodId a =? ""); reflexivity |].
  reflexivity.
Qed.

(** The API call of [Run], by the function of the command. *)
Lemma Run_call_cases (opts : list Option) :
  (Func a = "read" /\
   Run_call a opts = ([Read (FlagId a) opts], Next (api_err a))) \/
  (Func a = "delete" /\
   Run_call a opts = ([Delete (FlagId a) opts], Next (api_err a))) \/
  (Func a = "list" /\
   Run_call a opts = ([List (FlagAuthMethodId a) opts], Next (api_err a))) \/
  (Func a <> "read" /\ Func a <> "delete" /\ Func a <> "list" /\
   Run_call a opts = ([], Next None)).
Proof.
  unfold Run_call.
  destruct (String.eqb_spec (Func a) "read") as [H | H]; [now left |].
  destruct (String.eqb_spec (Func a) "delete") as [H1 | H1];
    [right; now left |].
  destruct (String.eqb_spec (Func a) "list") as [H2 | H2];
    [do 2 right; now left |].
  do 3 right. now repeat split.
Qed.

(** The output of [Run] is output only. *)
Lemma Run_output_isOutput :
  Forall (fun e => isOutput e = true) (fst (Run_output codes a)).
Proof.
  unfold Run_output, printCustomActionOutput, andThen, done, does, returns.
  cbn beta iota.
  destruct (Func a =? "delete"), (Func a =? "list"), (Format a =? "json"),
    (Format a =? "table"), (PrintJson_ok a), (listResult_found a),
    (listTable a), (itemTable a); cbn; repeat constructor.
Qed.

(** [Run] from [c.Client()] on, by what the client and the call answer. *)
Lemma Run_client_eq (plural : string) :
  Run_client codes a plural =
    match Client_err a with
    | Some m =>
        ([Client; PrintCliError ("Error creating API client: " ++ m)],
         Return (CommandCliError codes))
    | None =>
        let call :=
          Run_call a
            (nameOptions a ++ descriptionOptions a ++ filterOptions a) in
        match snd call with
        | Next (Some (ServerError m)) =>
            ((Client :: fst call
                ++ [PrintApiError m
                      ("Error from controller when performing " ++ Func a
                         ++ " on " ++ plural)])%list,
             Return (CommandApiError codes))
        | Next (Some (OtherError m)) =>
            ((Client :: fst call
                ++ [PrintCliError
                      ("Error trying to " ++ Func a ++ " " ++ plural ++ ": "
                         ++ m)])%list,
             Return (CommandCliError codes))
        | _ =>
            ((Client :: fst call ++ fst (Run_output codes a))%list,
             snd (Run_output codes a))
        end
    end.
Proof.
  unfold Run_client, extraFlagsHandlingFunc, executeExtraActions.
  cbv zeta.
  destruct (Client_err a) as [m |]; [reflexivity |].
  set (opts := (nameOptions a ++ descriptionOptions a ++ filterOptions a)%list).
  destruct (Run_call_cases opts) as [[_ ->] | [[_ ->] | [[_ ->] | (_ & _ & _ & ->)]]];
    cbn [fst snd andThen does done returns negb app];
    try (destruct (api_err a) as [[m | m] |]);
    cbn [AsServerError Error_ andThen does done returns app];
    try reflexivity;
    destruct (Run_output codes a) as [t f]; reflexivity.
Qed.

(** [Run] stops at its checks, having at most printed an error, or it
    passes them and goes on to the client. *)
Lemma Run_checked :
  ((exists t r,
      Run codes a p = (initFlags p, (t, Return r)) /\
      Forall (fun e => exists m, e = PrintCliError m) t)) \/
  (Parse a = None /\
   (Func a = "read" \/ Func a = "delete" -> FlagId a <> "") /\
   (Func a = "list" -> FlagAuthMethodId a <> "") /\
   Func a <> "" /\ Func a <> "create" /\ Func a <> "update" /\
   let plural := if Func a =? "list" then "managed groups"
                 else "managed group" in
   Run codes a p =
     (initFlags p,
      ((fst (Run_client codes a plural) ++ Run_deferred a)%list,
       snd (Run_client codes a plural)))).
Proof.
  unfold Run. rewrite Run_checks_eq.
  destruct (String.eqb_spec (Func a) "") as [H0 | H0]; cbn [orb];
    [left; do 2 eexists; split; [reflexivity | constructor] |].
  destruct (String.eqb_spec (Func a) "create") as [H1 | H1]; cbn [orb];
    [left; do 2 eexists; split; [reflexivity | constructor] |].
  destruct (String.eqb_spec (Func a) "update") as [H2 | H2]; cbn [orb];
    [left; do 2 eexists; split; [reflexivity | constructor] |].
  destruct (Parse a) as [m |];
    [left; do 2 eexists; split; [reflexivity | repeat constructor; eauto] |].
  destruct (String.eqb_spec (FlagId a) "") as [Hi | Hi];
    destruct (String.eqb_spec (FlagAuthMethodId a) "") as [Hm | Hm];
    destruct (String.eqb_spec (Func a) "read") as [H3 | H3];
    destruct (String.eqb_spec (Func a) "delete") as [H4 | H4];
    destruct (String.eqb_spec (Func a) "list") as [H5 | H5];
    cbn [orb andb]; try congruence.
  all: first
      [ solve [left; do 2 eexists;
               split; [reflexivity | repeat constructor; eauto]]
      | right; (split; [reflexivity |]);
        (split; [intros [? | ?]; congruence |]);
        (split; [intros ?; congruence |]);
        (split; [exact H0 |]); (split; [exact H1 |]); (split; [exact H2 |]);
        cbv zeta;
        match goal with
        | |- context [Run_client codes a ?pl] =>
            destruct (Run_client codes a pl) as [t2 f2]; reflexivity
        end ].

Qed.

(** From [c.Client()] on, [Run] creates the client first and once, makes
    no API call but the one of [Run_call], and, when the client was
    created, ends as its call and its output end. *)
Lemma Run_client_events (plural : string) :
  exists t,
    fst (Run_client codes a plural) = Client :: t /\
    ~ In Client t /\ ~ In WrapperCleanupFunc t /\
    (forall e, In e t -> isApiCall e = true ->
               Client_err a = None /\
               In e (fst (Run_call a (nameOptions a ++ descriptionOptions a
                                        ++ filterOptions a)))) /\
    (List.length (filter isApiCall t) <= 1)%nat.
Proof.
  rewrite Run_client_eq.
  destruct (Client_err a) as [m |].
  { eexists. split; [reflexivity |].
    split; [intros [H | []]; discriminate |].
    split; [intros [H | []]; discriminate |].
    split; [| cbn; lia].
    intros e' [<- | []]. discriminate. }
  cbv zeta.
  set (opts := (nameOptions a ++ descriptionOptions a ++ filterOptions a)%list).
  pose proof Run_output_isOutput as Ho. rewrite Forall_forall in Ho.
  assert (Hout : forall e, In e (fst (Run_output codes a)) ->
                           e <> Client /\ e <> WrapperCleanupFunc /\
                           isApiCall e = false).
  { intros e He. apply Ho in He. now destruct e. }
  assert (Hfilter : filter isApiCall (fst (Run_output codes a)) = []).
  { apply filter_none. intros e He. now apply Hout. }
  destruct (Run_call_cases opts)
    as [[_ ->] | [[_ ->] | [[_ ->] | (_ & _ & _ & ->)]]];
    cbn [fst snd];
    try (destruct (api_err a) as [[m | m] |]);
    (eexists; split; [reflexivity |]);
    cbn [app]; rewrite ?filter_app; cbn [filter isApiCall];
    rewrite ?Hfilter; cbn [List.length app];
    (split; [intros H; repeat (destruct H as [H | H]; try discriminate);
             try contradiction; now apply Hout in H |]);
    (split; [intros H; repeat (destruct H as [H | H]; try discriminate);
             try contradiction; now apply Hout in H |]);
    (split; [| lia]);
    intros e He Hc; (split; [reflexivity |]);
    repeat (destruct He as [He | He]; try (subst e; try discriminate Hc));
    try contradiction; try (now left);
    apply Hout in He; destruct He as (_ & _ & He); congruence.
Qed.

End ManagedGroups.

Lemma Run_deferred_events (a : managedgroupscmd.Inputs)
    (e : managedgroupscmd.Event) :
  In e (managedgroupscmd.Run_deferred a) ->
  managedgroupscmd.WrapperCleanup a <> None /\
  (e = managedgroupscmd.WrapperCleanupFunc \/
   exists m, e = managedgroupscmd.PrintCliError m).
Proof.
  unfold managedgroupscmd.Run_deferred.
  destruct (managedgroupscmd.WrapperCleanup a) as [[m |] |]; cbn;
    intros H; repeat (destruct H as [H | H]); try contradiction;
    (split; [discriminate |]); eauto.
Qed.

(** X18: for the functions the command does not serve itself, the
    empty one, create and update, [Run] returns the code that asks for the
    help text, and does nothing else: it parses no flag and creates no
    client. *)
Theorem X18_managedgroups_help (codes : managedgroupscmd.ExitCodes)
    (a : managedgroupscmd.Inputs) (p : managedgroupscmd.Package) :
  managedgroupscmd.Func a = "" \/ managedgroupscmd.Func a = "create" \/
  managedgroupscmd.Func a = "update" ->
  managedgroupscmd.events (managedgroupscmd.Run codes a p) = [] /\
  managedgroupscmd.exitCode (managedgroupscmd.Run codes a p)
  = Some (managedgroupscmd.RunResultHelp codes).
Proof.
  unfold managedgroupscmd.Run, managedgroupscmd.Run_checks,
    managedgroupscmd.events, managedgroupscmd.exitCode.
  intros [H | [H | H]]; rewrite H; cbn; now split.
Qed.

Lemma X18_managedgroups_help_witness :
  let codes := {| managedgroupscmd.RunResultHelp := -18511;
                  managedgroupscmd.CommandSuccess := 0;
                  managedgroupscmd.CommandApiError := 1;
                  managedgroupscmd.CommandCliError := 2;
                  managedgroupscmd.CommandUserError := 3 |} in
  let a := {| managedgroupscmd.Func := "update";
              managedgroupscmd.Parse := None;
              managedgroupscmd.FlagId := "mgoidc_1234567890";
              managedgroupscmd.FlagAuthMethodId := "";
              managedgroupscmd.FlagName := "";
              managedgroupscmd.FlagDescription := "";
              managedgroupscmd.FlagFilter := "";
              managedgroupscmd.Client_err := None;
              managedgroupscmd.WrapperCleanup := None;
              managedgroupscmd.api_err := None;
              managedgroupscmd.listResult_found := true;
              managedgroupscmd.Format := "table";
              managedgroupscmd.PrintJson_ok := true;
              managedgroupscmd.itemTable := Some "";
              managedgroupscmd.listTable := Some "" |} in
  managedgroupscmd.exitCode
    (managedgroupscmd.Run codes a managedgroupscmd.package_initial)
  = Some (-18511).
Proof.
  intros codes a.
  exact (proj2 (X18_managedgroups_help codes a
                  managedgroupscmd.package_initial
                  (or_intror (or_intror eq_refl)))).
Defined.

(** X19: [Run] creates the API client only after the flags parsed, an
    ID was given when it reads or deletes, and an auth method ID was given
    when it lists; it makes at most one API call, only with a client, and
    that call is the one of its function, read, delete or list, with the ID
    of the flag and the options of the name, description and filter
    flags: for any other function it makes no call. *)
Theorem X19_managedgroups_checks (codes : managedgroupscmd.ExitCodes)
    (a : managedgroupscmd.Inputs) (p : managedgroupscmd.Package) :
  (forall k, managedgroupscmd.flagsMap p k
             = managedgroupscmd.flagsMap_initial k) ->
  let r := managedgroupscmd.Run codes a p in
  let opts := (managedgroupscmd.nameOptions a
                 ++ managedgroupscmd.descriptionOptions a
                 ++ managedgroupscmd.filterOptions a)%list in
  (In managedgroupscmd.Client (managedgroupscmd.events r) ->
   managedgroupscmd.Parse a = None /\
   (managedgroupscmd.Func a = "read" \/ managedgroupscmd.Func a = "delete" ->
    managedgroupscmd.FlagId a <> "") /\
   (managedgroupscmd.Func a = "list" ->
    managedgroupscmd.FlagAuthMethodId a <> "")) /\
  (forall e,
     In e (managedgroupscmd.events r) ->
     managedgroupscmd.isApiCall e = true ->
     In managedgroupscmd.Client (managedgroupscmd.events r) /\
     managedgroupscmd.Client_err a = None /\
     ((managedgroupscmd.Func a = "read" /\
       e = managedgroupscmd.Read (managedgroupscmd.FlagId a) opts) \/
      (managedgroupscmd.Func a = "delete" /\
       e = managedgroupscmd.Delete (managedgroupscmd.FlagId a) opts) \/
      (managedgroupscmd.Func a = "list" /\
       e = managedgroupscmd.List (managedgroupscmd.FlagAuthMethodId a) opts)))
  /\
  (List.length (filter managedgroupscmd.isApiCall (managedgroupscmd.events r))
   <= 1)%nat.
Proof.
  intros Hflags r opts.
  destruct (Run_checked codes a p Hflags)
    as [(t & v & Hr & Ht) | (Hp & Hid & Hauth & _ & _ & _ & Hr)];
    subst r; rewrite Hr; unfold managedgroupscmd.events; cbn [fst snd].
  - rewrite Forall_forall in Ht. split; [| split].
    + intros H. destruct (Ht _ H) as [m Hm]. discriminate.
    + intros e He Hc. destruct (Ht _ He) as [m ->]. discriminate.
    + rewrite filter_none; [cbn; lia |].
      intros e He. now destruct (Ht _ He) as [m ->].
  - set (plural := if managedgroupscmd.Func a =? "list" then _ else _) in *.
    destruct (Run_client_events codes a plural)
      as (t & Hc & Hn & _ & Hcall & Hlen).
    rewrite Hc. cbn [app].
    assert (Hd : forall e, In e (managedgroupscmd.Run_deferred a) ->
                           managedgroupscmd.isApiCall e = false).
    { intros e He. apply Run_deferred_events in He.
      destruct He as [_ [-> | [m ->]]]; reflexivity. }
    split; [intros _; now repeat split | split].
    + intros e [<- | He] Hc'; [discriminate |].
      split; [now left |].
      apply in_app_or in He.
      destruct He as [He | He]; [| rewrite (Hd e He) in Hc'; discriminate].
      destruct (Hcall e He Hc') as [Hce Hin]. split; [exact Hce |].
      fold opts in Hin.
      destruct (Run_call_cases a opts)
        as [[Hf Heq] | [[Hf Heq] | [[Hf Heq] | (_ & _ & _ & Heq)]]];
        rewrite Heq in Hin; cbn in Hin;
        [left | right; left | right; right |];
        try (destruct Hin as [<- | []]; now split).
      destruct Hin.
    + cbn [filter managedgroupscmd.isApiCall]. rewrite filter_app.
      rewrite (filter_none _ (managedgroupscmd.Run_deferred a) Hd).
      now rewrite app_nil_r.
Qed.

Lemma X19_managedgroups_checks_witness :
  let codes := {| managedgroupscmd.RunResultHelp := -18511;
                  managedgroupscmd.CommandSuccess := 0;
                  managedgroupscmd.CommandApiError := 1;
                  managedgroupscmd.CommandCliError := 2;
                  managedgroupscmd.CommandUserError := 3 |} in
  let a := {| managedgroupscmd.Func := "list";
              managedgroupscmd.Parse := None;
              managedgroupscmd.FlagId := "";
              managedgroupscmd.FlagAuthMethodId := "amoidc_1234567890";
              managedgroupscmd.FlagName := "";
              managedgroupscmd.FlagDescription := "";
              managedgroupscmd.FlagFilter := "name == admins";
              managedgroupscmd.Client_err := None;
              managedgroupscmd.WrapperCleanup := None;
              managedgroupscmd.api_err := None;
              managedgroupscmd.listResult_found := true;
              managedgroupscmd.Format := "json";
              managedgroupscmd.PrintJson_ok := true;
              managedgroupscmd.itemTable := Some "";
              managedgroupscmd.listTable := Some "" |} in
  (List.length
     (filter managedgroupscmd.isApiCall
        (managedgroupscmd.events
           (managedgroupscmd.Run codes a managedgroupscmd.package_initial)))
   <= 1)%nat.
Proof.
  intros codes a.
  exact (proj2 (proj2 (X19_managedgroups_checks codes a
                         managedgroupscmd.package_initial
                         (fun k => eq_refl)))).
Defined.

(** X20: when the API call of [Run] fails, [Run] prints nothing of a
    result; it reports the error and returns the code of an API error when
    the error is one of the server, and the code of a CLI error
    otherwise. *)
Theorem X20_managedgroups_api_error (codes : managedgroupscmd.ExitCodes)
    (a : managedgroupscmd.Inputs) (p : managedgroupscmd.Package)
    (e : managedgroupscmd.Event) (err : managedgroupscmd.ApiError) :
  (forall k, managedgroupscmd.flagsMap p k
             = managedgroupscmd.flagsMap_initial k) ->
  let r := managedgroupscmd.Run codes a p in
  let plural := if managedgroupscmd.Func a =? "list" then "managed groups"
                else "managed group" in
  In e (managedgroupscmd.events r) ->
  managedgroupscmd.isApiCall e = true ->
  managedgroupscmd.api_err a = Some err ->
  snd (snd r)
  = Return (match err with
            | managedgroupscmd.ServerError _ =>
                managedgroupscmd.CommandApiError codes
            | managedgroupscmd.OtherError _ =>
                managedgroupscmd.CommandCliError codes
            end) /\
  Forall (fun e' => isOutput e' = false) (managedgroupscmd.events r) /\
  In (match err with
      | managedgroupscmd.ServerError m =>
          managedgroupscmd.PrintApiError m
            ("Error from controller when performing "
               ++ managedgroupscmd.Func a ++ " on " ++ plural)
      | managedgroupscmd.OtherError m =>
          managedgroupscmd.PrintCliError
            ("Error trying to " ++ managedgroupscmd.Func a ++ " " ++ plural
               ++ ": " ++ m)
      end) (managedgroupscmd.events r).
Proof.
  intros Hflags r plural He Hc Herr.
  destruct (Run_checked codes a p Hflags)
    as [(t & v & Hr & Ht) | (_ & _ & _ & _ & _ & _ & Hr)];
    subst r; rewrite Hr in *; unfold managedgroupscmd.events in *;
    cbn [fst snd] in *.
  { rewrite Forall_forall in Ht. destruct (Ht _ He) as [m ->]. discriminate. }
  fold plural in Hr, He |- *.
  assert (Hd : Forall (fun e' => isOutput e' = false)
                 (managedgroupscmd.Run_deferred a)).
  { apply Forall_forall. intros e' He'. apply Run_deferred_events in He'.
    destruct He' as [_ [-> | [m ->]]]; reflexivity. }
  assert (Hcalled :
            In e (fst (managedgroupscmd.Run_client codes a plural))).
  { apply in_app_or in He. destruct He as [He | He]; [exact He |].
    rewrite Forall_forall in Hd. apply Run_deferred_events in He.
    destruct He as [_ [-> | [m ->]]]; discriminate. }
  clear He. rewrite Run_client_eq in *.
  destruct (managedgroupscmd.Client_err a) as [m |].
  { cbn in Hcalled. destruct Hcalled as [<- | [<- | []]]; discriminate. }
  cbv zeta in *.
  set (opts := (managedgroupscmd.nameOptions a
                  ++ managedgroupscmd.descriptionOptions a
                  ++ managedgroupscmd.filterOptions a)%list) in *.
  destruct (Run_call_cases a opts)
    as [[Hf Heq] | [[Hf Heq] | [[Hf Heq] | (_ & _ & _ & Heq)]]];
    rewrite Heq in *; cbn [fst snd] in *; rewrite ?Herr in *.
  4:{ cbn [app] in Hcalled. destruct Hcalled as [<- | Hin]; [discriminate |].
      pose proof (Run_output_isOutput codes a) as Ho.
      rewrite Forall_forall in Ho. apply Ho in Hin.
      now destruct e. }
  all: destruct err as [m | m]; cbn [fst snd app];
    (split; [reflexivity |]);
    (split; [repeat constructor; exact Hd | cbn; auto]).
Qed.

Lemma X20_managedgroups_api_error_witness :
  let codes := {| managedgroupscmd.RunResultHelp := -18511;
                  managedgroupscmd.CommandSuccess := 0;
                  managedgroupscmd.CommandApiError := 1;
                  managedgroupscmd.CommandCliError := 2;
                  managedgroupscmd.CommandUserError := 3 |} in
  let a := {| managedgroupscmd.Func := "read";
              managedgroupscmd.Parse := None;
              managedgroupscmd.FlagId := "mgoidc_1234567890";
              managedgroupscmd.FlagAuthMethodId := "";
              managedgroupscmd.FlagName := "";
              managedgroupscmd.FlagDescription := "";
              managedgroupscmd.FlagFilter := "";
              managedgroupscmd.Client_err := None;
              managedgroupscmd.WrapperCleanup := Some None;
              managedgroupscmd.api_err :=
                Some (managedgroupscmd.ServerError "not found");
              managedgroupscmd.listResult_found := false;
              managedgroupscmd.Format := "table";
              managedgroupscmd.PrintJson_ok := true;
              managedgroupscmd.itemTable := Some "";
              managedgroupscmd.listTable := Some "" |} in
  snd (snd (managedgroupscmd.Run codes a managedgroupscmd.package_initial))
  = Return 1.
Proof.
  intros codes a.
  refine (proj1 (X20_managedgroups_api_error codes a
                   managedgroupscmd.package_initial
                   (managedgroupscmd.Read "mgoidc_1234567890" [])
                   (managedgroupscmd.ServerError "not found")
                   (fun k => eq_refl) _ eq_refl eq_refl)).
  vm_compute. right. left. reflexivity.
Defined.

(** X21: once [Run] has asked for the API client, the client is the
    first thing it has caused, and the cleanup function of the KMS wrapper,
    when there is one, runs at the end, however the run ends, with a
    failure of the cleanup reported after it; the cleanup function runs in
    no other case. *)
Theorem X21_managedgroups_cleanup (codes : managedgroupscmd.ExitCodes)
    (a : managedgroupscmd.Inputs) (p : managedgroupscmd.Package) :
  (forall k, managedgroupscmd.flagsMap p k
             = managedgroupscmd.flagsMap_initial k) ->
  let r := managedgroupscmd.Run codes a p in
  (In managedgroupscmd.WrapperCleanupFunc (managedgroupscmd.events r) <->
   In managedgroupscmd.Client (managedgroupscmd.events r) /\
   managedgroupscmd.WrapperCleanup a <> None) /\
  (In managedgroupscmd.Client (managedgroupscmd.events r) ->
   exists t,
     managedgroupscmd.events r
     = (managedgroupscmd.Client :: t ++ managedgroupscmd.Run_deferred a)%list
     /\
     ~ In managedgroupscmd.Client t /\
     ~ In managedgroupscmd.WrapperCleanupFunc t).
Proof.
  intros Hflags r.
  destruct (Run_checked codes a p Hflags)
    as [(t & v & Hr & Ht) | (_ & _ & _ & _ & _ & _ & Hr)];
    subst r; rewrite Hr; unfold managedgroupscmd.events; cbn [fst snd].
  - rewrite Forall_forall in Ht.
    assert (Hn : ~ In managedgroupscmd.Client t)
      by (intros H; destruct (Ht _ H) as [m Hm]; discriminate).
    split; [split |].
    + intros H. destruct (Ht _ H) as [m Hm]. discriminate.
    + intros [H _]. contradiction.
    + intros H. contradiction.
  - set (plural := if managedgroupscmd.Func a =? "list" then _ else _) in *.
    destruct (Run_client_events codes a plural)
      as (t & Hc & Hn & Hw & _).
    rewrite Hc. cbn [app]. split; [split |].
    + intros [H | H]; [discriminate |]. split; [now left |].
      apply in_app_or in H. destruct H as [H | H]; [contradiction |].
      now apply Run_deferred_events in H.
    + intros [_ H]. right. apply in_or_app. right.
      unfold managedgroupscmd.Run_deferred.
      destruct (managedgroupscmd.WrapperCleanup a); [now left | congruence].
    + intros _. exists t. now repeat split.
Qed.

Lemma X21_managedgroups_cleanup_witness :
  let codes := {| managedgroupscmd.RunResultHelp := -18511;
                  managedgroupscmd.CommandSuccess := 0;
                  managedgroupscmd.CommandApiError := 1;
                  managedgroupscmd.CommandCliError := 2;
                  managedgroupscmd.CommandUserError := 3 |} in
  let a := {| managedgroupscmd.Func := "list";
              managedgroupscmd.Parse := None;
              managedgroupscmd.FlagId := "";
              managedgroupscmd.FlagAuthMethodId := "amoidc_1234567890";
              managedgroupscmd.FlagName := "";
              managedgroupscmd.FlagDescription := "";
              managedgroupscmd.FlagFilter := "";
              managedgroupscmd.Client_err := None;
              managedgroupscmd.WrapperCleanup := Some (Some "wrapper closed");
              managedgroupscmd.api_err := None;
              managedgroupscmd.listResult_found := false;
              managedgroupscmd.Format := "table";
              managedgroupscmd.PrintJson_ok := true;
              managedgroupscmd.itemTable := Some "";
              managedgroupscmd.listTable := Some "" |} in
  In managedgroupscmd.WrapperCleanupFunc
    (managedgroupscmd.events
       (managedgroupscmd.Run codes a managedgroupscmd.package_initial)).
Proof.
  intros codes a.
  refine (proj2 (proj1 (X21_managedgroups_cleanup codes a
                          managedgroupscmd.package_initial
                          (fun k => eq_refl))) (conj _ _)).
  - vm_compute. left. reflexivity.
  - discriminate.
Defined.

Lemma appendFlags_lookup (extraFlags : list (string * list string)) :
  forall (m : string -> list string) (k : string),
    NoDup (map fst extraFlags) ->
    managedgroupscmd.appendFlags extraFlags m k =
      (m k ++ match find (fun kv => fst kv =? k) extraFlags with
              | Some kv => snd kv
              | None => []
              end)%list.
Proof.
  induction extraFlags as [| [k0 v] rest IH]; intros m k Hnd;
    cbn [managedgroupscmd.appendFlags find fst snd].
  - now rewrite app_nil_r.
  - cbn [map fst] in Hnd. apply NoDup_cons_iff in Hnd.
    destruct Hnd as [Hk0 Hnd]. rewrite (IH _ k Hnd).
    destruct (String.eqb_spec k0 k) as [-> | Hne].
    + rewrite String.eqb_refl.
      destruct (find (fun kv => fst kv =? k) rest) as [[k1 v1] |] eqn:Hf.
      * exfalso. apply find_some in Hf. destruct Hf as [Hin Heq].
        cbn [fst] in Heq. apply String.eqb_eq in Heq. subst k1.
        apply Hk0. apply in_map_iff. now exists (k, v1).
      * now rewrite app_nil_r.
    + destruct (String.eqb_spec k k0) as [-> | _]; [contradiction |].
      reflexivity.
Qed.

(** X22: [initFlags] appends the extra flags of each function to the
    flags of that function, once: the keys of the map of extra flags being
    distinct, the first call leaves, for every function, its flags followed
    by the extra flags registered for it, and every later call changes
    nothing. *)
Theorem X22_managedgroups_init_flags
    (extraFlags : list (string * list string))
    (p : managedgroupscmd.Package) :
  NoDup (map fst extraFlags) ->
  let p1 := managedgroupscmd.initFlags_with extraFlags p in
  (managedgroupscmd.flagsOnce p = false ->
   forall k,
     managedgroupscmd.flagsMap p1 k =
       (managedgroupscmd.flagsMap p k
          ++ match find (fun kv => fst kv =? k) extraFlags with
             | Some kv => snd kv
             | None => []
             end)%list) /\
  (managedgroupscmd.flagsOnce p = true -> p1 = p) /\
  managedgroupscmd.flagsOnce p1 = true /\
  managedgroupscmd.initFlags_with extraFlags p1 = p1.
Proof.
  intros Hnd p1. subst p1. unfold managedgroupscmd.initFlags_with.
  destruct (managedgroupscmd.flagsOnce p) eqn:Ho; cbn.
  - rewrite Ho. repeat split; trivial. discriminate.
  - repeat split; trivial; [| discriminate].
    intros _ k. now apply appendFlags_lookup.
Qed.

Lemma X22_managedgroups_init_flags_witness :
  let extraFlags := [("list", ["recursive"]); ("read", ["version"])] in
  let p1 := managedgroupscmd.initFlags_with extraFlags
              managedgroupscmd.package_initial in
  managedgroupscmd.flagsMap p1 "list" = ["auth-method-id"; "filter"; "recursive"]
  /\ managedgroupscmd.initFlags_with extraFlags p1 = p1.
Proof.
  intros extraFlags p1.
  assert (Hnd : NoDup (map fst extraFlags)).
  { repeat constructor; cbn; intros H;
      repeat (destruct H as [H | H]; try discriminate); contradiction. }
  destruct (X22_managedgroups_init_flags extraFlags
              managedgroupscmd.package_initial Hnd)
    as (Hfirst & _ & _ & Hagain).
  split; [exact (Hfirst eq_refl "list") | exact Hagain].
Defined.
